(** * Chat backend: chunking, retrieval-augmented responder, AI takeover
      state machine and session router.

    A shallow embedding of the JavaScript sources
    - [functions/storeResources.js]  (text chunking, owner namespaces,
                                      ingestion of a text),
    - [functions/aiResponse.js]      (knowledge search, response generation),
    - [functions/aiChatHandler.js]   (AI takeover state, [processUserMessage]),
    - [index.js]                     (socket.io session router, the variant
                                      with the AI integration, and the
                                      routes of the AI state, the
                                      statistics and the stored chats),
    followed by the properties established about them.

    Conventions of the embedding.
    - An [async] function is a function from the state of the process to
      an outcome (a value or a thrown error) and a new state; [try]/[catch]
      is kept where the source has it.
    - OpenAI, Qdrant and the MongoDB driver are external: their answers
      are given by an environment ([Services]) and may differ from one
      call to the next; a driver call either fails or acts on the modelled
      collections.
    - [io.to(target).emit(event, payload)] is recorded in an outbox with
      the room it addresses; membership of socket.io rooms is not
      modelled, nor are the handlers [owner:ready], [get:active-users] and
      [joinUser], the upload routes and the routes of the knowledge
      manager.
    - Each handler invocation is one step of a run of the router
      ([Router.run]).  Schedules in which the [message] handler of a user
      socket waits at the [await] of its owner lookup while other events
      are handled are the subject of [Interleaving]; the other [await]s
      are not points of interleaving. *)

From Stdlib Require Import ZArith Lia String Ascii PrimFloat.
From stdpp Require Import base option list gmap strings pretty.

Local Open Scope Z_scope.

(** ** storeResources.js: [splitTextIntoChunks] *)

Module Chunking.
Section Chunking.

(** A JavaScript string is a sequence of UTF-16 code units; [length] and
    [slice] count code units, so the text is a list over the unit type. *)
Context {char : Type}.

Definition len (text : list char) : Z := Z.of_nat (length text).

(** [String.prototype.slice(start, end)] for integer arguments: a negative
    index counts from the end, both are clamped to [0, length], and an
    empty string results when the clamped end is not after the start. *)
Definition clamp_index (text : list char) (i : Z) : Z :=
  if i <? 0 then Z.max (len text + i) 0 else Z.min i (len text).

Definition slice (text : list char) (start end_ : Z) : list char :=
  let from := clamp_index text start in
  let to := clamp_index text end_ in
  take (Z.to_nat (to - from)) (drop (Z.to_nat from) text).

(** The [while (start < text.length)] loop.  JavaScript gives no bound on
    the number of iterations, so the loop is run on fuel: [None] means the
    fuel ran out before the loop condition became false. *)
Fixpoint split_loop (fuel : nat) (text : list char) (chunkSize overlap : Z)
    (start : Z) (chunks : list (list char)) : option (list (list char)) :=
  match fuel with
  | O => None
  | S fuel' =>
      if start <? len text then
        let end_ := Z.min (start + chunkSize) (len text) in
        split_loop fuel' text chunkSize overlap
                   (start + (chunkSize - overlap))
                   (chunks ++ [slice text start end_])
      else Some chunks
  end.

Definition splitTextIntoChunks_fuel (fuel : nat) (text : list char)
    (chunkSize overlap : Z) : option (list (list char)) :=
  split_loop fuel text chunkSize overlap 0 [].

(** The same loop recording the index pair handed to [slice] instead of the
    slice itself. *)
Fixpoint range_loop (fuel : nat) (text : list char) (chunkSize overlap : Z)
    (start : Z) (ranges : list (Z * Z)) : option (list (Z * Z)) :=
  match fuel with
  | O => None
  | S fuel' =>
      if start <? len text then
        let end_ := Z.min (start + chunkSize) (len text) in
        range_loop fuel' text chunkSize overlap
                   (start + (chunkSize - overlap))
                   (ranges ++ [(start, end_)])
      else Some ranges
  end.

Definition chunkRanges_fuel (fuel : nat) (text : list char)
    (chunkSize overlap : Z) : option (list (Z * Z)) :=
  range_loop fuel text chunkSize overlap 0 [].

(** Default parameters [chunkSize = 1000], [overlap = 200]; one unit of
    fuel per character and one for the final test is always enough (see
    [default_total]). *)
Definition splitTextIntoChunks (text : list char) : option (list (list char)) :=
  splitTextIntoChunks_fuel (S (length text)) text 1000 200.

Definition chunkRanges (text : list char) : option (list (Z * Z)) :=
  chunkRanges_fuel (S (length text)) text 1000 200.

(** Number of characters two consecutive index ranges have in common. *)
Definition range_overlap (r1 r2 : Z * Z) : Z := snd r1 - fst r2.

(** Closed form of the loop: the index pairs of [n] iterations from
    [start], and the number of iterations the loop performs from [start]
    when the stride [chunkSize - overlap] is positive. *)
Fixpoint ranges_from (n : nat) (text : list char) (chunkSize overlap : Z)
    (start : Z) : list (Z * Z) :=
  match n with
  | O => []
  | S n' =>
      (start, Z.min (start + chunkSize) (len text))
        :: ranges_from n' text chunkSize overlap (start + (chunkSize - overlap))
  end.

(** All pairs of consecutive index ranges have exactly [n] characters in
    common. *)
Definition consecutive_overlap (ranges : list (Z * Z)) (n : Z) : Prop :=
  forall (k : nat) r1 r2,
    ranges !! k = Some r1 -> ranges !! S k = Some r2 -> range_overlap r1 r2 = n.

Definition iterations (text : list char) (chunkSize overlap : Z) (start : Z) : nat :=
  Z.to_nat ((len text - start + (chunkSize - overlap) - 1) / (chunkSize - overlap)).

End Chunking.
End Chunking.

(** ** JavaScript values shared by the modules *)

Module Js.

(** A thrown [Error]: only its [message] is ever inspected. *)
Record JsError := mkError { message : string }.

(** Outcome of an [await]ed call: a value, or a thrown error. *)
Inductive Result (A : Type) : Type :=
| Ok (a : A)
| Throw (e : JsError).
Arguments Ok {A} a.
Arguments Throw {A} e.

(** [x || null] on a value that is a string, [null] or [undefined]: the
    empty string is falsy. *)
Definition truthy (s : option string) : option string :=
  match s with
  | Some EmptyString => None
  | _ => s
  end.

(** [a || b] on such values. *)
Definition or_else (a b : option string) : option string :=
  match truthy a with
  | Some x => Some x
  | None => b
  end.

(** [hay.includes(needle)] (case sensitive). *)
Definition includes (hay needle : string) : bool :=
  match String.index 0 needle hay with
  | Some _ => true
  | None => false
  end.

(** Interpolation of a possibly undefined value in a template literal. *)
Definition interpolate (s : option string) : string :=
  match s with
  | Some x => x
  | None => "undefined"
  end.

Definition nl : string := String (ascii_of_nat 10) EmptyString.

(** [arr.slice(-n)] for a count [n]: the last [n] elements, and the whole
    array when [n] is [0] ([-0] is [0], and [slice(0)] starts at the first
    element). *)
Definition slice_last {A : Type} (n : nat) (l : list A) : list A :=
  match n with
  | O => l
  | S _ => drop (length l - n) l
  end.

End Js.

Import Js.

(** ** Documents, messages and the state of the process *)

Module Data.

Inductive Origin := FromUser | FromOwner | FromAi.

(** An entry of [sources] in an AI reply. *)
Record Source := mkSource {
  fileName : option string;
  sourceType : option string;
  relevanceScore : float }.

(** A chat message as buffered, stored in [conversation] and emitted.
    Fields a given message does not carry are [None] (or empty). *)
Record Message := mkMessage {
  from : Origin;
  text : string;
  ts : nat;
  msg_userId : option string;
  msg_ownerId : option string;
  contextUsed : option bool;
  sources : list Source;
  error : bool }.

(** Contact metadata: [{ username, useremail, userphone, ownerId }]. *)
Record Meta := mkMeta {
  username : option string;
  useremail : option string;
  userphone : option string;
  meta_ownerId : option string }.

(** A document of the [chats] collection, keyed by [userId].  A field the
    document lacks reads as [None]; a missing [conversation] as []. *)
Record ChatDoc := mkChatDoc {
  doc_ownerId : option string;
  doc_username : option string;
  doc_useremail : option string;
  doc_userphone : option string;
  conversation : list Message;
  createdAt : nat;
  lastSeen : option nat }.

(** A document of the [ai_chat_state] collection, keyed by [userId]. *)
Record AiStateDoc := mkAiStateDoc {
  aiActive : bool;
  lastUpdated : nat }.

(** What is handed to [io.to(target).emit(event, payload)]. *)
Inductive Payload :=
| ChatPayload (m : Message)
| ForwardedPayload (m : Message) (name email phone : option string)
| UserPayload (userId : string)
| MetadataPayload (userId : string) (meta : Meta).

Record Emit := mkEmit {
  target : string;
  event : string;
  payload : Payload }.

(** The message inside a payload, if it carries one. *)
Definition payload_message (p : Payload) : option Message :=
  match p with
  | ChatPayload m => Some m
  | ForwardedPayload m _ _ _ => Some m
  | _ => None
  end.

Definition ai_authored (m : Message) : bool :=
  match from m with
  | FromAi => true
  | _ => false
  end.

Definition user_authored (m : Message) : bool :=
  match from m with
  | FromUser => true
  | _ => false
  end.

(** The process and its database.
    - [clock] counts the external calls issued so far; it indexes the
      answers of the external services and stands for [Date.now()].
    - [chats], [ai_chat_state]: the two MongoDB collections.
    - [users], [owners], [messagesBuffer], [metadataBuffer]: the module
      level [Map]s of index.js; [chatsCollection] tells whether its
      collection handle has been initialised (is not [null]).
    - [handlerCollections]: whether [initMongo] of aiChatHandler.js has
      set [chatsCollection] and [aiStateCollection] (both are assigned
      together).
    - [outbox]: every [io.to(..).emit(..)] performed, oldest first. *)
Record World := mkWorld {
  clock : nat;
  chats : gmap string ChatDoc;
  ai_chat_state : gmap string AiStateDoc;
  users : gmap string string;
  owners : gmap string string;
  chatsCollection : bool;
  messagesBuffer : gmap string (list Message);
  metadataBuffer : gmap string Meta;
  outbox : list Emit;
  handlerCollections : bool }.

Definition set_clock (f : nat -> nat) (w : World) : World :=
  {| clock := f (clock w);
     chats := chats w;
     ai_chat_state := ai_chat_state w;
     users := users w;
     owners := owners w;
     chatsCollection := chatsCollection w;
     messagesBuffer := messagesBuffer w;
     metadataBuffer := metadataBuffer w;
     outbox := outbox w;
     handlerCollections := handlerCollections w |}.

Definition set_chats (f : gmap string ChatDoc -> gmap string ChatDoc) (w : World) : World :=
  {| clock := clock w;
     chats := f (chats w);
     ai_chat_state := ai_chat_state w;
     users := users w;
     owners := owners w;
     chatsCollection := chatsCollection w;
     messagesBuffer := messagesBuffer w;
     metadataBuffer := metadataBuffer w;
     outbox := outbox w;
     handlerCollections := handlerCollections w |}.

Definition set_ai_chat_state (f : gmap string AiStateDoc -> gmap string AiStateDoc) (w : World) : World :=
  {| clock := clock w;
     chats := chats w;
     ai_chat_state := f (ai_chat_state w);
     users := users w;
     owners := owners w;
     chatsCollection := chatsCollection w;
     messagesBuffer := messagesBuffer w;
     metadataBuffer := metadataBuffer w;
     outbox := outbox w;
     handlerCollections := handlerCollections w |}.

Definition set_users (f : gmap string string -> gmap string string) (w : World) : World :=
  {| clock := clock w;
     chats := chats w;
     ai_chat_state := ai_chat_state w;
     users := f (users w);
     owners := owners w;
     chatsCollection := chatsCollection w;
     messagesBuffer := messagesBuffer w;
     metadataBuffer := metadataBuffer w;
     outbox := outbox w;
     handlerCollections := handlerCollections w |}.

Definition set_owners (f : gmap string string -> gmap string string) (w : World) : World :=
  {| clock := clock w;
     chats := chats w;
     ai_chat_state := ai_chat_state w;
     users := users w;
     owners := f (owners w);
     chatsCollection := chatsCollection w;
     messagesBuffer := messagesBuffer w;
     metadataBuffer := metadataBuffer w;
     outbox := outbox w;
     handlerCollections := handlerCollections w |}.

Definition set_chatsCollection (f : bool -> bool) (w : World) : World :=
  {| clock := clock w;
     chats := chats w;
     ai_chat_state := ai_chat_state w;
     users := users w;
     owners := owners w;
     chatsCollection := f (chatsCollection w);
     messagesBuffer := messagesBuffer w;
     metadataBuffer := metadataBuffer w;
     outbox := outbox w;
     handlerCollections := handlerCollections w |}.

Definition set_messagesBuffer (f : gmap string (list Message) -> gmap string (list Message)) (w : World) : World :=
  {| clock := clock w;
     chats := chats w;
     ai_chat_state := ai_chat_state w;
     users := users w;
     owners := owners w;
     chatsCollection := chatsCollection w;
     messagesBuffer := f (messagesBuffer w);
     metadataBuffer := metadataBuffer w;
     outbox := outbox w;
     handlerCollections := handlerCollections w |}.

Definition set_metadataBuffer (f : gmap string Meta -> gmap string Meta) (w : World) : World :=
  {| clock := clock w;
     chats := chats w;
     ai_chat_state := ai_chat_state w;
     users := users w;
     owners := owners w;
     chatsCollection := chatsCollection w;
     messagesBuffer := messagesBuffer w;
     metadataBuffer := f (metadataBuffer w);
     outbox := outbox w;
     handlerCollections := handlerCollections w |}.

Definition set_outbox (f : list Emit -> list Emit) (w : World) : World :=
  {| clock := clock w;
     chats := chats w;
     ai_chat_state := ai_chat_state w;
     users := users w;
     owners := owners w;
     chatsCollection := chatsCollection w;
     messagesBuffer := messagesBuffer w;
     metadataBuffer := metadataBuffer w;
     outbox := f (outbox w);
     handlerCollections := handlerCollections w |}.

Definition set_handlerCollections (f : bool -> bool) (w : World) : World :=
  {| clock := clock w;
     chats := chats w;
     ai_chat_state := ai_chat_state w;
     users := users w;
     owners := owners w;
     chatsCollection := chatsCollection w;
     messagesBuffer := messagesBuffer w;
     metadataBuffer := metadataBuffer w;
     outbox := outbox w;
     handlerCollections := f (handlerCollections w) |}.

(** A point returned by the vector search, and its projection handed to
    the prompt builder by [searchOwnerKnowledge]. *)
Record ScoredPoint := mkScoredPoint {
  score : float;
  payload_text : string;
  payload_sourceType : option string;
  payload_fileName : option string;
  payload_chunkIndex : option nat }.

Record Context := mkContext {
  ctx_text : string;
  ctx_score : float;
  ctx_sourceType : option string;
  ctx_fileName : option string;
  ctx_chunkIndex : option nat }.

Inductive Role := system | user | assistant.

(** One entry of [messages] in a chat completion request. *)
Record Turn := mkTurn {
  role : Role;
  content : string }.

Record CollectionInfo := mkCollectionInfo {
  points_count : nat;
  vectors_count : nat }.

(** The external collaborators.  Each answer depends on the request and
    on the clock at which the request is issued, so that the same request
    may fail once and succeed later.
    - [OPENAI_API_KEY]: the environment variable;
    - [openai_embeddings], [openai_chat]: the two OpenAI endpoints, an
      HTTP error being the thrown [OpenAI API error];
    - [qdrant_search], [qdrant_deleteCollection], [qdrant_getCollection]:
      the Qdrant client, a rejected request being the thrown error;
      [deleteCollection] resolves to whether a collection was deleted;
    - [knowledgebase_findOne]: the [companyWebsite] of the owner's record
      in the [knowledgebase] collection, read through the connection of
      aiResponse.js;
    - [mongo_fault]: the error, if any, with which a call of the MongoDB
      driver on [chats] or [ai_chat_state] fails. *)
Record Services := mkServices {
  OPENAI_API_KEY : option string;
  openai_embeddings : nat -> string -> Result (list float);
  openai_chat : nat -> list Turn -> Result string;
  qdrant_search : nat -> string -> list float -> nat -> Result (list ScoredPoint);
  qdrant_deleteCollection : nat -> string -> Result bool;
  qdrant_getCollection : nat -> string -> Result CollectionInfo;
  knowledgebase_findOne : nat -> string -> Result (option string);
  mongo_fault : nat -> option JsError }.

End Data.

Import Data.

(** ** Asynchronous code: state and exceptions *)

Module Async.

(** An [async] function: it transforms the world and either returns or
    throws.  A handler runs to completion before the next one starts. *)
Definition M (A : Type) : Type := World -> Result A * World.

Definition ret {A : Type} (a : A) : M A := fun w => (Ok a, w).

Definition throw {A : Type} (e : JsError) : M A := fun w => (Throw e, w).

Definition bind {A B : Type} (m : M A) (k : A -> M B) : M B :=
  fun w =>
    match m w with
    | (Ok a, w') => k a w'
    | (Throw e, w') => (Throw e, w')
    end.

(** [try { m } catch (e) { h e }] *)
Definition try_catch {A : Type} (m : M A) (h : JsError -> M A) : M A :=
  fun w =>
    match m w with
    | (Ok a, w') => (Ok a, w')
    | (Throw e, w') => h e w'
    end.

Definition gets {A : Type} (f : World -> A) : M A := fun w => (Ok (f w), w).

Definition modify (f : World -> World) : M unit := fun w => (Ok tt, f w).

(** An external call: answered by the service at the current clock. *)
Definition call {A : Type} (answer : nat -> Result A) : M A :=
  fun w => (answer (clock w), set_clock S w).

Definition when (b : bool) (m : M unit) : M unit := if b then m else ret tt.

End Async.

Import Async.

Declare Scope async_scope.
Delimit Scope async_scope with async.
Notation "'let!' x ':=' m 'in' k" := (bind m (fun x => k))
  (at level 10, x name, m at level 100, k at level 200,
   format "'[v' 'let!'  x  ':='  m  'in' '/' k ']'") : async_scope.
Notation "m ';;' k" := (bind m (fun _ => k))
  (at level 100, k at level 200, right associativity) : async_scope.
Notation "'try!' m 'catch!' e '=>' h" := (try_catch m (fun e => h))
  (at level 10, e name, m at level 200, h at level 200) : async_scope.
Local Open Scope async_scope.

(** ** storeResources.js: embeddings and owner namespaces *)

Module StoreResources.
Section StoreResources.
Context (svc : Services).

Definition collectionName (ownerId : string) : string :=
  "owner_" ++ ownerId ++ "_knowledge".

Definition generateEmbedding (text : string) : M (list float) :=
  match truthy (OPENAI_API_KEY svc) with
  | None => throw (mkError "OPENAI_API_KEY not set in environment variables")
  | Some _ =>
      try! call (fun t => openai_embeddings svc t text)
      catch! error => throw error
  end.



Record ResourceStats := mkResourceStats {
  stats_ownerId : string;
  stats_collectionName : string;
  pointsCount : nat;
  vectorsCount : nat;
  stats_message : option string }.

Definition getOwnerResourceStats (ownerId : string) : M ResourceStats :=
  try!
    (let! info := call (fun t => qdrant_getCollection svc t (collectionName ownerId)) in
     ret (mkResourceStats ownerId (collectionName ownerId)
            (points_count info) (vectors_count info) None))
  catch! error =>
    if includes (message error) "Not found" then
      ret (mkResourceStats ownerId (collectionName ownerId) 0 0
             (Some "No resources stored yet"))
    else throw error.

End StoreResources.
End StoreResources.

(** ** aiResponse.js: retrieval and generation *)

Module AiResponse.
Section AiResponse.
Context (svc : Services).

Definition getOwnerWebsite (ownerId : string) : M (option string) :=
  try!
    (let! companyWebsite := call (fun t => knowledgebase_findOne svc t ownerId) in
     ret (truthy companyWebsite))
  catch! error => ret None.

Definition to_context (result : ScoredPoint) : Context :=
  {| ctx_text := payload_text result;
     ctx_score := score result;
     ctx_sourceType := payload_sourceType result;
     ctx_fileName := payload_fileName result;
     ctx_chunkIndex := payload_chunkIndex result |}.

Definition searchOwnerKnowledge (ownerId query : string) (limit : nat)
    : M (list Context) :=
  try!
    (let! queryEmbedding := StoreResources.generateEmbedding svc query in
     let! searchResult :=
       call (fun t => qdrant_search svc t (StoreResources.collectionName ownerId)
                        queryEmbedding limit) in
     ret (map to_context searchResult))
  catch! error =>
    if includes (message error) "Not found" then ret []
    else throw error.

(** The text built from the retrieved chunks, one block per chunk. *)
Fixpoint contextBlocks (idx : nat) (context : list Context) : string :=
  match context with
  | [] => ""
  | ctx :: rest =>
      "[Source " ++ pretty (S idx) ++ " - " ++ interpolate (ctx_fileName ctx)
        ++ "]:" ++ nl ++ ctx_text ctx ++ nl ++ nl
        ++ contextBlocks (S idx) rest
  end.

Definition contextString (context : list Context) : string :=
  match context with
  | [] => ""
  | _ => "Relevant information from knowledge base:" ++ nl ++ nl
           ++ contextBlocks 0 context
  end.

Definition websiteContext (websiteUrl : option string) : string :=
  match truthy websiteUrl with
  | Some url =>
      nl ++ nl ++ "Company Website: " ++ url ++ nl
        ++ "You can reference this website when answering questions about the company."
  | None => ""
  end.

Definition systemMessage (context : list Context) (websiteUrl : option string)
    : Turn :=
  {| role := system;
     content :=
       match context with
       | _ :: _ =>
           "You are a helpful and friendly AI customer service assistant. Use the information from the knowledge base below to answer questions accurately and professionally."
           ++ nl ++ nl ++ contextString context ++ websiteContext websiteUrl
           ++ nl ++ nl
           ++ "If the provided context contains relevant information, use it to answer the question. If the context doesn't fully address the question, you can supplement with general knowledge but mention that some information may not be from the official knowledge base."
           ++ nl ++ nl
           ++ "Always be friendly, professional, and concise in your responses."
       | [] =>
           "You are a helpful and friendly AI customer service assistant."
           ++ websiteContext websiteUrl ++ nl ++ nl
           ++ "Since there is no specific knowledge base available, provide helpful, accurate, and professional responses based on your general knowledge. "
           ++ nl ++ nl
           ++ "Be conversational, empathetic, and try to assist users to the best of your ability. If you're unsure about something specific to the company or product, kindly mention that a team member can provide more detailed information."
           ++ nl ++ nl
           ++ "Always be friendly, professional, and concise in your responses."
       end |}.

Definition historyTurn (msg : Message) : Turn :=
  {| role := match from msg with FromUser => user | _ => assistant end;
     content := text msg |}.

Definition buildMessages (userMessage : string) (context : list Context)
    (conversationHistory : list Message) (websiteUrl : option string) : list Turn :=
  systemMessage context websiteUrl
    :: map historyTurn (slice_last 10 conversationHistory)
    ++ [ {| role := user; content := userMessage |} ].

Definition generateAiResponse (userMessage : string) (context : list Context)
    (conversationHistory : list Message) (websiteUrl : option string) : M string :=
  match truthy (OPENAI_API_KEY svc) with
  | None => throw (mkError "OPENAI_API_KEY not set in environment variables")
  | Some _ =>
      try!
        call (fun t => openai_chat svc t
                (buildMessages userMessage context conversationHistory websiteUrl))
      catch! error => throw error
  end.

(** The object returned by [getAiResponseWithContext]. *)
Record AiResult := mkAiResult {
  response : string;
  res_contextUsed : bool;
  res_websiteUrl : option string;
  res_sources : list Source;
  res_error : option string }.

Definition to_source (ctx : Context) : Source :=
  {| fileName := ctx_fileName ctx;
     sourceType := ctx_sourceType ctx;
     relevanceScore := ctx_score ctx |}.

Definition getAiResponseWithContext (ownerId userMessage : string)
    (conversationHistory : list Message) : M AiResult :=
  try!
    (let! websiteUrl := getOwnerWebsite ownerId in
     let! context := searchOwnerKnowledge ownerId userMessage 3 in
     let! aiResponse :=
       generateAiResponse userMessage context conversationHistory websiteUrl in
     ret {| response := aiResponse;
            res_contextUsed := negb (Nat.eqb (length context) 0);
            res_websiteUrl := websiteUrl;
            res_sources := map to_source context;
            res_error := None |})
  catch! error =>
    try!
      (let! websiteUrl := getOwnerWebsite ownerId in
       let! fallbackResponse :=
         generateAiResponse userMessage [] conversationHistory websiteUrl in
       ret {| response := fallbackResponse;
              res_contextUsed := false;
              res_websiteUrl := websiteUrl;
              res_sources := [];
              res_error :=
                Some "Could not access knowledge base, using general AI knowledge" |})
    catch! fallbackError => throw (mkError "Failed to generate AI response").

End AiResponse.
End AiResponse.

(** ** The MongoDB driver on [chats] and [ai_chat_state] *)

Module Mongo.
Section Mongo.
Context (svc : Services).

(** Every driver call is one external call: it may fail with the error the
    environment chooses for that moment. *)
Definition driver : M unit :=
  call (fun t => match mongo_fault svc t with
                 | Some e => Throw e
                 | None => Ok tt
                 end).

Definition new_doc (now : nat) : ChatDoc :=
  {| doc_ownerId := None; doc_username := None; doc_useremail := None;
     doc_userphone := None; conversation := []; createdAt := now;
     lastSeen := None |}.

(** [$set: { ownerId }] *)
Definition set_ownerId (o : option string) (d : ChatDoc) : ChatDoc :=
  {| doc_ownerId := o; doc_username := doc_username d;
     doc_useremail := doc_useremail d; doc_userphone := doc_userphone d;
     conversation := conversation d; createdAt := createdAt d;
     lastSeen := lastSeen d |}.

(** [$push: { conversation: m }] *)
Definition push (m : Message) (d : ChatDoc) : ChatDoc :=
  {| doc_ownerId := doc_ownerId d; doc_username := doc_username d;
     doc_useremail := doc_useremail d; doc_userphone := doc_userphone d;
     conversation := conversation d ++ [m]; createdAt := createdAt d;
     lastSeen := lastSeen d |}.

(** [$set: meta] with [meta = { username, useremail, userphone, ownerId }] *)
Definition set_meta (meta : Meta) (d : ChatDoc) : ChatDoc :=
  {| doc_ownerId := meta_ownerId meta; doc_username := username meta;
     doc_useremail := useremail meta; doc_userphone := userphone meta;
     conversation := conversation d; createdAt := createdAt d;
     lastSeen := lastSeen d |}.

(** [$set: { lastSeen }] *)
Definition set_lastSeen (now : nat) (d : ChatDoc) : ChatDoc :=
  {| doc_ownerId := doc_ownerId d; doc_username := doc_username d;
     doc_useremail := doc_useremail d; doc_userphone := doc_userphone d;
     conversation := conversation d; createdAt := createdAt d;
     lastSeen := Some now |}.

Definition chats_findOne (userId : string) : M (option ChatDoc) :=
  driver ;; gets (fun w => chats w !! userId).

(** [updateOne({ userId }, update, { upsert: true })]: a missing document
    is first created with the [$setOnInsert] fields. *)
Definition chats_upsertOne (userId : string) (update : ChatDoc -> ChatDoc)
    : M unit :=
  driver ;;
  modify (fun w =>
    set_chats (fun c =>
      <[userId := update (default (new_doc (clock w)) (c !! userId))]> c) w).

(** [updateOne({ userId }, update)] without upsert: no document, no effect. *)
Definition chats_updateOne (userId : string) (update : ChatDoc -> ChatDoc)
    : M unit :=
  driver ;; modify (set_chats (alter update userId)).

Definition aiState_findOne (userId : string) : M (option AiStateDoc) :=
  driver ;; gets (fun w => ai_chat_state w !! userId).

(** [updateOne({ userId }, { $set: { aiActive, lastUpdated } }, { upsert: true })] *)
Definition aiState_upsertOne (userId : string) (isActive : bool) : M unit :=
  driver ;;
  modify (fun w =>
    set_ai_chat_state
      <[userId := {| aiActive := isActive; lastUpdated := clock w |}]> w).

End Mongo.
End Mongo.

(** ** aiChatHandler.js: the AI takeover state and [processUserMessage] *)

Module AiChatHandler.
Section AiChatHandler.
Context (svc : Services).

Definition shouldAiRespond (userId : string) : M bool :=
  let! aiStateCollection := gets handlerCollections in
  if negb aiStateCollection then ret true
  else
    try!
      (let! state := Mongo.aiState_findOne svc userId in
       match state with
       | None => ret true
       | Some st => ret (aiActive st)
       end)
    catch! error => ret true.

Definition setAiState (userId : string) (isActive : bool) : M unit :=
  let! aiStateCollection := gets handlerCollections in
  if negb aiStateCollection then ret tt
  else
    try! Mongo.aiState_upsertOne svc userId isActive
    catch! error => ret tt.

Definition deactivateAiForUser (userId : string) : M unit :=
  setAiState userId false.

Definition activateAiForUser (userId : string) : M unit :=
  setAiState userId true.

Definition getConversationHistory (userId : string) (limit : nat)
    : M (list Message) :=
  let! chatsCollection := gets handlerCollections in
  if negb chatsCollection then ret []
  else
    try!
      (let! chat := Mongo.chats_findOne svc userId in
       match chat with
       | None => ret []
       | Some c => ret (slice_last limit (conversation c))
       end)
    catch! error => ret [].

Definition apology : string :=
  "I apologize, but I'm having trouble processing your message right now. Please try again or wait for our team to assist you.".

Definition processUserMessage (userId userMessage : string)
    (ownerId : option string) : M (option Message) :=
  try!
    (let! aiShouldRespond := shouldAiRespond userId in
     if negb aiShouldRespond then ret None
     else
       let! conversationHistory := getConversationHistory userId 10 in
       let! aiResult :=
         match truthy ownerId with
         | Some o =>
             AiResponse.getAiResponseWithContext svc o userMessage conversationHistory
         | None =>
             let! response :=
               AiResponse.generateAiResponse svc userMessage [] conversationHistory None in
             ret (AiResponse.mkAiResult response false None [] None)
         end in
       let! chatsCollection := gets handlerCollections in
       when chatsCollection
         (let! now := gets clock in
          Mongo.chats_updateOne svc userId
            (Mongo.push
               {| from := FromAi; text := AiResponse.response aiResult; ts := now;
                  msg_userId := None; msg_ownerId := None;
                  contextUsed := Some (AiResponse.res_contextUsed aiResult);
                  sources := AiResponse.res_sources aiResult;
                  error := false |})) ;;
       let! now := gets clock in
       ret (Some {| from := FromAi; text := AiResponse.response aiResult; ts := now;
                    msg_userId := Some userId; msg_ownerId := None;
                    contextUsed := Some (AiResponse.res_contextUsed aiResult);
                    sources := AiResponse.res_sources aiResult;
                    error := false |}))
  catch! error =>
    let! now := gets clock in
    ret (Some {| from := FromAi; text := apology; ts := now;
                 msg_userId := Some userId; msg_ownerId := None;
                 contextUsed := None; sources := []; error := true |}).

Definition handleAdminMessage (userId : string) : M unit :=
  deactivateAiForUser userId.

Definition resetAiForUser (userId : string) : M unit :=
  activateAiForUser userId.

Record AiStateInfo := mkAiStateInfo {
  info_userId : string;
  info_aiActive : bool;
  info_status : string }.

Definition getAiStateInfo (userId : string) : M AiStateInfo :=
  let! isActive := shouldAiRespond userId in
  ret {| info_userId := userId;
         info_aiActive := isActive;
         info_status := if isActive then "AI is responding"
                        else "Admin has taken over" |}.

End AiChatHandler.
End AiChatHandler.

(** ** index.js: the session router *)

Module Router.
Section Router.
Context (svc : Services).

(** A connected socket with what its handshake carries: the query
    parameters and, when the [auth_token] cookie holds a token that
    [jwt.verify] accepts, the [userId] decoded from it. *)
Record Socket := mkSocket {
  socket_id : string;
  query_role : option string;
  query_userId : option string;
  query_ownerId : option string;
  cookie_userId : option string }.

Definition is_owner (s : Socket) : bool :=
  match truthy (query_role s) with
  | Some r => String.eqb r "owner"
  | None => false
  end.

Definition userId (s : Socket) : option string := truthy (query_userId s).

(** [ownerUserId] after the cookie fallback. *)
Definition ownerUserId (s : Socket) : option string :=
  or_else (query_ownerId s) (truthy (cookie_userId s)).

(** [const uid = userId || socket.id] *)
Definition uid (s : Socket) : string :=
  match userId s with
  | Some u => u
  | None => socket_id s
  end.

(** [io.to(to).emit(event, p)]: the emit is recorded with the room it
    addresses.  A socket id names the room of that socket, which the socket
    is in from its connection on; which other sockets have joined a room
    is not recorded. *)
Definition emit (to event : string) (p : Payload) : M unit :=
  modify (set_outbox (fun o => o ++ [mkEmit to event p])).

Definition sendToOwnerOrBroadcast (ownerUserId : option string) (event : string)
    (p : Payload) : M unit :=
  try!
    (let! owners := gets owners in
     match truthy ownerUserId with
     | Some o =>
         match owners !! o with
         | Some ownerSocketId => emit ownerSocketId event p
         | None => ret tt
         end
     | None => ret tt
     end)
  catch! e => ret tt.

(** [const sid = users.get(uid); if (sid) io.to(sid).emit('message', p)] *)
Definition sendToUser (uid : string) (p : Payload) : M unit :=
  let! sid := gets (fun w => users w !! uid) in
  match truthy sid with
  | Some sid => emit sid "message" p
  | None => ret tt
  end.

Definition no_meta : Meta := mkMeta None None None None.

(** [metadataBuffer.get(uid) || {}] *)
Definition bufferedMeta (uid : string) : M Meta :=
  gets (fun w => default no_meta (metadataBuffer w !! uid)).

(** [messagesBuffer.get(uid) || []], [push], [messagesBuffer.set] *)
Definition bufferPush (uid : string) (m : Message) : M unit :=
  modify (set_messagesBuffer (fun b => <[uid := default [] (b !! uid) ++ [m]]> b)).

(** The owner a user socket resolves to, in the connection handler and in
    its [message] handler alike: the connection's [ownerUserId], else the
    buffered metadata, else the stored document (a failing lookup is
    ignored). *)
Definition determineOwner (s : Socket) : M (option string) :=
  let targetOwner := ownerUserId s in
  let! targetOwner :=
    match targetOwner with
    | Some o => ret (Some o)
    | None => let! meta := bufferedMeta (uid s) in ret (truthy (meta_ownerId meta))
    end in
  let! chatsCollection := gets chatsCollection in
  match targetOwner with
  | Some o => ret (Some o)
  | None =>
      if chatsCollection then
        try!
          (let! doc := Mongo.chats_findOne svc (uid s) in
           ret (match doc with
                | Some d => truthy (doc_ownerId d)
                | None => None
                end))
        catch! e => ret None
      else ret None
  end.

(** *** [io.on('connection')] *)

Definition on_owner_connection (s : Socket) : M unit :=
  match ownerUserId s with
  | Some o => modify (set_owners <[o := socket_id s]>)
  | None => ret tt
  end.

Definition on_user_connection (s : Socket) : M unit :=
  modify (set_users <[uid s := socket_id s]>) ;;
  modify (set_messagesBuffer (fun b =>
            match b !! uid s with
            | Some _ => b
            | None => <[uid s := []]> b
            end)) ;;
  let! targetOwner := determineOwner s in
  let! chatsCollection := gets chatsCollection in
  match targetOwner with
  | Some o =>
      when chatsCollection
        (try! Mongo.chats_upsertOne svc (uid s) (Mongo.set_ownerId (Some o))
         catch! e => ret tt) ;;
      try! sendToOwnerOrBroadcast (Some o) "user:connected" (UserPayload (uid s))
      catch! e => ret tt
  | None => ret tt
  end.

Definition on_connection (s : Socket) : M unit :=
  if is_owner s then on_owner_connection s else on_user_connection s.

(** *** Owner sockets *)

Definition on_owner_disconnect (s : Socket) : M unit :=
  let! owners := gets owners in
  match ownerUserId s with
  | Some o =>
      match owners !! o with
      | Some sid =>
          if String.eqb sid (socket_id s) then modify (set_owners (delete o))
          else ret tt
      | None => ret tt
      end
  | None => ret tt
  end.

(** The owner id an owner socket signs its messages with:
    [ownerUserId || socket.id]. *)
Definition signingOwner (s : Socket) : string :=
  match ownerUserId s with
  | Some o => o
  | None => socket_id s
  end.

(** The owner's [message] handler after the AI deactivation block: forward
    to the user's socket, buffer, persist, echo to the owning owner. *)
Definition deliverOwnerMessage (s : Socket) (uid text : string) : M unit :=
  let! now := gets clock in
  sendToUser uid
    (ChatPayload
       {| from := FromOwner; text := text; ts := now;
          msg_userId := Some uid; msg_ownerId := Some (signingOwner s);
          contextUsed := None; sources := []; error := false |}) ;;
  let msgObj :=
    {| from := FromOwner; text := text; ts := now;
       msg_userId := None; msg_ownerId := Some (signingOwner s);
       contextUsed := None; sources := []; error := false |} in
  bufferPush uid msgObj ;;
  let! chatsCollection := gets chatsCollection in
  (try!
     when chatsCollection
       (Mongo.chats_upsertOne svc uid
          (fun d => Mongo.push msgObj (Mongo.set_ownerId (Some (signingOwner s)) d)))
   catch! e => ret tt) ;;
  try!
    (let! targetOwnerId :=
       match ownerUserId s with
       | Some o => ret (Some o)
       | None =>
           if chatsCollection then
             let! doc := Mongo.chats_findOne svc uid in
             ret (match doc with
                  | Some d => truthy (doc_ownerId d)
                  | None => None
                  end)
           else ret None
       end in
     let! now := gets clock in
     sendToOwnerOrBroadcast targetOwnerId "message"
       (ChatPayload
          {| from := FromOwner; text := text; ts := now;
             msg_userId := Some uid; msg_ownerId := targetOwnerId;
             contextUsed := None; sources := []; error := false |}))
  catch! e => ret tt.

Definition on_owner_message (s : Socket) (payload_userId : option string)
    (text : string) : M unit :=
  try!
    match truthy payload_userId with
    | None => ret tt
    | Some uid =>
        (try! AiChatHandler.handleAdminMessage svc uid catch! aiError => ret tt) ;;
        deliverOwnerMessage s uid text
    end
  catch! e => ret tt.

(** *** User sockets *)

(** The last owner-authored message of the buffer that carries an owner id
    (the backwards [for] loop of the disconnect handler). *)
Fixpoint lastOwnerId (reversed : list Message) : option string :=
  match reversed with
  | [] => None
  | m :: rest =>
      match from m, truthy (msg_ownerId m) with
      | FromOwner, Some o => Some o
      | _, _ => lastOwnerId rest
      end
  end.

Definition on_user_disconnect (s : Socket) : M unit :=
  modify (set_users (delete (uid s))) ;;
  let! chatsCollection := gets chatsCollection in
  (try!
     (let! metaTmp := bufferedMeta (uid s) in
      let! notifyOwner :=
        match truthy (meta_ownerId metaTmp) with
        | Some o => ret (Some o)
        | None =>
            if chatsCollection then
              try!
                (let! doc := Mongo.chats_findOne svc (uid s) in
                 ret (match doc with
                      | Some d => truthy (doc_ownerId d)
                      | None => None
                      end))
              catch! e => ret None
            else ret None
        end in
      match notifyOwner with
      | Some o => sendToOwnerOrBroadcast (Some o) "user:disconnected" (UserPayload (uid s))
      | None => ret tt
      end)
   catch! e => ret tt) ;;
  (try!
     (let! conv := gets (fun w => default [] (messagesBuffer w !! uid s)) in
      let! meta := bufferedMeta (uid s) in
      let ownerId :=
        match truthy (meta_ownerId meta) with
        | Some o => Some o
        | None => lastOwnerId (rev conv)
        end in
      when chatsCollection
        (let! now := gets clock in
         Mongo.chats_upsertOne svc (uid s)
           (fun d =>
              Mongo.set_lastSeen now
                (Mongo.set_meta
                   (mkMeta (truthy (username meta)) (truthy (useremail meta))
                           (truthy (userphone meta)) (truthy ownerId)) d))))
   catch! e => ret tt) ;;
  modify (set_messagesBuffer (delete (uid s))) ;;
  modify (set_metadataBuffer (delete (uid s))).

Definition on_disconnect (s : Socket) : M unit :=
  if is_owner s then on_owner_disconnect s else on_user_disconnect s.

(** The [message] handler of a user socket, block by block. *)

(** "send message to the owner": with an owner resolved, the contact
    metadata is read from the buffer, or loaded from the stored document
    (and cached) when the buffer has none, and the message is handed to
    [sendToOwnerOrBroadcast]. *)
Definition forwardToOwner (s : Socket) (text : string)
    (targetOwnerId : option string) : M unit :=
  try!
    match targetOwnerId with
    | Some o =>
        let! meta := bufferedMeta (uid s) in
        let! chatsCollection := gets chatsCollection in
        let! meta :=
          match truthy (username meta), truthy (useremail meta),
                truthy (userphone meta), chatsCollection with
          | None, None, None, true =>
              try!
                (let! doc := Mongo.chats_findOne svc (uid s) in
                 match doc with
                 | Some d =>
                     let loaded :=
                       mkMeta (truthy (doc_username d)) (truthy (doc_useremail d))
                              (truthy (doc_userphone d)) (truthy (doc_ownerId d)) in
                     modify (set_metadataBuffer <[uid s := loaded]>) ;;
                     ret loaded
                 | None => ret meta
                 end)
              catch! dbError => ret meta
          | _, _, _, _ => ret meta
          end in
        let! now := gets clock in
        sendToOwnerOrBroadcast (Some o) "message"
          (ForwardedPayload
             {| from := FromUser; text := text; ts := now;
                msg_userId := Some (uid s); msg_ownerId := None;
                contextUsed := None; sources := []; error := false |}
             (truthy (username meta)) (truthy (useremail meta))
             (truthy (userphone meta)))
    | None => ret tt
    end
  catch! e => ret tt.

(** "push to buffer" and "persist incrementally to MongoDB". *)
Definition bufferAndPersist (s : Socket) (text : string)
    (targetOwnerId : option string) : M unit :=
  let! now := gets clock in
  let msgObj :=
    {| from := FromUser; text := text; ts := now;
       msg_userId := None; msg_ownerId := None;
       contextUsed := None; sources := []; error := false |} in
  bufferPush (uid s) msgObj ;;
  let! chatsCollection := gets chatsCollection in
  try!
    when chatsCollection
      (Mongo.chats_upsertOne svc (uid s)
         (fun d => Mongo.push msgObj (Mongo.set_ownerId targetOwnerId d)))
  catch! e => ret tt.

(** "AI RESPONSE INTEGRATION". *)
Definition aiIntegration (s : Socket) (text : string)
    (targetOwnerId : option string) : M unit :=
  try!
    (let! aiResponse := AiChatHandler.processUserMessage svc (uid s) text targetOwnerId in
     match aiResponse with
     | Some r =>
         sendToUser (uid s) (ChatPayload r) ;;
         match targetOwnerId with
         | Some o => sendToOwnerOrBroadcast (Some o) "message" (ChatPayload r)
         | None => ret tt
         end ;;
         bufferPush (uid s) r ;;
         let! chatsCollection := gets chatsCollection in
         try!
           when chatsCollection
             (Mongo.chats_upsertOne svc (uid s)
                (fun d => Mongo.push r (Mongo.set_ownerId targetOwnerId d)))
         catch! e => ret tt
     | None => ret tt
     end)
  catch! aiError => ret tt.

(** [const text = (payload && payload.text) || ''] *)
Definition payloadText (payload_text : option string) : string :=
  match truthy payload_text with
  | Some t => t
  | None => ""
  end.

(** The handler up to the AI integration block; it yields the owner the
    message was resolved to. *)
Definition forwardAndPersist (s : Socket) (payload_text : option string)
    : M (option string) :=
  let text := payloadText payload_text in
  let! targetOwnerId := determineOwner s in
  forwardToOwner s text targetOwnerId ;;
  bufferAndPersist s text targetOwnerId ;;
  ret targetOwnerId.

Definition on_user_message (s : Socket) (payload_text : option string) : M unit :=
  try!
    (let! targetOwnerId := forwardAndPersist s payload_text in
     aiIntegration s (payloadText payload_text) targetOwnerId)
  catch! e => ret tt.

(** *** Metadata *)

Definition metaOfPayload (username useremail userphone ownerId : option string)
    : Meta :=
  mkMeta (truthy username) (truthy useremail) (truthy userphone) (truthy ownerId).

(** [socket.on('setMetadata')], registered on every socket. *)
Definition on_setMetadata (payload_userId : option string) (m : Meta) : M unit :=
  try!
    match truthy payload_userId with
    | None => ret tt
    | Some uid =>
        let meta := metaOfPayload (username m) (useremail m) (userphone m)
                      (meta_ownerId m) in
        modify (set_metadataBuffer <[uid := meta]>) ;;
        let! chatsCollection := gets chatsCollection in
        when chatsCollection (Mongo.chats_upsertOne svc uid (Mongo.set_meta meta)) ;;
        try!
          match truthy (meta_ownerId m) with
          | Some o => sendToOwnerOrBroadcast (Some o) "metadata:updated"
                        (MetadataPayload uid meta)
          | None => ret tt
          end
        catch! e => ret tt
    end
  catch! e => ret tt.

(** [POST /chats/:userId/metadata]: the update is announced to the
    [owners] room. *)
Definition http_setMetadata (uid : string) (m : Meta) : M unit :=
  try!
    (let meta := metaOfPayload (username m) (useremail m) (userphone m)
                   (meta_ownerId m) in
     modify (set_metadataBuffer <[uid := meta]>) ;;
     let! chatsCollection := gets chatsCollection in
     when chatsCollection (Mongo.chats_upsertOne svc uid (Mongo.set_meta meta)) ;;
     emit "owners" "metadata:updated" (MetadataPayload uid meta))
  catch! e => ret tt.

(** [POST /api/ai/reset/:userId] *)
Definition http_resetAi (userId : string) : M unit :=
  try! AiChatHandler.resetAiForUser svc userId catch! e => ret tt.

(** *** Runs of the server *)

(** What can happen to the process; each event is handled to completion
    before the next one. *)
Inductive Event :=
| Connect (s : Socket)
| Disconnect (s : Socket)
| UserMessage (s : Socket) (payload_text : option string)
| OwnerMessage (s : Socket) (payload_userId : option string) (text : string)
| SetMetadata (payload_userId : option string) (m : Meta)
| HttpSetMetadata (userId : string) (m : Meta)
| HttpResetAi (userId : string).

Definition handle (e : Event) : M unit :=
  match e with
  | Connect s => on_connection s
  | Disconnect s => on_disconnect s
  | UserMessage s payload_text => on_user_message s payload_text
  | OwnerMessage s payload_userId text => on_owner_message s payload_userId text
  | SetMetadata payload_userId m => on_setMetadata payload_userId m
  | HttpSetMetadata userId m => http_setMetadata userId m
  | HttpResetAi userId => http_resetAi userId
  end.

Definition step (w : World) (e : Event) : World := snd (handle e w).

Definition run (w : World) (trace : list Event) : World :=
  fold_left step trace w.

(** A freshly started process whose collection handles are initialised or
    not as given, on an empty database. *)
Definition boot (chatsReady handlerReady : bool) : World :=
  {| clock := 0; chats := ∅; ai_chat_state := ∅; users := ∅; owners := ∅;
     chatsCollection := chatsReady; messagesBuffer := ∅; metadataBuffer := ∅;
     outbox := []; handlerCollections := handlerReady |}.

End Router.
End Router.

(** ** Vocabulary of the properties *)

Module Vocabulary.
Section Vocabulary.
Context (svc : Services).

(** The test by which [searchOwnerKnowledge] and [getOwnerResourceStats]
    take an error for the report of a missing collection:
    [error.message.includes('Not found')], which compares case by case. *)
Definition not_found (e : JsError) : bool := includes (message e) "Not found".

(** The owner's namespace holds no record: a search in it returns
    nothing. *)
Definition namespace_empty (ownerId : string) : Prop :=
  forall t v k,
    qdrant_search svc t (StoreResources.collectionName ownerId) v k = Ok [].

Definition api_key_set : Prop := is_Some (truthy (OPENAI_API_KEY svc)).

Definition embedding_available : Prop :=
  api_key_set /\ forall t q, exists v, openai_embeddings svc t q = Ok v.

Definition completion_available : Prop :=
  api_key_set /\ forall t turns, exists s, openai_chat svc t turns = Ok s.

(** The website [getOwnerWebsite] obtains when called at clock [t]. *)
Definition website_at (ownerId : string) (t : nat) : option string :=
  match knowledgebase_findOne svc t ownerId with
  | Ok companyWebsite => truthy companyWebsite
  | Throw _ => None
  end.

Definition fallback_flag : string :=
  "Could not access knowledge base, using general AI knowledge".

(** No call of the MongoDB driver fails. *)
Definition mongo_reliable : Prop := forall t, mongo_fault svc t = None.

End Vocabulary.
End Vocabulary.

(** ** Observations on the state of the router *)

Module Observe.
Section Observe.
Context (svc : Services).

(** The stored conversation of a user (empty without a document). *)
Definition conv (w : World) (u : string) : list Message :=
  match chats w !! u with
  | Some d => conversation d
  | None => []
  end.

(** The texts of the user-authored messages of a conversation, in order. *)
Definition texts_of (l : list Message) : list string :=
  map text (List.filter user_authored l).

(** Those of the stored conversation of a user. *)
Definition user_texts (w : World) (u : string) : list string :=
  texts_of (conv w u).

(** The [ownerId] of the stored document of a user. *)
Definition stored_owner (w : World) (u : string) : option string :=
  match chats w !! u with
  | Some d => doc_ownerId d
  | None => None
  end.

(** The owner id buffered for a user in [metadataBuffer], if any. *)
Definition buffered_owner (w : World) (u : string) : option string :=
  truthy (meta_ownerId (default Router.no_meta (metadataBuffer w !! u))).

(** The owner a user socket resolves to when the stored document names
    owner [o]: the connection's [ownerUserId], else the buffered owner,
    else [o]. *)
Definition resolved_owner (s : Router.Socket) (w : World) (o : string) : string :=
  match Router.ownerUserId s with
  | Some q => q
  | None =>
      match buffered_owner w (Router.uid s) with
      | Some m => m
      | None => o
      end
  end.


(** The answer of the AI-authority query in a given state. *)
Definition isAiAuthoritative (w : World) (u : string) : Result bool :=
  fst (AiChatHandler.shouldAiRespond svc u w).

(** An owner-authored message addressed to [u]. *)
Definition owner_message_for (u : string) (e : Router.Event) : bool :=
  match e with
  | Router.OwnerMessage _ p _ =>
      match truthy p with
      | Some u' => String.eqb u' u
      | None => false
      end
  | _ => false
  end.

(** An explicit reset for [u]. *)
Definition reset_for (u : string) (e : Router.Event) : bool :=
  match e with
  | Router.HttpResetAi u' => String.eqb u' u
  | _ => false
  end.

Definition is_user_message (e : Router.Event) : bool :=
  match e with
  | Router.UserMessage _ _ => true
  | _ => false
  end.

(** The emits performed between two states. *)
Definition emitted_since (w w' : World) : list Emit :=
  drop (length (outbox w)) (outbox w').

(** [m] leaves the world related by [R] to where it started, whether it
    returns or throws. *)
Definition preserves {A : Type} (R : World -> World -> Prop) (m : M A) : Prop :=
  forall w, R w (snd (m w)).

(** Whatever [m] returns satisfies [Q]. *)
Definition returns {A : Type} (Q : A -> Prop) (m : M A) : Prop :=
  forall w a, fst (m w) = Ok a -> Q a.

(** Nothing but the clock differs. *)
Definition only_clock (w w' : World) : Prop :=
  chats w' = chats w /\ ai_chat_state w' = ai_chat_state w /\
  users w' = users w /\ owners w' = owners w /\
  chatsCollection w' = chatsCollection w /\
  messagesBuffer w' = messagesBuffer w /\
  metadataBuffer w' = metadataBuffer w /\
  outbox w' = outbox w /\
  handlerCollections w' = handlerCollections w.

(** The AI takeover records and the collection handles are as before. *)
Definition ai_state_kept (w w' : World) : Prop :=
  ai_chat_state w' = ai_chat_state w /\
  handlerCollections w' = handlerCollections w /\
  chatsCollection w' = chatsCollection w.

End Observe.
End Observe.

(** ** index.js: a message handler waiting at an [await] *)

Module Interleaving.
Section Interleaving.
Context (svc : Services).

(** Whether the [message] handler of a user socket gets to the [await] of
    [chatsCollection.findOne] in its owner resolution: neither the
    connection nor the metadata buffer names an owner, and the collection
    handle is there. *)
Definition awaitsStoredOwner (s : Router.Socket) (w : World) : bool :=
  match Router.ownerUserId s, Observe.buffered_owner w (Router.uid s) with
  | None, None => chatsCollection w
  | _, _ => false
  end.








End Interleaving.
End Interleaving.

(** ** The AI takeover state as a function of the trace *)

Module Takeover.

(** What the stored record of [u] says: AI active unless a record says
    otherwise. *)
Definition ai_flag (w : World) (u : string) : bool :=
  match ai_chat_state w !! u with
  | Some st => aiActive st
  | None => true
  end.

(** The flag after a trace, from the flag before it: the last owner
    message addressed to [u] or reset for [u] decides. *)
Fixpoint authority_after (flag : bool) (u : string) (trace : list Router.Event)
    : bool :=
  match trace with
  | [] => flag
  | e :: rest =>
      authority_after
        (if Observe.owner_message_for u e then false
         else if Observe.reset_for u e then true
         else flag) u rest
  end.

(** The record of [u] and the handles of aiChatHandler.js are as before. *)
Definition ai_record_kept (u : string) (w w' : World) : Prop :=
  ai_chat_state w' !! u = ai_chat_state w !! u /\
  handlerCollections w' = handlerCollections w.

End Takeover.

(** ** Sample environments and sockets *)

Module Demo.

Definition missing_collection : JsError :=
  mkError "Not found: Collection `owner_acme_knowledge` doesn't exist!".

Definition connection_refused : JsError :=
  mkError "fetch failed: connect ECONNREFUSED 127.0.0.1:6333".

(** Every service answers but the vector store, whose calls fail with an
    error whose message begins with the words [Not found], the ones
    [searchOwnerKnowledge] and [getOwnerResourceStats] look for. *)
Definition no_namespace : Services :=
  {| OPENAI_API_KEY := Some "sk-demo";
     openai_embeddings := fun _ _ => Ok [];
     openai_chat := fun _ _ => Ok "Hello, how can I help you today?";
     qdrant_search := fun _ _ _ _ => Throw missing_collection;
     qdrant_deleteCollection := fun _ _ => Throw missing_collection;
     qdrant_getCollection := fun _ _ => Throw missing_collection;
     knowledgebase_findOne := fun _ _ => Ok None;
     mongo_fault := fun _ => None |}.

(** The error of the Qdrant REST client for a response with status 404:
    its message is the status text of the response. *)
Definition api_not_found : JsError := mkError "Not Found".

(** Every service answers and the owner has no knowledge namespace: the
    client rejects a search in it, and a request for its description, with
    [api_not_found]; it answers its deletion with [false], nothing having
    been deleted. *)
Definition namespace_absent : Services :=
  {| OPENAI_API_KEY := Some "sk-demo";
     openai_embeddings := fun _ _ => Ok [];
     openai_chat := fun _ _ => Ok "Hello, how can I help you today?";
     qdrant_search := fun _ _ _ _ => Throw api_not_found;
     qdrant_deleteCollection := fun _ _ => Ok false;
     qdrant_getCollection := fun _ _ => Throw api_not_found;
     knowledgebase_findOne := fun _ _ => Ok None;
     mongo_fault := fun _ => None |}.

(** Every service answers and the namespace of the owner is there, without
    a record in it. *)
Definition namespace_without_records : Services :=
  {| OPENAI_API_KEY := Some "sk-demo";
     openai_embeddings := fun _ _ => Ok [];
     openai_chat := fun _ _ => Ok "Hello, how can I help you today?";
     qdrant_search := fun _ _ _ _ => Ok [];
     qdrant_deleteCollection := fun _ _ => Ok true;
     qdrant_getCollection := fun _ _ => Ok (mkCollectionInfo 0 0);
     knowledgebase_findOne := fun _ _ => Ok None;
     mongo_fault := fun _ => None |}.

(** The vector store cannot be reached. *)
Definition store_down : Services :=
  {| OPENAI_API_KEY := Some "sk-demo";
     openai_embeddings := fun _ _ => Ok [];
     openai_chat := fun _ _ => Ok "Hello, how can I help you today?";
     qdrant_search := fun _ _ _ _ => Throw connection_refused;
     qdrant_deleteCollection := fun _ _ => Throw connection_refused;
     qdrant_getCollection := fun _ _ => Throw connection_refused;
     knowledgebase_findOne := fun _ _ => Ok None;
     mongo_fault := fun _ => None |}.

(** A visitor [u1] whose widget names owner [acme], the dashboards of the
    owners [acme] and [globex], and a visitor connecting without owner. *)
Definition visitor : Router.Socket :=
  Router.mkSocket "sock-u1" None (Some "u1") (Some "acme") None.

Definition anonymous : Router.Socket :=
  Router.mkSocket "sock-u2" None (Some "u2") None None.

Definition acme : Router.Socket :=
  Router.mkSocket "sock-acme" (Some "owner") None (Some "acme") None.

Definition globex : Router.Socket :=
  Router.mkSocket "sock-globex" (Some "owner") None (Some "globex") None.

Definition started : World := Router.boot true true.

(** The visitor is connected; of the owners only [globex] is. *)
Definition only_globex_connected : World :=
  Router.run no_namespace started [Router.Connect globex; Router.Connect visitor].

(** The visitor and both owners are connected. *)
Definition both_owners_connected : World :=
  Router.run no_namespace started
    [Router.Connect globex; Router.Connect acme; Router.Connect visitor].

(** The visitor is connected and owner [acme] has written to them. *)
Definition taken_over : World :=
  Router.run no_namespace started
    [Router.Connect visitor; Router.Connect acme;
     Router.OwnerMessage acme (Some "u1") "I am here"].

(** The visitor has connected, naming owner [acme]. *)
Definition visitor_connected : World :=
  Router.run no_namespace started [Router.Connect visitor].

(** A metadata update that reassigns the visitor to [globex]. *)
Definition to_globex : Meta := mkMeta None None None (Some "globex").




End Demo.

(** ** Growth of the outbox, the stored conversations and the buffers *)

Module Growth.

Definition buffered (w : World) (u : string) : list Message :=
  default [] (messagesBuffer w !! u).

(** Every emit performed from [w] to [w'] satisfies [Q]. *)
Definition outbox_grows (Q : Emit -> Prop) (w w' : World) : Prop :=
  exists new, outbox w' = outbox w ++ new /\ Forall Q new.

(** Every stored conversation of [w'] extends that of [w] by messages
    satisfying [P]. *)
Definition conv_grows (P : Message -> Prop) (w w' : World) : Prop :=
  forall u, exists new, Observe.conv w' u = Observe.conv w u ++ new /\ Forall P new.

(** The same for the in-memory message buffers. *)
Definition buffer_grows (P : Message -> Prop) (w w' : World) : Prop :=
  forall u, exists new, buffered w' u = buffered w u ++ new /\ Forall P new.

Definition not_ai (m : Message) : Prop := ai_authored m = false.

Definition not_user (m : Message) : Prop := user_authored m = false.

(** An emit that carries no AI-authored message. *)
Definition carries_no_ai (e : Emit) : Prop :=
  forall m, payload_message (payload e) = Some m -> not_ai m.

(** From [w] to [w'] nothing AI-authored was emitted, stored or buffered. *)
Definition ai_free (w w' : World) : Prop :=
  outbox_grows carries_no_ai w w' /\ conv_grows not_ai w w' /\
  buffer_grows not_ai w w'.

(** The user-authored part of the stored conversation of [u] and the
    index.js collection handle are as before. *)
Definition user_texts_kept (u : string) (w w' : World) : Prop :=
  Observe.user_texts w' u = Observe.user_texts w u /\
  chatsCollection w' = chatsCollection w.

(** [m] returns, it does not throw. *)
Definition never_throws {A : Type} (m : M A) : Prop :=
  forall w, exists a, fst (m w) = Ok a.

(** An emit is routed for a message resolved to owner [a] and sent by user
    [u] when it goes to the channel registered for [a], or is an
    AI-authored reply going to the channel registered for [u]. *)
Definition ai_reply_to (sid : option string) (e : Emit) : Prop :=
  sid = Some (target e) /\
  exists m, payload e = ChatPayload m /\ ai_authored m = true.

Definition routed (a u : string) (w : World) (e : Emit) : Prop :=
  owners w !! a = Some (target e) \/ ai_reply_to (users w !! u) e.

(** From [w] to [w'] the registries are unchanged and every emit is
    routed. *)
Definition routed_only_to (a u : string) (w w' : World) : Prop :=
  owners w' = owners w /\ users w' = users w /\
  outbox_grows (routed a u w) w w'.

(** An emit that carries an AI-authored reply to the channel registered for
    owner [a] or to the channel registered for user [u]. *)
Definition ai_reply_for (a u : string) (w : World) (e : Emit) : Prop :=
  (owners w !! a = Some (target e) \/ users w !! u = Some (target e)) /\
  exists m, payload e = ChatPayload m /\ ai_authored m = true.

(** From [w] to [w'] the registries are unchanged and every emit is such
    a reply. *)
Definition replies_only (a u : string) (w w' : World) : Prop :=
  owners w' = owners w /\ users w' = users w /\
  outbox_grows (ai_reply_for a u w) w w'.

(** From [w] to [w'] the registries and the outbox are unchanged. *)
Definition silent (w w' : World) : Prop :=
  owners w' = owners w /\ users w' = users w /\ outbox w' = outbox w.

(** If the stored owner of [u] was [t], it still is. *)
Definition owner_stays (u : string) (t : option string) (w w' : World) : Prop :=
  Observe.stored_owner w u = t -> Observe.stored_owner w' u = t.

End Growth.

(** ** storeResources.js: ingestion of a text into an owner's namespace *)

Module Ingestion.

(** A value of a point payload or of the caller's [metadata]: a string, a
    number, the ISO rendering of a [Date], or any other JSON value (kept
    serialised; the code only copies it). *)
Inductive JsValue :=
| JString (s : string)
| JNumber (n : nat)
| JDate (t : nat)
| JOther (json : string).

(** A point handed to [qdrantClient.upsert]. *)
Record Point := mkPoint {
  point_id : nat;
  vector : list float;
  point_payload : gmap string JsValue }.

(** [{ vectors: { size, distance } }] of [createCollection]. *)
Record VectorParams := mkVectorParams {
  vectors_size : nat;
  vectors_distance : string }.

(** The calls of the Qdrant client that write or list; like the other
    services they answer by the clock at which they are issued.
    [qdrant_getCollections] gives the names of the collections. *)
Record VectorStore := mkVectorStore {
  qdrant_getCollections : nat -> Result (list string);
  qdrant_createCollection : nat -> string -> VectorParams -> Result unit;
  qdrant_upsert : nat -> string -> list Point -> Result unit }.

(** The object returned by [storeTextResource]. *)
Record StoreResult := mkStoreResult {
  store_success : bool;
  store_collectionName : string;
  chunksStored : nat;
  store_ownerId : string;
  store_metadata : gmap string JsValue }.

Section Ingestion.
Context (svc : Services) (store : VectorStore).

(** [collections.collections.some(c => c.name === collectionName)] *)
Definition listed (collectionName : string) (collections : list string) : bool :=
  existsb (fun c => String.eqb c collectionName) collections.

Definition ensureOwnerCollection (ownerId : string) : M string :=
  let collectionName := StoreResources.collectionName ownerId in
  try!
    (let! collections := call (fun t => qdrant_getCollections store t) in
     let exists_ := listed collectionName collections in
     (if negb exists_ then
        call (fun t => qdrant_createCollection store t collectionName
                         (mkVectorParams 1536 "Cosine"))
      else ret tt) ;;
     ret collectionName)
  catch! error => throw error.

(** [splitTextIntoChunks(text)] on a string, read as the list of its
    characters.  The loop ends for the default window whatever the text
    (see [default_total]), so the case of a loop that does not end does
    not arise. *)
Definition chunksOf (text : string) : list string :=
  match Chunking.splitTextIntoChunks (list_ascii_of_string text) with
  | Some chunks => map string_of_list_ascii chunks
  | None => []
  end.

(** [{ text, chunkIndex, totalChunks, ownerId, timestamp, ...metadata }]:
    a key of [metadata] replaces the computed field of the same name. *)
Definition chunkPayload (ownerId : string) (metadata : gmap string JsValue)
    (chunk : string) (i totalChunks now : nat) : gmap string JsValue :=
  metadata ∪
  <["text" := JString chunk]>
    (<["chunkIndex" := JNumber i]>
       (<["totalChunks" := JNumber totalChunks]>
          (<["ownerId" := JString ownerId]>
             (<["timestamp" := JDate now]> ∅)))).

(** The [for] loop over the chunks from index [i] on, [chunks] being the
    chunks still to embed and [points] those pushed so far. *)
Fixpoint embedChunks (ownerId : string) (metadata : gmap string JsValue)
    (totalChunks : nat) (chunks : list string) (i : nat) (points : list Point)
    : M (list Point) :=
  match chunks with
  | [] => ret points
  | chunk :: rest =>
      let! embedding := StoreResources.generateEmbedding svc chunk in
      let! now := gets clock in
      embedChunks ownerId metadata totalChunks rest (S i)
        (points ++
           [ {| point_id := now + i;
                vector := embedding;
                point_payload :=
                  chunkPayload ownerId metadata chunk i totalChunks now |} ])
  end.

Definition storeTextResource (ownerId text : string)
    (metadata : gmap string JsValue) : M StoreResult :=
  try!
    (let! collectionName := ensureOwnerCollection ownerId in
     let chunks := chunksOf text in
     let! points := embedChunks ownerId metadata (length chunks) chunks 0 [] in
     call (fun t => qdrant_upsert store t collectionName points) ;;
     ret {| store_success := true;
            store_collectionName := collectionName;
            chunksStored := length points;
            store_ownerId := ownerId;
            store_metadata := metadata |})
  catch! error => throw error.

(** aiResponse.js: [hasKnowledgeBase]. *)
Definition hasKnowledgeBase (ownerId : string) : M bool :=
  let collectionName := StoreResources.collectionName ownerId in
  try!
    (let! collections := call (fun t => qdrant_getCollections store t) in
     ret (listed collectionName collections))
  catch! error => ret false.

End Ingestion.
End Ingestion.

(** ** index.js: the HTTP routes of the AI management API *)

Module Http.

(** What a route hands to [res.json]: [{ error }], [{ success: true,
    message }], the statistics of an owner, the AI state of a user, or a
    stored chat document ([doc || {}], the empty object without one). *)
Inductive Body :=
| JsonError (error : string)
| JsonSuccess (message : string)
| JsonStats (stats : StoreResources.ResourceStats)
| JsonAiState (state : AiChatHandler.AiStateInfo)
| JsonChat (doc : option ChatDoc).

(** [res.status(status).json(body)]; [res.json] alone answers 200. *)
Record Response := mkResponse {
  status : nat;
  body : Body }.

Section Http.
Context (svc : Services).

(** [GET /chats/:userId] *)
Definition get_chat (userId : string) : M Response :=
  try!
    (let! chatsCollection := gets chatsCollection in
     if negb chatsCollection then ret (mkResponse 500 (JsonError "db not connected"))
     else
       let! doc := Mongo.chats_findOne svc userId in
       ret (mkResponse 200 (JsonChat doc)))
  catch! e => ret (mkResponse 500 (JsonError "failed")).

(** [GET /api/ai/stats/:ownerId] *)
Definition get_stats (ownerId : string) : M Response :=
  try!
    (let! stats := StoreResources.getOwnerResourceStats svc ownerId in
     ret (mkResponse 200 (JsonStats stats)))
  catch! error => ret (mkResponse 500 (JsonError (message error))).

(** [POST /api/ai/reset/:userId] with its response. *)
Definition post_reset (userId : string) : M Response :=
  try!
    (AiChatHandler.resetAiForUser svc userId ;;
     ret (mkResponse 200 (JsonSuccess "AI reactivated for user")))
  catch! error => ret (mkResponse 500 (JsonError (message error))).

(** [GET /api/ai/state/:userId] *)
Definition get_state (userId : string) : M Response :=
  try!
    (let! state := AiChatHandler.getAiStateInfo svc userId in
     ret (mkResponse 200 (JsonAiState state)))
  catch! error => ret (mkResponse 500 (JsonError (message error))).

End Http.
End Http.

(** ** Further observations on the state of the router *)

Module Registry.

(** The stored document, the buffers and the registration of user [u]
    are as before, and so is the collection handle of index.js. *)
Definition user_kept (u : string) (w w' : World) : Prop :=
  chats w' !! u = chats w !! u /\
  messagesBuffer w' !! u = messagesBuffer w !! u /\
  metadataBuffer w' !! u = metadataBuffer w !! u /\
  users w' !! u = users w !! u /\
  chatsCollection w' = chatsCollection w.

(** Nothing but the clock and the outbox differs. *)
Definition only_emits (w w' : World) : Prop :=
  chats w' = chats w /\ ai_chat_state w' = ai_chat_state w /\
  users w' = users w /\ owners w' = owners w /\
  chatsCollection w' = chatsCollection w /\
  messagesBuffer w' = messagesBuffer w /\
  metadataBuffer w' = metadataBuffer w /\
  handlerCollections w' = handlerCollections w.

(** The same, except that the metadata buffer may differ as well. *)
Definition messages_kept (w w' : World) : Prop :=
  chats w' = chats w /\ ai_chat_state w' = ai_chat_state w /\
  users w' = users w /\ owners w' = owners w /\
  chatsCollection w' = chatsCollection w /\
  messagesBuffer w' = messagesBuffer w /\
  handlerCollections w' = handlerCollections w.

(** Only the clock and the two collections differ. *)
Definition only_stores (w w' : World) : Prop :=
  users w' = users w /\ owners w' = owners w /\
  messagesBuffer w' = messagesBuffer w /\
  metadataBuffer w' = metadataBuffer w /\
  outbox w' = outbox w /\
  chatsCollection w' = chatsCollection w /\
  handlerCollections w' = handlerCollections w.

(** The user an event acts on: the user of the socket for the events of a
    user socket, the addressee of an owner message or of a metadata
    update; none for the events of an owner's own connection and for a
    reset. *)
Definition subject (e : Router.Event) : option string :=
  match e with
  | Router.Connect s | Router.Disconnect s =>
      if Router.is_owner s then None else Some (Router.uid s)
  | Router.UserMessage s _ => Some (Router.uid s)
  | Router.OwnerMessage _ p _ => truthy p
  | Router.SetMetadata p _ => truthy p
  | Router.HttpSetMetadata u _ => Some u
  | Router.HttpResetAi _ => None
  end.

End Registry.

(** ** Further sample environments *)

Module Samples.

(** No API key is configured. *)
Definition no_key : Services :=
  {| OPENAI_API_KEY := None;
     openai_embeddings := fun _ _ => Ok [];
     openai_chat := fun _ _ => Ok "Hello, how can I help you today?";
     qdrant_search := fun _ _ _ _ => Ok [];
     qdrant_deleteCollection := fun _ _ => Ok true;
     qdrant_getCollection := fun _ _ => Ok (mkCollectionInfo 0 0);
     knowledgebase_findOne := fun _ _ => Ok None;
     mongo_fault := fun _ => None |}.

Definition pricing : ScoredPoint :=
  mkScoredPoint 0.75%float "Plans start at 10 dollars." (Some "pdf")
    (Some "pricing.pdf") (Some 0%nat).

Definition faq : ScoredPoint :=
  mkScoredPoint 0.5%float "Support answers within a day." (Some "txt")
    (Some "faq.txt") (Some 3%nat).

(** Every service answers and the owner's namespace holds two matching
    chunks. *)
Definition with_knowledge : Services :=
  {| OPENAI_API_KEY := Some "sk-demo";
     openai_embeddings := fun _ _ => Ok [];
     openai_chat := fun _ _ => Ok "Plans start at 10 dollars.";
     qdrant_search := fun _ _ _ _ => Ok [pricing; faq];
     qdrant_deleteCollection := fun _ _ => Ok true;
     qdrant_getCollection := fun _ _ => Ok (mkCollectionInfo 2 2);
     knowledgebase_findOne := fun _ _ => Ok (Some "https://acme.example.com");
     mongo_fault := fun _ => None |}.

Definition driver_down : JsError := mkError "MongoNetworkError: connection closed".

(** Every service answers except the MongoDB driver, whose calls fail. *)
Definition mongo_down : Services :=
  {| OPENAI_API_KEY := Some "sk-demo";
     openai_embeddings := fun _ _ => Ok [];
     openai_chat := fun _ _ => Ok "Hello, how can I help you today?";
     qdrant_search := fun _ _ _ _ => Ok [];
     qdrant_deleteCollection := fun _ _ => Ok true;
     qdrant_getCollection := fun _ _ => Ok (mkCollectionInfo 0 0);
     knowledgebase_findOne := fun _ _ => Ok None;
     mongo_fault := fun _ => Some driver_down |}.

(** A vector store that lists the namespace of [acme] and accepts every
    write. *)
Definition store_ready : Ingestion.VectorStore :=
  {| Ingestion.qdrant_getCollections := fun _ => Ok ["owner_acme_knowledge"];
     Ingestion.qdrant_createCollection := fun _ _ _ => Ok tt;
     Ingestion.qdrant_upsert := fun _ _ _ => Ok tt |}.

Definition rate_limited : JsError := mkError "OpenAI API error: 429 rate limit".

(** The embedding service answers the requests issued before clock 3 and
    fails afterwards: in an ingestion started at clock 0, whose listing
    request takes clock 0, the embedding of the third chunk fails. *)
Definition embeddings_give_out : Services :=
  {| OPENAI_API_KEY := Some "sk-demo";
     openai_embeddings := fun t _ => if (t <? 3)%nat then Ok [] else Throw rate_limited;
     openai_chat := fun _ _ => Ok "Hello, how can I help you today?";
     qdrant_search := fun _ _ _ _ => Ok [];
     qdrant_deleteCollection := fun _ _ => Ok true;
     qdrant_getCollection := fun _ _ => Ok (mkCollectionInfo 0 0);
     knowledgebase_findOne := fun _ _ => Ok None;
     mongo_fault := fun _ => None |}.

(** A second dashboard of owner [acme], and a second tab of visitor [u1]. *)
Definition acme_again : Router.Socket :=
  Router.mkSocket "sock-acme-2" (Some "owner") None (Some "acme") None.

Definition visitor_again : Router.Socket :=
  Router.mkSocket "sock-u1-2" None (Some "u1") (Some "acme") None.

End Samples.

(** * Properties *)

(** ** Chunking *)

Import Chunking.

Section ChunkingFacts.
Context {char : Type}.
Implicit Types (text : list char) (cs ov start : Z).

Lemma len_nonneg text : 0 <= len text.
Proof. unfold len. lia. Qed.

Lemma iterations_done text cs ov start :
  0 < cs - ov -> len text <= start -> iterations text cs ov start = O.
Proof.
  intros Hstep Hge. unfold iterations.
  assert ((len text - start + (cs - ov) - 1) / (cs - ov) <= 0); [|lia].
  assert ((len text - start + (cs - ov) - 1) / (cs - ov) < 1); [|lia].
  apply Z.div_lt_upper_bound; lia.
Qed.

Lemma iterations_step text cs ov start :
  0 < cs - ov -> start < len text ->
  iterations text cs ov start = S (iterations text cs ov (start + (cs - ov))).
Proof.
  intros Hstep Hlt. unfold iterations.
  replace (len text - start + (cs - ov) - 1)
    with ((len text - (start + (cs - ov)) + (cs - ov) - 1) + 1 * (cs - ov)) by lia.
  rewrite Z.div_add by lia.
  assert (0 <= (len text - (start + (cs - ov)) + (cs - ov) - 1) / (cs - ov)).
  { apply Z.div_pos; lia. }
  lia.
Qed.

Lemma iterations_bound text cs ov start :
  0 < cs - ov -> 0 <= start ->
  (iterations text cs ov start <= Z.to_nat (len text - start))%nat.
Proof.
  intros Hstep Hs. unfold iterations.
  destruct (Z_lt_le_dec start (len text)) as [Hlt|Hge].
  - apply Z2Nat.inj_le; [apply Z.div_pos; lia | lia |].
    apply Z.lt_succ_r, Z.div_lt_upper_bound; nia.
  - fold (iterations text cs ov start). rewrite iterations_done; lia.
Qed.

Lemma range_loop_closed text cs ov :
  0 < cs - ov ->
  forall fuel start ranges,
    (iterations text cs ov start < fuel)%nat ->
    range_loop fuel text cs ov start ranges
    = Some (ranges ++ ranges_from (iterations text cs ov start) text cs ov start).
Proof.
  intros Hstep fuel. induction fuel as [|fuel IH]; intros start ranges Hfuel; [lia|].
  simpl. destruct (Z.ltb_spec start (len text)) as [Hlt|Hge].
  - rewrite (iterations_step text cs ov start) in * by assumption.
    rewrite IH by lia. simpl. by rewrite <- app_assoc.
  - rewrite iterations_done by assumption. simpl. by rewrite app_nil_r.
Qed.

Lemma split_loop_ranges text cs ov fuel :
  forall start ranges,
    split_loop fuel text cs ov start (map (fun r => slice text r.1 r.2) ranges)
    = map (fun r => slice text r.1 r.2) <$> range_loop fuel text cs ov start ranges.
Proof.
  induction fuel as [|fuel IH]; intros start ranges; [done|].
  simpl. destruct (start <? len text); [|done].
  rewrite <- IH. by rewrite map_app.
Qed.

Lemma ranges_from_lookup text cs ov n :
  forall start k r,
    ranges_from n text cs ov start !! k = Some r ->
    r = (start + Z.of_nat k * (cs - ov),
         Z.min (start + Z.of_nat k * (cs - ov) + cs) (len text)).
Proof.
  induction n as [|n IH]; intros start k r; [done|].
  destruct k as [|k]; intros H.
  - simpl in H. injection H as <-. f_equal; lia.
  - apply (IH _ k) in H. subst r. rewrite Nat2Z.inj_succ. f_equal; lia.
Qed.

Lemma ranges_from_length text cs ov n start :
  length (ranges_from n text cs ov start) = n.
Proof. revert start. induction n; intros; simpl; auto. Qed.

Lemma range_loop_diverges text cs ov :
  cs - ov <= 0 ->
  forall fuel start ranges,
    start < len text -> range_loop fuel text cs ov start ranges = None.
Proof.
  intros Hstep fuel. induction fuel as [|fuel IH]; intros start ranges Hlt; [done|].
  simpl. destruct (Z.ltb_spec start (len text)); [|lia].
  apply IH. lia.
Qed.

Lemma split_fuel_closed text cs ov fuel :
  0 < cs - ov -> (iterations text cs ov 0 < fuel)%nat ->
  chunkRanges_fuel fuel text cs ov
    = Some (ranges_from (iterations text cs ov 0) text cs ov 0) /\
  splitTextIntoChunks_fuel fuel text cs ov
    = Some (map (fun r => slice text r.1 r.2)
                (ranges_from (iterations text cs ov 0) text cs ov 0)).
Proof.
  intros Hstep Hfuel. unfold chunkRanges_fuel, splitTextIntoChunks_fuel.
  pose proof (split_loop_ranges text cs ov fuel 0 []) as Hs. simpl in Hs.
  rewrite Hs, range_loop_closed by assumption. done.
Qed.

Lemma iterations_start_lt text cs ov (k : nat) :
  0 < cs - ov -> (k < iterations text cs ov 0)%nat ->
  Z.of_nat k * (cs - ov) < len text.
Proof.
  intros Hstep Hk. unfold iterations in Hk.
  pose proof (len_nonneg text).
  assert (Z.of_nat k + 1 <= (len text - 0 + (cs - ov) - 1) / (cs - ov)) as Hd by lia.
  pose proof (Z.mul_div_le (len text - 0 + (cs - ov) - 1) (cs - ov) Hstep).
  nia.
Qed.

Lemma slice_window text start cs :
  0 <= start < len text -> 0 < cs ->
  slice text start (Z.min (start + cs) (len text))
  = take (Z.to_nat cs) (drop (Z.to_nat start) text).
Proof.
  intros Hs Hcs. unfold slice, clamp_index.
  destruct (Z.ltb_spec start 0); [lia|].
  destruct (Z.ltb_spec (Z.min (start + cs) (len text)) 0); [lia|].
  destruct (Z_le_gt_dec (start + cs) (len text)).
  - f_equal; [lia | f_equal; lia].
  - replace (Z.to_nat (Z.min start (len text))) with (Z.to_nat start) by lia.
    unfold len in *.
    rewrite !take_ge; [done | rewrite length_drop; lia | rewrite length_drop; lia].
Qed.

(** Reading the text back from the first [stride] characters of each window. *)
Lemma concat_strides (stride : nat) (n : nat) :
  forall text, (length text <= stride * n)%nat ->
    concat (map (fun k : nat => take stride (drop (stride * k) text)) (seq 0 n)) = text.
Proof.
  induction n as [|n IH]; intros text Hlen.
  - destruct text; [done | simpl in Hlen; lia].
  - rewrite <- cons_seq, <- fmap_S_seq. simpl.
    rewrite Nat.mul_0_r, drop_0.
    transitivity (take stride text ++ drop stride text); [|apply take_drop].
    f_equal.
    rewrite <- (IH (drop stride text)) by (rewrite length_drop; lia).
    f_equal. change map with (@fmap list _). rewrite <- list_fmap_compose.
    apply list_fmap_ext. intros _ k _. simpl. rewrite drop_drop.
    do 2 f_equal. lia.
Qed.

(** C10.  With [chunkSize > overlap >= 0] the loop of [splitTextIntoChunks]
    terminates: any fuel above the length of the text yields the same chunk
    list, the [k]-th iteration starting at index [k * (chunkSize - overlap)],
    so the start index grows by the positive stride on each iteration.  On
    the empty text the result is the empty list whatever the parameters.
    With [overlap >= chunkSize] and a non-empty text the loop condition
    never becomes false: no amount of fuel produces a result. *)
Theorem splitTextIntoChunks_terminates_iff_stride_positive text cs ov :
  (0 <= ov < cs ->
     exists chunks ranges,
       (forall fuel, (length text < fuel)%nat ->
          splitTextIntoChunks_fuel fuel text cs ov = Some chunks /\
          chunkRanges_fuel fuel text cs ov = Some ranges) /\
       chunks = map (fun r => slice text r.1 r.2) ranges /\
       (forall (k : nat) r, ranges !! k = Some r ->
          r.1 = Z.of_nat k * (cs - ov) /\ r.1 < len text) /\
       (forall (k : nat) r1 r2, ranges !! k = Some r1 -> ranges !! S k = Some r2 ->
          r1.1 < r2.1 /\ r2.1 = r1.1 + (cs - ov))) /\
  (forall fuel, splitTextIntoChunks_fuel (S fuel) (@nil char) cs ov = Some []) /\
  (cs <= ov -> text <> [] ->
     forall fuel, splitTextIntoChunks_fuel fuel text cs ov = None).
Proof.
  split; [|split].
  - intros [Hov Hlt]. assert (0 < cs - ov) as Hstep by lia.
    exists (map (fun r => slice text r.1 r.2)
                (ranges_from (iterations text cs ov 0) text cs ov 0)),
           (ranges_from (iterations text cs ov 0) text cs ov 0).
    assert (forall (k : nat) r,
      ranges_from (iterations text cs ov 0) text cs ov 0 !! k = Some r ->
      r.1 = Z.of_nat k * (cs - ov) /\ r.1 < len text) as Hstart.
    { intros k r Hk. pose proof (lookup_lt_Some _ _ _ Hk) as Hlen.
      rewrite ranges_from_length in Hlen.
      apply ranges_from_lookup in Hk. subst r. simpl.
      pose proof (iterations_start_lt text cs ov k Hstep Hlen). lia. }
    split; [|split; [done|split; [done|]]].
    + intros fuel Hfuel.
      pose proof (iterations_bound text cs ov 0 Hstep) as Hb. unfold len in Hb.
      destruct (split_fuel_closed text cs ov fuel Hstep) as [Hr Hc]; [lia|].
      by rewrite Hr, Hc.
    + intros k r1 r2 H1 H2.
      apply Hstart in H1 as [H1 _]. apply Hstart in H2 as [H2 _]. lia.
  - intros fuel. reflexivity.
  - intros Hle Hne fuel. unfold splitTextIntoChunks_fuel.
    pose proof (split_loop_ranges text cs ov fuel 0 []) as Hs. simpl in Hs.
    rewrite Hs, range_loop_diverges; [done | lia |].
    unfold len. destruct text; [done | simpl; lia].
Qed.

End ChunkingFacts.

Section DefaultWindow.
Context {char : Type}.
Implicit Types (text : list char).

Lemma default_iterations text :
  iterations text 1000 200 0 = Z.to_nat ((len text + 799) / 800).
Proof. unfold iterations. do 2 f_equal. lia. Qed.

Lemma default_total text :
  chunkRanges text
    = Some (ranges_from (iterations text 1000 200 0) text 1000 200 0) /\
  splitTextIntoChunks text
    = Some (map (fun r => slice text r.1 r.2)
                (ranges_from (iterations text 1000 200 0) text 1000 200 0)).
Proof.
  apply split_fuel_closed; [lia|].
  pose proof (iterations_bound text 1000 200 0) as Hb. unfold len in Hb. lia.
Qed.

Lemma default_range text (k : nat) r :
  ranges_from (iterations text 1000 200 0) text 1000 200 0 !! k = Some r ->
  r = (800 * Z.of_nat k, Z.min (800 * Z.of_nat k + 1000) (len text)) /\
  800 * Z.of_nat k < len text.
Proof.
  intros Hk. pose proof (lookup_lt_Some _ _ _ Hk) as Hlen.
  rewrite ranges_from_length in Hlen.
  apply ranges_from_lookup in Hk. subst r.
  pose proof (iterations_start_lt text 1000 200 k ltac:(lia) Hlen).
  split; [f_equal; lia | lia].
Qed.

Lemma default_chunk text (k : nat) c :
  map (fun r => slice text r.1 r.2)
      (ranges_from (iterations text 1000 200 0) text 1000 200 0) !! k = Some c ->
  c = take 1000 (drop (800 * k) text) /\ (800 * k < length text)%nat.
Proof.
  intros Hk. change map with (@fmap list _) in Hk.
  rewrite list_lookup_fmap in Hk.
  destruct (ranges_from _ _ _ _ _ !! k) as [r|] eqn:Hr; [|done].
  apply default_range in Hr as [-> Hlt]. simpl in Hk. injection Hk as <-.
  unfold len in Hlt. split; [|lia].
  rewrite slice_window by (unfold len; lia).
  do 2 f_equal. lia.
Qed.

(** C7 (amended).  On a non-empty text of length [L] the default window
    (1000, overlap 200) yields [ceil (L / 800)] chunks; chunk [k] is the
    window [text[800 k, min (800 k + 1000, L))], non-empty and at most 1000
    long; every index below [L] lies in chunk [i / 800] at offset
    [i mod 800], and the first 800 characters of the chunks, concatenated,
    give back the text; consecutive chunks share [min (200, L - start)]
    characters, [start] being where the later one begins: exactly 200 when
    the earlier chunk is a full window, fewer when the later chunk is a
    tail shorter than 200. *)
Theorem splitTextIntoChunks_default_covers text :
  text <> [] ->
  exists chunks ranges,
    splitTextIntoChunks text = Some chunks /\
    chunkRanges text = Some ranges /\
    chunks = map (fun r => slice text r.1 r.2) ranges /\
    length chunks = Z.to_nat ((len text + 799) / 800) /\
    (0 < length chunks)%nat /\
    (forall (k : nat) r, ranges !! k = Some r ->
       r = (800 * Z.of_nat k, Z.min (800 * Z.of_nat k + 1000) (len text)) /\
       r.1 < r.2) /\
    (forall (k : nat) c, chunks !! k = Some c ->
       c = take 1000 (drop (800 * k) text) /\ (0 < length c <= 1000)%nat) /\
    (forall i : nat, (i < length text)%nat ->
       exists c, chunks !! (i / 800)%nat = Some c /\
                 c !! (i mod 800)%nat = text !! i) /\
    concat (take 800 <$> chunks) = text /\
    (forall (k : nat) r1 r2, ranges !! k = Some r1 -> ranges !! S k = Some r2 ->
       range_overlap r1 r2 = Z.min 200 (len text - r2.1) /\
       0 < range_overlap r1 r2 <= 200 /\
       (r1.2 - r1.1 = 1000 -> range_overlap r1 r2 = 200)).
Proof.
  intros Hne.
  destruct (default_total text) as [Hr Hc].
  set (n := iterations text 1000 200 0) in *.
  set (ranges := ranges_from n text 1000 200 0) in *.
  exists (map (fun r => slice text r.1 r.2) ranges), ranges.
  assert (length (map (fun r => slice text r.1 r.2) ranges) = n) as Hlen.
  { rewrite length_map. apply ranges_from_length. }
  assert (0 < len text) as Hpos.
  { unfold len. destruct text; [done | simpl; lia]. }
  assert (n = Z.to_nat ((len text + 799) / 800)) as Hn by apply default_iterations.
  assert (1 <= (len text + 799) / 800) as Hn1.
  { apply Z.div_le_lower_bound; lia. }
  split; [done|]. split; [done|]. split; [done|].
  split; [congruence|]. split; [lia|].
  split; [|split; [|split; [|split]]].
  - intros k r Hk. apply default_range in Hk as [-> Hlt]. split; [done|simpl; lia].
  - intros k c Hk. apply default_chunk in Hk as [-> Hlt]. split; [done|].
    rewrite length_take, length_drop. lia.
  - intros i Hi.
    assert (i / 800 < n)%nat as Hk.
    { rewrite Hn. apply Nat2Z.inj_lt. rewrite Z2Nat.id by lia.
      rewrite Nat2Z.inj_div. unfold len. simpl Z.of_nat.
      apply Z.div_lt_upper_bound; [lia|].
      pose proof (Z.mul_div_le (Z.of_nat (length text) + 799) 800 ltac:(lia)).
      pose proof (Z.mod_pos_bound (Z.of_nat (length text) + 799) 800 ltac:(lia)).
      pose proof (Z.div_mod (Z.of_nat (length text) + 799) 800 ltac:(lia)).
      lia. }
    rewrite <- Hlen in Hk. apply lookup_lt_is_Some in Hk as [c Hc'].
    exists c. split; [done|].
    apply default_chunk in Hc' as [-> _].
    pose proof (Nat.mod_upper_bound i 800 ltac:(lia)).
    rewrite lookup_take_lt by lia. rewrite lookup_drop. f_equal.
    pose proof (Nat.div_mod_eq i 800). lia.
  - transitivity
      (concat (map (fun k : nat => take 800 (drop (800 * k) text)) (seq 0 n))).
    + f_equal. apply list_eq. intros k.
      change map with (@fmap list _). rewrite !list_lookup_fmap.
      destruct (decide (k < n)%nat) as [Hk|Hk].
      * rewrite lookup_seq_lt by lia.
        pose proof Hk as Hk'. rewrite <- (ranges_from_length text 1000 200 n 0) in Hk'.
        apply lookup_lt_is_Some in Hk' as [r Hr'].
        fold ranges in Hr'. rewrite Hr'.
        apply default_range in Hr' as [-> Hlt].
        cbn -[Nat.mul Z.mul Z.of_nat Z.to_nat take drop].
        rewrite slice_window by lia.
        rewrite take_take.
        replace (Z.to_nat (800 * Z.of_nat k)) with (800 * k)%nat by lia.
        replace (800 `min` Z.to_nat 1000)%nat with 800%nat by lia.
        reflexivity.
      * rewrite lookup_seq_ge by lia.
        rewrite (lookup_ge_None_2 ranges); [done|].
        unfold ranges. rewrite ranges_from_length. lia.
    + apply concat_strides. rewrite Hn. unfold len in *.
      pose proof (Z.mod_pos_bound (Z.of_nat (length text) + 799) 800 ltac:(lia)).
      pose proof (Z.div_mod (Z.of_nat (length text) + 799) 800 ltac:(lia)).
      lia.
  - intros k r1 r2 H1 H2.
    apply default_range in H1 as [-> Hl1]. apply default_range in H2 as [-> Hl2].
    unfold range_overlap. simpl. lia.
Qed.

End DefaultWindow.

Lemma splitTextIntoChunks_default_covers_witness :
  exists chunks ranges,
    splitTextIntoChunks (replicate 2500 "x"%char) = Some chunks /\
    chunkRanges (replicate 2500 "x"%char) = Some ranges /\
    concat (take 800 <$> chunks) = replicate 2500 "x"%char.
Proof.
  destruct (splitTextIntoChunks_default_covers (replicate 2500 "x"%char))
    as (chunks & ranges & Hc & Hr & _ & _ & _ & _ & _ & _ & Hcat & _).
  - discriminate.
  - exists chunks, ranges. repeat split; assumption.
Defined.

(** C7 as stated does not hold: on a text of 900 characters the chunker
    returns the windows [0, 900) and [800, 900), which have 100 characters
    in common, not 200. *)
Lemma consecutive_overlap_not_always_200 :
  replicate 900 "x"%char <> [] /\
  chunkRanges (replicate 900 "x"%char) = Some [(0, 900); (800, 900)] /\
  splitTextIntoChunks (replicate 900 "x"%char)
    = Some [replicate 900 "x"%char; replicate 100 "x"%char] /\
  range_overlap (0, 900) (800, 900) = 100 /\
  ~ consecutive_overlap [(0, 900); (800, 900)] 200.
Proof.
  split; [discriminate|].
  split; [vm_compute; reflexivity|].
  split; [vm_compute; reflexivity|].
  split; [reflexivity|].
  intros H. specialize (H O (0, 900) (800, 900) eq_refl eq_refl).
  discriminate H.
Qed.

Lemma splitTextIntoChunks_terminates_witness :
  (exists chunks ranges,
     (forall fuel, (length [1%nat; 2%nat; 3%nat; 4%nat; 5%nat] < fuel)%nat ->
        splitTextIntoChunks_fuel fuel [1%nat; 2%nat; 3%nat; 4%nat; 5%nat] 3 1 = Some chunks /\
        chunkRanges_fuel fuel [1%nat; 2%nat; 3%nat; 4%nat; 5%nat] 3 1 = Some ranges) /\
     chunks = map (fun r => slice [1%nat; 2%nat; 3%nat; 4%nat; 5%nat] r.1 r.2) ranges) /\
  (forall fuel, splitTextIntoChunks_fuel fuel [1%nat; 2%nat] 3 3 = None).
Proof.
  pose proof (splitTextIntoChunks_terminates_iff_stride_positive
                [1%nat; 2%nat; 3%nat; 4%nat; 5%nat] 3 1) as [Hterm _].
  pose proof (splitTextIntoChunks_terminates_iff_stride_positive
                [1%nat; 2%nat] 3 3) as (_ & _ & Hdiv).
  split.
  - destruct Hterm as (chunks & ranges & Hrun & Hmap & _); [lia|].
    exists chunks, ranges. split; assumption.
  - apply Hdiv; [lia | discriminate].
Defined.

(** ** Knowledge namespaces and the responder *)

Import StoreResources AiResponse Vocabulary.

Section ResponderFacts.
Context (svc : Services).

Lemma getOwnerWebsite_eval ownerId w :
  getOwnerWebsite svc ownerId w
  = (Ok (website_at svc ownerId (clock w)), set_clock S w).
Proof.
  unfold getOwnerWebsite, website_at, try_catch, bind, call, ret.
  destruct (knowledgebase_findOne svc (clock w) ownerId); reflexivity.
Qed.

Lemma generateEmbedding_eval q w :
  api_key_set svc ->
  generateEmbedding svc q w = (openai_embeddings svc (clock w) q, set_clock S w).
Proof.
  intros [k Hk]. unfold generateEmbedding, try_catch, call, throw. rewrite Hk.
  destruct (openai_embeddings svc (clock w) q); reflexivity.
Qed.

Lemma generateAiResponse_eval msg ctx hist site w :
  api_key_set svc ->
  generateAiResponse svc msg ctx hist site w
  = (openai_chat svc (clock w) (buildMessages msg ctx hist site), set_clock S w).
Proof.
  intros [k Hk]. unfold generateAiResponse, try_catch, call, throw. rewrite Hk.
  destruct (openai_chat svc (clock w) _); reflexivity.
Qed.

Lemma generateAiResponse_no_key msg ctx hist site w :
  truthy (OPENAI_API_KEY svc) = None ->
  generateAiResponse svc msg ctx hist site w
  = (Throw (mkError "OPENAI_API_KEY not set in environment variables"), w).
Proof. intros Hk. unfold generateAiResponse. rewrite Hk. reflexivity. Qed.


(** When [searchOwnerKnowledge] throws, and what. *)
Lemma searchOwnerKnowledge_eval ownerId q limit w :
  api_key_set svc ->
  searchOwnerKnowledge svc ownerId q limit w
  = match openai_embeddings svc (clock w) q with
    | Ok v =>
        (match qdrant_search svc (S (clock w)) (collectionName ownerId) v limit with
         | Ok hits => Ok (map to_context hits)
         | Throw e => if not_found e then Ok [] else Throw e
         end, set_clock S (set_clock S w))
    | Throw e => (if not_found e then Ok [] else Throw e, set_clock S w)
    end.
Proof.
  intros Hk. unfold searchOwnerKnowledge, try_catch, bind.
  rewrite generateEmbedding_eval by assumption.
  destruct (openai_embeddings svc (clock w) q) as [v|e].
  - unfold call, ret, throw, not_found. simpl.
    destruct (qdrant_search svc (S (clock w)) _ v limit) as [hits|e]; [done|].
    destruct (includes (message e) "Not found"); reflexivity.
  - unfold ret, throw, not_found.
    destruct (includes (message e) "Not found"); reflexivity.
Qed.

End ResponderFacts.

Section RetrievalFacts.
Context (svc : Services).

(** A failing search is a failing embedding or a failing vector query whose
    error is not a not-found one. *)
Lemma searchOwnerKnowledge_throws ownerId q limit w e :
  api_key_set svc ->
  fst (searchOwnerKnowledge svc ownerId q limit w) = Throw e <->
  not_found e = false /\
  (openai_embeddings svc (clock w) q = Throw e \/
   exists v, openai_embeddings svc (clock w) q = Ok v /\
             qdrant_search svc (S (clock w)) (collectionName ownerId) v limit = Throw e).
Proof.
  intros Hk. rewrite searchOwnerKnowledge_eval by assumption.
  destruct (openai_embeddings svc (clock w) q) as [v|e1]; simpl.
  - destruct (qdrant_search svc (S (clock w)) _ v limit) as [hits|e2] eqn:Hq.
    + split; [done|]. intros [_ [?|(v' & Hv & He)]]; [done|].
      injection Hv as <-. congruence.
    + destruct (not_found e2) eqn:Hnf.
      * split; [done|]. intros [Hnf' [?|(v' & Hv & He)]]; [done|].
        injection Hv as <-. congruence.
      * split.
        -- intros [= <-]. split; [done|]. right. by exists v.
        -- intros [_ [?|(v' & Hv & He)]]; [done|]. injection Hv as <-. congruence.
  - destruct (not_found e1) eqn:Hnf.
    + split; [done|]. intros [Hnf' [He|(v' & ? & ?)]]; congruence.
    + split.
      * intros [= <-]. split; [done|]. by left.
      * intros [_ [He|(v' & ? & ?)]]; congruence.
Qed.

(** C9.  When the retrieval step of [getAiResponseWithContext] fails, its
    error does not reach the caller: the website is read again and the
    response is generated once more with an empty context.  If that
    generation returns a text, the result carries it with
    [contextUsed = false], no sources and the explanatory [error] flag; only
    if that generation fails too does the caller get an error, namely
    ["Failed to generate AI response"]. *)
Theorem retrieval_failure_falls_back ownerId msg hist w e :
  fst (searchOwnerKnowledge svc ownerId msg 3 (set_clock S w)) = Throw e ->
  let w2 := snd (searchOwnerKnowledge svc ownerId msg 3 (set_clock S w)) in
  let site := website_at svc ownerId (clock w2) in
  getAiResponseWithContext svc ownerId msg hist w
  = match generateAiResponse svc msg [] hist site (set_clock S w2) with
    | (Ok text, w4) =>
        (Ok {| response := text; res_contextUsed := false;
               res_websiteUrl := site; res_sources := [];
               res_error := Some fallback_flag |}, w4)
    | (Throw _, w4) => (Throw (mkError "Failed to generate AI response"), w4)
    end.
Proof.
  intros Hs w2 site. subst w2 site.
  unfold getAiResponseWithContext, try_catch at 1, bind at 1.
  rewrite getOwnerWebsite_eval.
  unfold bind at 1.
  destruct (searchOwnerKnowledge svc ownerId msg 3 (set_clock S w)) as [r w2] eqn:Hr.
  simpl in Hs. subst r. simpl.
  unfold try_catch, bind. rewrite getOwnerWebsite_eval.
  destruct (generateAiResponse svc msg [] hist _ (set_clock S w2)) as [[text|e'] w4];
    reflexivity.
Qed.

(** A namespace without records behaves as one would expect of a missing
    one: with the embedding service answering, [searchOwnerKnowledge]
    returns the empty list; whatever [getAiResponseWithContext] then
    returns has [contextUsed = false] and no sources; and when the
    completion service answers it does return, without error flag, the text
    the service produced for the context-free prompt. *)
Lemma empty_namespace_yields_no_context ownerId :
  namespace_empty svc ownerId ->
  embedding_available svc ->
  (forall q limit w, fst (searchOwnerKnowledge svc ownerId q limit w) = Ok []) /\
  (forall msg hist w r,
     fst (getAiResponseWithContext svc ownerId msg hist w) = Ok r ->
     res_contextUsed r = false /\ res_sources r = []) /\
  (completion_available svc ->
   forall msg hist w,
     exists r,
       fst (getAiResponseWithContext svc ownerId msg hist w) = Ok r /\
       res_contextUsed r = false /\ res_sources r = [] /\ res_error r = None /\
       openai_chat svc (3 + clock w)
         (buildMessages msg [] hist (res_websiteUrl r)) = Ok (response r)).
Proof.
  intros Hns [Hkey Hemb].
  assert (forall q limit w,
    searchOwnerKnowledge svc ownerId q limit w
    = (Ok [], set_clock S (set_clock S w))) as Hsearch.
  { intros q limit w. rewrite searchOwnerKnowledge_eval by assumption.
    destruct (Hemb (clock w) q) as [v ->].
    by rewrite (Hns (S (clock w)) v limit). }
  split; [|split].
  - intros q limit w. by rewrite Hsearch.
  - intros msg hist w r.
    unfold getAiResponseWithContext, try_catch at 1, bind at 1.
    rewrite getOwnerWebsite_eval. unfold bind at 1. rewrite Hsearch.
    unfold bind at 1.
    destruct (generateAiResponse svc msg [] hist _ _) as [[text|e'] w4].
    + simpl. intros [= <-]. done.
    + unfold try_catch, bind. rewrite getOwnerWebsite_eval.
      destruct (generateAiResponse svc msg [] hist _ _) as [[text|e''] w5]; simpl.
      * intros [= <-]. done.
      * discriminate.
  - intros [_ Hchat] msg hist w.
    unfold getAiResponseWithContext, try_catch at 1, bind at 1.
    rewrite getOwnerWebsite_eval. unfold bind at 1. rewrite Hsearch.
    unfold bind at 1. rewrite generateAiResponse_eval by assumption.
    destruct (Hchat (clock (set_clock S (set_clock S (set_clock S w))))
                (buildMessages msg [] hist (website_at svc ownerId (clock w))))
      as [text Htext].
    rewrite Htext. simpl. eexists. split; [reflexivity|]. simpl.
    repeat split. exact Htext.
Qed.


End RetrievalFacts.

(** ** Reasoning about handlers *)

Import AiChatHandler Router Observe.

Section Frames.
Context (R : World -> World -> Prop) `{!PreOrder R}.

Lemma preserves_ret {A} (a : A) : preserves R (ret a).
Proof. intros w. reflexivity. Qed.

Lemma preserves_throw {A} e : preserves R (@throw A e).
Proof. intros w. reflexivity. Qed.

Lemma preserves_gets {A} (f : World -> A) : preserves R (gets f).
Proof. intros w. reflexivity. Qed.

Lemma preserves_bind {A B} (m : M A) (k : A -> M B) :
  preserves R m -> (forall a, preserves R (k a)) -> preserves R (bind m k).
Proof.
  intros Hm Hk w. unfold bind. specialize (Hm w).
  destruct (m w) as [[a|e] w1]; simpl in *; [|done].
  etransitivity; [exact Hm | apply Hk].
Qed.

Lemma preserves_bind_returns {A B} (Q : A -> Prop) (m : M A) (k : A -> M B) :
  preserves R m -> returns Q m -> (forall a, Q a -> preserves R (k a)) ->
  preserves R (bind m k).
Proof.
  intros Hm HQ Hk w. unfold bind. specialize (Hm w). specialize (HQ w).
  destruct (m w) as [[a|e] w1]; simpl in *; [|done].
  etransitivity; [exact Hm | apply Hk; by apply HQ].
Qed.

Lemma preserves_try_catch {A} (m : M A) (h : JsError -> M A) :
  preserves R m -> (forall e, preserves R (h e)) -> preserves R (try_catch m h).
Proof.
  intros Hm Hh w. unfold try_catch. specialize (Hm w).
  destruct (m w) as [[a|e] w1]; simpl in *; [done|].
  etransitivity; [exact Hm | apply Hh].
Qed.

Lemma preserves_modify (f : World -> World) :
  (forall w, R w (f w)) -> preserves R (modify f).
Proof. intros Hf w. apply Hf. Qed.

Lemma preserves_call {A} (answer : nat -> Result A) :
  (forall w, R w (set_clock S w)) -> preserves R (call answer).
Proof. intros Hc w. apply Hc. Qed.

Lemma preserves_when b (m : M unit) :
  preserves R m -> preserves R (when b m).
Proof. intros Hm. destruct b; [done | apply preserves_ret]. Qed.

End Frames.

(** One step of a frame proof: follow the structure of the handler. *)
Ltac frame_step side :=
  lazymatch goal with
  | |- preserves _ (bind _ _) => apply preserves_bind; [try exact _ | | intros ?]
  | |- preserves _ (try_catch _ _) =>
      apply preserves_try_catch; [try exact _ | | intros ?]
  | |- preserves _ (ret _) => apply preserves_ret; try exact _
  | |- preserves _ (throw _) => apply preserves_throw; try exact _
  | |- preserves _ (gets _) => apply preserves_gets; try exact _
  | |- preserves _ (when _ _) => apply preserves_when; [try exact _ | ]
  | |- preserves _ (modify _) => apply preserves_modify; side
  | |- preserves _ (call _) => apply preserves_call; side
  | |- preserves _ (match ?x with _ => _ end) => destruct x
  end.

Ltac frame side := cbv zeta; repeat (frame_step side; cbv zeta).

Create HintDb frames discriminated.

#[global] Instance only_clock_preorder : PreOrder only_clock.
Proof.
  split.
  - intros w. by repeat split.
  - intros w1 w2 w3 H12 H23. unfold only_clock in *.
    destruct H12 as (?&?&?&?&?&?&?&?&?), H23 as (?&?&?&?&?&?&?&?&?).
    repeat split; congruence.
Qed.

#[global] Instance ai_state_kept_preorder : PreOrder ai_state_kept.
Proof.
  split.
  - intros w. by repeat split.
  - intros w1 w2 w3 (?&?&?) (?&?&?). repeat split; congruence.
Qed.

Section BasicFrames.
Context (svc : Services).

Lemma preserves_weaken {A} (R R' : World -> World -> Prop) (m : M A) :
  (forall w w', R w w' -> R' w w') -> preserves R m -> preserves R' m.
Proof. intros HR Hm w. apply HR, Hm. Qed.

Ltac clock_side := intros ?; by repeat split.

Lemma driver_only_clock : preserves only_clock (Mongo.driver svc).
Proof. unfold Mongo.driver. frame clock_side. Qed.

Lemma chats_findOne_only_clock u : preserves only_clock (Mongo.chats_findOne svc u).
Proof. unfold Mongo.chats_findOne, Mongo.driver. frame clock_side. Qed.

Lemma aiState_findOne_only_clock u :
  preserves only_clock (Mongo.aiState_findOne svc u).
Proof. unfold Mongo.aiState_findOne, Mongo.driver. frame clock_side. Qed.

Lemma shouldAiRespond_only_clock u : preserves only_clock (shouldAiRespond svc u).
Proof.
  unfold shouldAiRespond, Mongo.aiState_findOne, Mongo.driver. frame clock_side.
Qed.

Lemma getConversationHistory_only_clock u n :
  preserves only_clock (getConversationHistory svc u n).
Proof.
  unfold getConversationHistory, Mongo.chats_findOne, Mongo.driver.
  frame clock_side.
Qed.

Lemma generateAiResponse_only_clock msg ctx hist site :
  preserves only_clock (generateAiResponse svc msg ctx hist site).
Proof. unfold generateAiResponse. frame clock_side. Qed.

Lemma getAiResponseWithContext_only_clock o msg hist :
  preserves only_clock (getAiResponseWithContext svc o msg hist).
Proof.
  unfold getAiResponseWithContext, getOwnerWebsite, searchOwnerKnowledge,
    generateAiResponse, generateEmbedding.
  frame clock_side.
Qed.

End BasicFrames.

(** ** The AI takeover state machine *)

Import Takeover.

#[global] Instance ai_record_kept_preorder u : PreOrder (ai_record_kept u).
Proof.
  split.
  - intros w. by split.
  - intros w1 w2 w3 [? ?] [? ?]. split; congruence.
Qed.

Lemma ai_state_kept_record u w w' : ai_state_kept w w' -> ai_record_kept u w w'.
Proof. intros (H1 & H2 & _). split; [by rewrite H1 | done]. Qed.

Ltac unfold_handlers :=
  unfold on_connection, on_owner_connection, on_user_connection, on_disconnect,
    on_owner_disconnect, on_user_disconnect, on_user_message, forwardAndPersist,
    aiIntegration, bufferAndPersist, forwardToOwner, determineOwner,
    deliverOwnerMessage, on_setMetadata, http_setMetadata,
    sendToOwnerOrBroadcast, sendToUser, emit, bufferPush, bufferedMeta,
    processUserMessage, getConversationHistory, shouldAiRespond,
    getAiResponseWithContext, getOwnerWebsite, searchOwnerKnowledge,
    generateAiResponse, generateEmbedding,
    Mongo.chats_findOne, Mongo.chats_upsertOne, Mongo.chats_updateOne,
    Mongo.aiState_findOne, Mongo.driver.

Section TakeoverFacts.
Context (svc : Services).

Ltac kept_side := intros ?; by repeat split.

Lemma on_connection_ai_state_kept s : preserves ai_state_kept (on_connection svc s).
Proof. unfold_handlers. frame kept_side. Qed.

Lemma on_disconnect_ai_state_kept s : preserves ai_state_kept (on_disconnect svc s).
Proof. unfold_handlers. frame kept_side. Qed.

Lemma on_user_message_ai_state_kept s p :
  preserves ai_state_kept (on_user_message svc s p).
Proof. unfold_handlers. frame kept_side. Qed.

Lemma deliverOwnerMessage_ai_state_kept s u t :
  preserves ai_state_kept (deliverOwnerMessage svc s u t).
Proof. unfold_handlers. frame kept_side. Qed.

Lemma on_setMetadata_ai_state_kept p m :
  preserves ai_state_kept (on_setMetadata svc p m).
Proof. unfold_handlers. frame kept_side. Qed.

Lemma http_setMetadata_ai_state_kept u m :
  preserves ai_state_kept (http_setMetadata svc u m).
Proof. unfold_handlers. frame kept_side. Qed.

Lemma setAiState_other u u' b :
  u' <> u -> preserves (ai_record_kept u) (setAiState svc u' b).
Proof.
  intros Hne. unfold setAiState, Mongo.aiState_upsertOne, Mongo.driver.
  frame ltac:(intros ?; split; [cbn; first [done | by rewrite lookup_insert_ne] | done]).
Qed.

Lemma driver_ok w :
  mongo_reliable svc -> Mongo.driver svc w = (Ok tt, set_clock S w).
Proof. intros Hr. unfold Mongo.driver, call. by rewrite Hr. Qed.

Lemma shouldAiRespond_eval u w :
  mongo_reliable svc -> handlerCollections w = true ->
  shouldAiRespond svc u w = (Ok (ai_flag w u), set_clock S w).
Proof.
  intros Hr Hc. unfold shouldAiRespond, bind at 1, gets. rewrite Hc. simpl.
  unfold try_catch, Mongo.aiState_findOne, bind. rewrite driver_ok by done.
  unfold gets, ai_flag. simpl. destruct (ai_chat_state w !! u); reflexivity.
Qed.

(** Without its collection handle the handler answers that the AI is
    active, whatever has been recorded. *)
Lemma shouldAiRespond_uninitialised u w :
  handlerCollections w = false -> shouldAiRespond svc u w = (Ok true, w).
Proof.
  intros Hc. unfold shouldAiRespond, bind, gets. rewrite Hc. reflexivity.
Qed.

Lemma setAiState_eval u b w :
  mongo_reliable svc -> handlerCollections w = true ->
  setAiState svc u b w
  = (Ok tt, set_ai_chat_state <[u := mkAiStateDoc b (S (clock w))]> (set_clock S w)).
Proof.
  intros Hr Hc. unfold setAiState, bind at 1, gets. rewrite Hc. simpl.
  unfold try_catch, Mongo.aiState_upsertOne, bind. rewrite driver_ok by done.
  reflexivity.
Qed.

Lemma step_handlerCollections e w :
  handlerCollections (step svc w e) = handlerCollections w.
Proof.
  assert (preserves (fun w w' => handlerCollections w' = handlerCollections w)
            (handle svc e)) as H; [|apply H].
  assert (PreOrder (fun w w' : World => handlerCollections w' = handlerCollections w)).
  { split; [by intros ? | intros ? ? ? ? ?; congruence]. }
  destruct e; unfold handle, on_owner_message, http_resetAi, handleAdminMessage,
    resetAiForUser, deactivateAiForUser, activateAiForUser, setAiState,
    Mongo.aiState_upsertOne;
    unfold_handlers; frame ltac:(by intros ?).
Qed.

Lemma step_ai_record_kept u e w :
  owner_message_for u e = false -> reset_for u e = false ->
  ai_record_kept u w (step svc w e).
Proof.
  intros Ho Hr. unfold step.
  assert (preserves (ai_record_kept u) (handle svc e)) as H; [|apply H].
  destruct e as [s|s|s p|s p t|p m|u' m|u']; simpl in *.
  - eapply preserves_weaken;
      [apply ai_state_kept_record | apply on_connection_ai_state_kept].
  - eapply preserves_weaken;
      [apply ai_state_kept_record | apply on_disconnect_ai_state_kept].
  - eapply preserves_weaken;
      [apply ai_state_kept_record | apply on_user_message_ai_state_kept].
  - unfold on_owner_message. destruct (truthy p) as [u'|]; [|frame idtac].
    apply String.eqb_neq in Ho.
    frame idtac.
    + by apply setAiState_other.
    + eapply preserves_weaken;
        [apply ai_state_kept_record | apply deliverOwnerMessage_ai_state_kept].
  - eapply preserves_weaken;
      [apply ai_state_kept_record | apply on_setMetadata_ai_state_kept].
  - eapply preserves_weaken;
      [apply ai_state_kept_record | apply http_setMetadata_ai_state_kept].
  - apply String.eqb_neq in Hr. unfold http_resetAi. frame idtac.
    by apply setAiState_other.
Qed.

Lemma step_owner_message u e w :
  mongo_reliable svc -> handlerCollections w = true ->
  owner_message_for u e = true -> ai_flag (step svc w e) u = false.
Proof.
  intros Hrel Hc Ho. destruct e as [| | |s p t| | |]; try discriminate.
  simpl in Ho. destruct (truthy p) as [u'|] eqn:Hp; [|discriminate].
  apply String.eqb_eq in Ho. subst u'.
  unfold step, handle, on_owner_message. rewrite Hp.
  unfold try_catch at 1, bind at 1, try_catch at 1.
  unfold handleAdminMessage, deactivateAiForUser.
  rewrite setAiState_eval by done.
  pose proof (deliverOwnerMessage_ai_state_kept s u t
    (set_ai_chat_state <[u := mkAiStateDoc false (S (clock w))]> (set_clock S w)))
    as (Hai & _ & _).
  destruct (deliverOwnerMessage svc s u t _) as [[[]|e] w2]; simpl in *;
    unfold ai_flag; rewrite Hai; by rewrite lookup_insert_eq.
Qed.

Lemma step_reset u e w :
  mongo_reliable svc -> handlerCollections w = true ->
  reset_for u e = true -> ai_flag (step svc w e) u = true.
Proof.
  intros Hrel Hc Ho. destruct e as [| | | | | |u']; try discriminate.
  simpl in Ho. apply String.eqb_eq in Ho. subst u'.
  unfold step, handle, http_resetAi, resetAiForUser, activateAiForUser, try_catch.
  rewrite setAiState_eval by done. simpl.
  unfold ai_flag. simpl. by rewrite lookup_insert_eq.
Qed.

Lemma run_handlerCollections trace w :
  handlerCollections (run svc w trace) = handlerCollections w.
Proof.
  revert w. induction trace as [|e trace IH]; intros w; [done|].
  simpl. rewrite IH. apply step_handlerCollections.
Qed.

(** The stored flag after a run is the one the last owner message or reset
    for the user dictates. *)
Lemma run_ai_flag u trace w :
  mongo_reliable svc -> handlerCollections w = true ->
  ai_flag (run svc w trace) u = authority_after (ai_flag w u) u trace.
Proof.
  intros Hrel. revert w. induction trace as [|e trace IH]; intros w Hc; [done|].
  simpl. rewrite IH by (by rewrite step_handlerCollections). f_equal.
  destruct (owner_message_for u e) eqn:Ho; [by apply step_owner_message|].
  destruct (reset_for u e) eqn:Hr; [by apply step_reset|].
  destruct (step_ai_record_kept u e w Ho Hr) as [Hk _].
  unfold ai_flag. by rewrite Hk.
Qed.

Lemma authority_after_app flag u t1 t2 :
  authority_after flag u (t1 ++ t2)
  = authority_after (authority_after flag u t1) u t2.
Proof. revert flag. induction t1; intros; simpl; auto. Qed.

Lemma authority_after_no_owner_message u trace :
  Forall (fun e => owner_message_for u e = false) trace ->
  authority_after true u trace = true.
Proof.
  induction 1 as [|e trace He _ IH]; [done|].
  simpl. rewrite He. by destruct (reset_for u e).
Qed.

Lemma authority_after_no_reset u trace :
  Forall (fun e => reset_for u e = false) trace ->
  authority_after false u trace = false.
Proof.
  induction 1 as [|e trace He _ IH]; [done|].
  simpl. rewrite He. by destruct (owner_message_for u e).
Qed.

End TakeoverFacts.

Section TakeoverTheorem.
Context (svc : Services).

(** C1.  With the state collection connected and the driver reliable: from
    a state without record for the user, as long as no owner-authored
    message is addressed to that user, the AI-authority query answers
    [true]; once an owner-authored message for the user has been handled it
    answers [false], and keeps doing so whatever follows short of a reset
    for that user (user messages in particular); once a reset for the user
    has been handled it answers [true] again, until the next owner message. *)
Theorem ai_authority_follows_takeover_and_reset u w trace :
  mongo_reliable svc -> handlerCollections w = true ->
  (ai_chat_state w !! u = None ->
   Forall (fun e => owner_message_for u e = false) trace ->
   isAiAuthoritative svc (run svc w trace) u = Ok true) /\
  (forall pre e post,
     trace = pre ++ e :: post -> owner_message_for u e = true ->
     Forall (fun e' => reset_for u e' = false) post ->
     isAiAuthoritative svc (run svc w trace) u = Ok false) /\
  (forall pre e post,
     trace = pre ++ e :: post -> owner_message_for u e = true ->
     forallb is_user_message post = true ->
     isAiAuthoritative svc (run svc w trace) u = Ok false) /\
  (forall pre e post,
     trace = pre ++ e :: post -> reset_for u e = true ->
     Forall (fun e' => owner_message_for u e' = false) post ->
     isAiAuthoritative svc (run svc w trace) u = Ok true).
Proof.
  intros Hrel Hc.
  assert (forall t, isAiAuthoritative svc (run svc w t) u
                    = Ok (authority_after (ai_flag w u) u t)) as Hq.
  { intros t. unfold isAiAuthoritative.
    rewrite shouldAiRespond_eval by (by rewrite ?run_handlerCollections).
    simpl. by rewrite run_ai_flag. }
  assert (forall pre e post,
    owner_message_for u e = true ->
    Forall (fun e' => reset_for u e' = false) post ->
    isAiAuthoritative svc (run svc w (pre ++ e :: post)) u = Ok false) as Htake.
  { intros pre e post He Hpost. rewrite Hq, authority_after_app. simpl.
    rewrite He. by rewrite authority_after_no_reset. }
  split; [|split; [|split]].
  - intros Hnone Htrace. rewrite Hq. unfold ai_flag. rewrite Hnone.
    by rewrite authority_after_no_owner_message.
  - intros pre e post -> He Hpost. by apply Htake.
  - intros pre e post -> He Hpost. apply Htake; [done|].
    apply Forall_forall. intros e' Hin.
    rewrite forallb_forall in Hpost. specialize (Hpost e').
    destruct e'; try reflexivity; simpl in Hpost;
      exfalso; apply Bool.diff_false_true, Hpost, list_elem_of_In, Hin.
  - intros pre e post -> He Hpost. rewrite Hq, authority_after_app.
    destruct e; try discriminate. simpl in *. rewrite He.
    by rewrite authority_after_no_owner_message.
Qed.

End TakeoverTheorem.

Lemma ai_authority_follows_takeover_and_reset_witness :
  isAiAuthoritative Demo.no_namespace
    (run Demo.no_namespace Demo.started
       [Connect Demo.visitor; UserMessage Demo.visitor (Some "hello")]) "u1"
    = Ok true /\
  isAiAuthoritative Demo.no_namespace
    (run Demo.no_namespace Demo.started
       ([Connect Demo.visitor; Connect Demo.acme]
          ++ OwnerMessage Demo.acme (Some "u1") "I am here"
          :: [UserMessage Demo.visitor (Some "hello");
              UserMessage Demo.visitor (Some "anyone?")])) "u1"
    = Ok false /\
  isAiAuthoritative Demo.no_namespace
    (run Demo.no_namespace Demo.started
       ([Connect Demo.visitor; OwnerMessage Demo.acme (Some "u1") "I am here"]
          ++ HttpResetAi "u1" :: [UserMessage Demo.visitor (Some "hello")])) "u1"
    = Ok true.
Proof.
  split; [|split].
  - apply (ai_authority_follows_takeover_and_reset Demo.no_namespace "u1"
             Demo.started
             [Connect Demo.visitor; UserMessage Demo.visitor (Some "hello")]);
      [intros t; reflexivity | reflexivity | reflexivity | repeat constructor].
  - eapply (ai_authority_follows_takeover_and_reset Demo.no_namespace "u1"
              Demo.started);
      [intros t; reflexivity | reflexivity | reflexivity | reflexivity
      | repeat constructor].
  - eapply (ai_authority_follows_takeover_and_reset Demo.no_namespace "u1"
              Demo.started);
      [intros t; reflexivity | reflexivity | reflexivity | reflexivity
      | repeat constructor].
Defined.

(** ** Sample runs of the responder *)

Lemma retrieval_failure_falls_back_witness :
  getAiResponseWithContext Demo.store_down "acme" "what are your hours" []
    Demo.started
  = (Ok {| response := "Hello, how can I help you today?";
           res_contextUsed := false; res_websiteUrl := None; res_sources := [];
           res_error := Some fallback_flag |},
     set_clock (fun _ => 5%nat) Demo.started).
Proof.
  rewrite (retrieval_failure_falls_back Demo.store_down "acme"
             "what are your hours" [] Demo.started Demo.connection_refused);
    reflexivity.
Defined.


(** C8 (failing input).  The owner has no namespace and the client rejects
    the search with its error for a 404, whose message is [Not Found].  The
    test of [searchOwnerKnowledge] looks for [Not found] and does not
    match, so the error is thrown at the caller instead of the empty list
    being returned; the sibling test of [getOwnerResourceStats] misses it
    the same way.  [getAiResponseWithContext] takes the error for a failure
    of the knowledge base: its result has no context and no sources, and is
    flagged with the note of the fallback.  With a namespace that is there
    and holds no record, the search returns the empty list and the result
    carries no flag. *)
Theorem searchOwnerKnowledge_rethrows_Not_Found :
  not_found Demo.api_not_found = false /\
  fst (searchOwnerKnowledge Demo.namespace_absent "acme" "what are your hours" 3
         Demo.started) = Throw Demo.api_not_found /\
  fst (getOwnerResourceStats Demo.namespace_absent "acme" Demo.started)
    = Throw Demo.api_not_found /\
  fst (getAiResponseWithContext Demo.namespace_absent "acme"
         "what are your hours" [] Demo.started)
    = Ok {| response := "Hello, how can I help you today?";
            res_contextUsed := false; res_websiteUrl := None; res_sources := [];
            res_error := Some fallback_flag |} /\
  fst (searchOwnerKnowledge Demo.namespace_without_records "acme"
         "what are your hours" 3 Demo.started) = Ok [] /\
  fst (getAiResponseWithContext Demo.namespace_without_records "acme"
         "what are your hours" [] Demo.started)
    = Ok {| response := "Hello, how can I help you today?";
            res_contextUsed := false; res_websiteUrl := None; res_sources := [];
            res_error := None |}.
Proof. repeat split; reflexivity. Qed.

(** ** Growth relations *)

Import Growth.

#[global] Instance outbox_grows_preorder Q : PreOrder (outbox_grows Q).
Proof.
  split.
  - intros w. exists []. by rewrite app_nil_r.
  - intros w1 w2 w3 (n1 & H1 & F1) (n2 & H2 & F2). exists (n1 ++ n2).
    split; [by rewrite H2, H1, <- app_assoc | by apply Forall_app].
Qed.

#[global] Instance conv_grows_preorder P : PreOrder (conv_grows P).
Proof.
  split.
  - intros w u. exists []. by rewrite app_nil_r.
  - intros w1 w2 w3 H12 H23 u.
    destruct (H12 u) as (n1 & H1 & F1), (H23 u) as (n2 & H2 & F2).
    exists (n1 ++ n2).
    split; [by rewrite H2, H1, <- app_assoc | by apply Forall_app].
Qed.

#[global] Instance buffer_grows_preorder P : PreOrder (buffer_grows P).
Proof.
  split.
  - intros w u. exists []. by rewrite app_nil_r.
  - intros w1 w2 w3 H12 H23 u.
    destruct (H12 u) as (n1 & H1 & F1), (H23 u) as (n2 & H2 & F2).
    exists (n1 ++ n2).
    split; [by rewrite H2, H1, <- app_assoc | by apply Forall_app].
Qed.

#[global] Instance ai_free_preorder : PreOrder ai_free.
Proof.
  split.
  - intros w. repeat split; reflexivity.
  - intros w1 w2 w3 (?&?&?) (?&?&?). repeat split; etransitivity; eassumption.
Qed.

Section GrowthFacts.
Context (svc : Services).

Lemma conv_grows_unchanged P w w' :
  chats w' = chats w -> conv_grows P w w'.
Proof. intros Hc u. exists []. unfold conv. by rewrite Hc, app_nil_r. Qed.

Lemma buffer_grows_unchanged P w w' :
  messagesBuffer w' = messagesBuffer w -> buffer_grows P w w'.
Proof. intros Hc u. exists []. unfold buffered. by rewrite Hc, app_nil_r. Qed.

Lemma outbox_grows_unchanged Q w w' :
  outbox w' = outbox w -> outbox_grows Q w w'.
Proof. intros Hc. exists []. by rewrite Hc, app_nil_r. Qed.

(** An upsert whose update extends the conversation by messages in [P]. *)
Lemma conv_grows_upsert P w u (upd : ChatDoc -> ChatDoc) now :
  (forall d, exists new, conversation (upd d) = conversation d ++ new /\ Forall P new) ->
  conv_grows P w
    (set_chats (fun c => <[u := upd (default (Mongo.new_doc now) (c !! u))]> c) w).
Proof.
  intros Hupd u'. unfold conv. simpl.
  destruct (decide (u = u')) as [<-|Hne].
  - rewrite lookup_insert_eq.
    destruct (Hupd (default (Mongo.new_doc now) (chats w !! u))) as (new & -> & HF).
    exists new. split; [|done]. by destruct (chats w !! u).
  - rewrite lookup_insert_ne by done. exists []. by rewrite app_nil_r.
Qed.

Lemma buffer_grows_push P w u m :
  P m ->
  buffer_grows P w
    (set_messagesBuffer (fun b => <[u := default [] (b !! u) ++ [m]]> b) w).
Proof.
  intros Hm u'. unfold buffered. simpl.
  destruct (decide (u = u')) as [<-|Hne].
  - rewrite lookup_insert_eq. exists [m]. split; [done | by constructor].
  - rewrite lookup_insert_ne by done. exists []. by rewrite app_nil_r.
Qed.

Lemma outbox_grows_emit Q w e :
  Q e -> outbox_grows Q w (set_outbox (fun o => o ++ [e]) w).
Proof. intros He. exists [e]. split; [done | by constructor]. Qed.

End GrowthFacts.

#[global] Hint Resolve driver_only_clock chats_findOne_only_clock
  aiState_findOne_only_clock shouldAiRespond_only_clock
  getConversationHistory_only_clock generateAiResponse_only_clock
  getAiResponseWithContext_only_clock : frames.

(** A known sub-handler that only advances the clock, under a relation
    that does not look at the clock. *)
Ltac clock_frame sub :=
  idtac;
  lazymatch goal with
  | |- preserves _ (Mongo.driver _) => idtac
  | |- preserves _ (Mongo.chats_findOne _ _) => idtac
  | |- preserves _ (Mongo.aiState_findOne _ _) => idtac
  | |- preserves _ (shouldAiRespond _ _) => idtac
  | |- preserves _ (getConversationHistory _ _ _) => idtac
  | |- preserves _ (generateAiResponse _ _ _ _ _) => idtac
  | |- preserves _ (getAiResponseWithContext _ _ _ _) => idtac
  end;
  eapply preserves_weaken; [exact sub | solve [auto with frames nocore]].

Ltac frame_with known side :=
  cbv zeta; repeat (first [known | frame_step side]; cbv zeta).

(** The router and [processUserMessage], down to the calls of the driver
    and of the responder. *)
Ltac unfold_router :=
  unfold handle, on_connection, on_owner_connection, on_user_connection,
    on_disconnect, on_owner_disconnect, on_user_disconnect, on_user_message,
    forwardAndPersist, aiIntegration, bufferAndPersist, forwardToOwner,
    determineOwner, on_owner_message, deliverOwnerMessage, on_setMetadata,
    http_setMetadata, http_resetAi, sendToOwnerOrBroadcast, sendToUser, emit,
    bufferPush,
    bufferedMeta, processUserMessage, handleAdminMessage, resetAiForUser,
    deactivateAiForUser, activateAiForUser, setAiState.

(** Side conditions of frame proofs about growth. *)
Ltac message_side :=
  solve [ unfold not_ai, not_user, carries_no_ai; simpl;
          first [ reflexivity | by intros ? [= <-] | done ] ].

Ltac extends_side :=
  intros ?; eexists; split; [reflexivity | repeat constructor; message_side].

Ltac outbox_side :=
  first [ by apply outbox_grows_unchanged
        | apply outbox_grows_emit; message_side ].

Ltac conv_side := by apply conv_grows_unchanged.

Ltac buffer_side :=
  first [ by apply buffer_grows_unchanged
        | apply buffer_grows_push; message_side ].

Ltac ai_free_side := intros ?; split; [outbox_side | split; [conv_side | buffer_side]].

Section SuppressionFacts.
Context (svc : Services).

Lemma only_clock_ai_free w w' : only_clock w w' -> ai_free w w'.
Proof.
  intros (?&?&?&?&?&?&?&?&?). split; [|split].
  - by apply outbox_grows_unchanged.
  - by apply conv_grows_unchanged.
  - by apply buffer_grows_unchanged.
Qed.

Lemma chats_upsertOne_ai_free u upd :
  (forall d, exists new,
     conversation (upd d) = conversation d ++ new /\ Forall not_ai new) ->
  preserves ai_free (Mongo.chats_upsertOne svc u upd).
Proof.
  intros Hupd. unfold Mongo.chats_upsertOne.
  frame_with ltac:(clock_frame only_clock_ai_free) idtac.
  intros w. split; [by apply outbox_grows_unchanged|].
  split; [by apply conv_grows_upsert | by apply buffer_grows_unchanged].
Qed.

Lemma forwardAndPersist_ai_free s p :
  preserves ai_free (forwardAndPersist svc s p).
Proof.
  unfold_router.
  frame_with
    ltac:(idtac;
          lazymatch goal with
          | |- preserves _ (Mongo.chats_upsertOne _ _ _) =>
              apply chats_upsertOne_ai_free; extends_side
          | |- _ => clock_frame only_clock_ai_free
          end)
    ai_free_side.
Qed.

Lemma processUserMessage_suppressed u t o w :
  fst (shouldAiRespond svc u w) = Ok false ->
  processUserMessage svc u t o w = (Ok None, snd (shouldAiRespond svc u w)).
Proof.
  intros H. unfold processUserMessage, try_catch, bind at 1.
  destruct (shouldAiRespond svc u w) as [[b|e] w1]; simpl in H; [|done].
  injection H as ->. reflexivity.
Qed.

Lemma aiIntegration_suppressed s t o w :
  fst (shouldAiRespond svc (uid s) w) = Ok false ->
  aiIntegration svc s t o w = (Ok tt, snd (shouldAiRespond svc (uid s) w)).
Proof.
  intros H. unfold aiIntegration, try_catch, bind.
  by rewrite processUserMessage_suppressed.
Qed.

Lemma forwardAndPersist_ai_state_kept s p :
  preserves ai_state_kept (forwardAndPersist svc s p).
Proof. unfold_handlers. frame ltac:(intros ?; by repeat split). Qed.

(** C2.  A recorded takeover makes the AI-authority query answer [false]
    at the point where the handler of an inbound user message consults it
    (state collection connected, driver reliable); and whenever the query
    answers [false] there, [processUserMessage] returns [null], the AI
    integration block changes nothing but the clock, and all that is
    emitted, appended to a stored conversation or buffered while the
    message is handled is free of AI-authored messages. *)
Theorem takeover_suppresses_ai_reply s p w :
  let w1 := snd (forwardAndPersist svc s p w) in
  (mongo_reliable svc -> handlerCollections w = true ->
   ai_flag w (uid s) = false ->
   isAiAuthoritative svc w1 (uid s) = Ok false) /\
  (isAiAuthoritative svc w1 (uid s) = Ok false ->
   (forall o, fst (processUserMessage svc (uid s) (payloadText p) o w1) = Ok None) /\
   only_clock w1 (step svc w (UserMessage s p)) /\
   ai_free w (step svc w (UserMessage s p))).
Proof.
  intros w1. split.
  { intros Hrel Hc Hflag. unfold isAiAuthoritative.
    destruct (forwardAndPersist_ai_state_kept s p w) as (Hai & Hh & _).
    fold w1 in Hai, Hh.
    rewrite shouldAiRespond_eval by (done || congruence). simpl.
    unfold ai_flag in *. by rewrite Hai, Hflag. }
  intros Hq. unfold isAiAuthoritative in Hq.
  split; [|].
  { intros o. by rewrite processUserMessage_suppressed. }
  assert (only_clock w1 (step svc w (UserMessage s p))) as Hclock.
  { unfold step, handle, on_user_message, try_catch, bind. subst w1.
    destruct (forwardAndPersist svc s p w) as [[t|e] w1]; simpl in *.
    - rewrite aiIntegration_suppressed by done. simpl.
      apply shouldAiRespond_only_clock.
    - reflexivity. }
  split; [done|].
  etransitivity; [apply forwardAndPersist_ai_free | by apply only_clock_ai_free].
Qed.

End SuppressionFacts.

(** ** Handlers that cannot throw, and what handlers return *)

Section Totality.

Lemma never_throws_ret {A} (a : A) : never_throws (ret a).
Proof. intros w. by exists a. Qed.

Lemma never_throws_gets {A} (f : World -> A) : never_throws (gets f).
Proof. intros w. by eexists. Qed.

Lemma never_throws_modify f : never_throws (modify f).
Proof. intros w. by exists tt. Qed.

Lemma never_throws_bind {A B} (m : M A) (k : A -> M B) :
  never_throws m -> (forall a, never_throws (k a)) -> never_throws (bind m k).
Proof.
  intros Hm Hk w. unfold bind. destruct (Hm w) as [a Ha].
  destruct (m w) as [[a'|e] w1]; simpl in Ha; [|done]. apply Hk.
Qed.

Lemma never_throws_try_catch {A} (m : M A) (h : JsError -> M A) :
  (forall e, never_throws (h e)) -> never_throws (try_catch m h).
Proof.
  intros Hh w. unfold try_catch.
  destruct (m w) as [[a|e] w1]; [by exists a | apply Hh].
Qed.

Lemma never_throws_when b (m : M unit) :
  never_throws m -> never_throws (when b m).
Proof. intros Hm. destruct b; [done | apply never_throws_ret]. Qed.

Lemma returns_ret {A} (Q : A -> Prop) (a : A) : Q a -> returns Q (ret a).
Proof. intros Ha w a' [= <-]. done. Qed.

Lemma returns_throw {A} (Q : A -> Prop) e : returns Q (throw e).
Proof. intros w a' [=]. Qed.

Lemma returns_bind {A B} (Q : B -> Prop) (m : M A) (k : A -> M B) :
  (forall a, returns Q (k a)) -> returns Q (bind m k).
Proof.
  intros Hk w b. unfold bind. destruct (m w) as [[a|e] w1]; [apply Hk | done].
Qed.

Lemma returns_try_catch {A} (Q : A -> Prop) (m : M A) (h : JsError -> M A) :
  returns Q m -> (forall e, returns Q (h e)) -> returns Q (try_catch m h).
Proof.
  intros Hm Hh w a. unfold try_catch. specialize (Hm w).
  destruct (m w) as [[a'|e] w1]; simpl in *; [apply Hm | apply Hh].
Qed.

(** The state after a sequence whose first part does not throw. *)
Lemma bind_run {A B} (m : M A) (k : A -> M B) w :
  never_throws m ->
  exists a, m w = (Ok a, snd (m w)) /\ bind m k w = k a (snd (m w)).
Proof.
  intros Hm. destruct (Hm w) as [a Ha]. exists a. unfold bind.
  destruct (m w) as [[a'|e] w1]; simpl in *; [|done]. by injection Ha as ->.
Qed.

End Totality.

Ltac total_step :=
  lazymatch goal with
  | |- never_throws (bind _ _) => apply never_throws_bind; [|intros ?]
  | |- never_throws (try_catch _ _) => apply never_throws_try_catch; intros ?
  | |- never_throws (ret _) => apply never_throws_ret
  | |- never_throws (gets _) => apply never_throws_gets
  | |- never_throws (modify _) => apply never_throws_modify
  | |- never_throws (when _ _) => apply never_throws_when
  | |- never_throws (match ?x with _ => _ end) => destruct x
  end.

Ltac total := cbv zeta; repeat (total_step; cbv zeta).

Ltac returns_step :=
  lazymatch goal with
  | |- returns _ (bind _ _) => apply returns_bind; intros ?
  | |- returns _ (try_catch _ _) => apply returns_try_catch; [|intros ?]
  | |- returns _ (throw _) => apply returns_throw
  | |- returns _ (match ?x with _ => _ end) => destruct x
  end.

Section BlockFacts.
Context (svc : Services).

Lemma determineOwner_total s : never_throws (determineOwner svc s).
Proof. unfold determineOwner, bufferedMeta. total. Qed.

Lemma forwardToOwner_total s t o : never_throws (forwardToOwner svc s t o).
Proof. unfold forwardToOwner. total. Qed.

Lemma bufferAndPersist_total s t o : never_throws (bufferAndPersist svc s t o).
Proof. unfold bufferAndPersist, bufferPush. total. Qed.

(** The handler of a user's message runs its four blocks in sequence. *)
Lemma on_user_message_run s p w :
  exists o,
    fst (determineOwner svc s w) = Ok o /\
    step svc w (UserMessage s p)
    = snd (aiIntegration svc s (payloadText p) o
        (snd (bufferAndPersist svc s (payloadText p) o
           (snd (forwardToOwner svc s (payloadText p) o
              (snd (determineOwner svc s w))))))).
Proof.
  unfold step, handle, on_user_message, forwardAndPersist.
  destruct (bind_run (determineOwner svc s)
              (fun o => forwardToOwner svc s (payloadText p) o ;;
                        bufferAndPersist svc s (payloadText p) o ;; ret o) w
              (determineOwner_total s)) as (o & Ho & Hrun1).
  exists o. split; [by rewrite Ho|].
  set (w1 := snd (determineOwner svc s w)) in *.
  destruct (bind_run (forwardToOwner svc s (payloadText p) o)
              (fun _ => bufferAndPersist svc s (payloadText p) o ;; ret o) w1
              (forwardToOwner_total s _ o)) as ([] & _ & Hrun2).
  set (w2 := snd (forwardToOwner svc s (payloadText p) o w1)) in *.
  destruct (bind_run (bufferAndPersist svc s (payloadText p) o)
              (fun _ => ret o) w2 (bufferAndPersist_total s _ o))
    as ([] & _ & Hrun3).
  set (w3 := snd (bufferAndPersist svc s (payloadText p) o w2)) in *.
  unfold try_catch, bind at 1. rewrite Hrun1, Hrun2, Hrun3. unfold ret at 1.
  by destruct (aiIntegration svc s (payloadText p) o w3) as [[[]|e] w4].
Qed.

(** [processUserMessage] returns [null] or an AI-authored message. *)
Lemma processUserMessage_returns_ai u t o :
  returns (fun r => forall m, r = Some m -> ai_authored m = true)
    (processUserMessage svc u t o).
Proof.
  unfold processUserMessage.
  repeat (first [ apply returns_ret; by intros ? [= <-] | returns_step ]; cbv zeta).
Qed.

End BlockFacts.

(** ** Order and completeness of the stored user messages *)

Import Interleaving.

#[global] Instance user_texts_kept_preorder u : PreOrder (user_texts_kept u).
Proof.
  split.
  - intros w. by split.
  - intros w1 w2 w3 [? ?] [? ?]. split; congruence.
Qed.

Lemma texts_of_snoc l m :
  texts_of (l ++ [m]) = texts_of l ++ (if user_authored m then [text m] else []).
Proof.
  unfold texts_of. rewrite List.filter_app, map_app. simpl.
  by destruct (user_authored m).
Qed.

Lemma texts_of_snoc_not_user l m :
  user_authored m = false -> texts_of (l ++ [m]) = texts_of l.
Proof. intros H. by rewrite texts_of_snoc, H, app_nil_r. Qed.

Lemma ai_authored_not_user m : ai_authored m = true -> user_authored m = false.
Proof. unfold ai_authored, user_authored. by destruct (from m). Qed.

Ltac texts_side :=
  intros ?; simpl;
  first [ reflexivity
        | apply texts_of_snoc_not_user;
          first [ reflexivity | assumption | by apply ai_authored_not_user ] ].

Ltac update_side := first [ by left | right; texts_side ].

Ltac kept_side := intros ?; by split.

Section OrderFacts.
Context (svc : Services).

Lemma only_clock_user_texts_kept u w w' : only_clock w w' -> user_texts_kept u w w'.
Proof.
  intros (Hc&?&?&?&?&?&?&?&?). split; [|done].
  unfold user_texts, conv. by rewrite Hc.
Qed.

Lemma chats_upsertOne_user_texts_kept u u' upd :
  u' <> u \/ (forall d, texts_of (conversation (upd d)) = texts_of (conversation d)) ->
  preserves (user_texts_kept u) (Mongo.chats_upsertOne svc u' upd).
Proof.
  intros Hupd. unfold Mongo.chats_upsertOne.
  frame_with ltac:(clock_frame (only_clock_user_texts_kept u)) idtac.
  intros w. split; [|done]. unfold user_texts, conv. simpl.
  destruct (decide (u' = u)) as [->|Hne].
  - rewrite lookup_insert_eq. destruct Hupd as [?|Hupd]; [done|].
    rewrite Hupd. by destruct (chats w !! u).
  - by rewrite lookup_insert_ne.
Qed.

Lemma chats_updateOne_user_texts_kept u u' upd :
  u' <> u \/ (forall d, texts_of (conversation (upd d)) = texts_of (conversation d)) ->
  preserves (user_texts_kept u) (Mongo.chats_updateOne svc u' upd).
Proof.
  intros Hupd. unfold Mongo.chats_updateOne.
  frame_with ltac:(clock_frame (only_clock_user_texts_kept u)) idtac.
  intros w. split; [|done]. unfold user_texts, conv. simpl.
  destruct (decide (u' = u)) as [->|Hne].
  - rewrite lookup_alter_eq. destruct Hupd as [?|Hupd]; [done|].
    destruct (chats w !! u); simpl; [apply Hupd | done].
  - by rewrite lookup_alter_ne.
Qed.

Lemma aiState_upsertOne_user_texts_kept u u' b :
  preserves (user_texts_kept u) (Mongo.aiState_upsertOne svc u' b).
Proof.
  unfold Mongo.aiState_upsertOne.
  frame_with ltac:(clock_frame (only_clock_user_texts_kept u)) kept_side.
Qed.

Ltac texts_known u :=
  idtac;
  lazymatch goal with
  | |- preserves _ (Mongo.chats_upsertOne _ _ _) =>
      apply chats_upsertOne_user_texts_kept; update_side
  | |- preserves _ (Mongo.chats_updateOne _ _ _) =>
      apply chats_updateOne_user_texts_kept; update_side
  | |- preserves _ (Mongo.aiState_upsertOne _ _ _) =>
      apply aiState_upsertOne_user_texts_kept
  | |- _ => clock_frame (only_clock_user_texts_kept u)
  end.

Ltac texts_frame u := frame_with ltac:(texts_known u) kept_side.

Lemma determineOwner_user_texts_kept u s :
  preserves (user_texts_kept u) (determineOwner svc s).
Proof. unfold_router. texts_frame u. Qed.

Lemma forwardToOwner_user_texts_kept u s t o :
  preserves (user_texts_kept u) (forwardToOwner svc s t o).
Proof. unfold_router. texts_frame u. Qed.

Lemma processUserMessage_user_texts_kept u u' t o :
  preserves (user_texts_kept u) (processUserMessage svc u' t o).
Proof. unfold_router. texts_frame u. Qed.

Lemma aiIntegration_user_texts_kept u s t o :
  preserves (user_texts_kept u) (aiIntegration svc s t o).
Proof.
  unfold aiIntegration.
  apply preserves_try_catch; [exact _ | | intros; apply preserves_ret; exact _].
  eapply preserves_bind_returns;
    [exact _ | apply processUserMessage_user_texts_kept
    | apply processUserMessage_returns_ai |].
  intros [r|] Hr; [|apply preserves_ret; exact _].
  specialize (Hr r eq_refl).
  unfold_router. texts_frame u.
Qed.



(** With the collection connected and the driver reliable, persisting an
    inbound message appends its text to the user-authored part of the
    sender's stored conversation. *)
Lemma bufferAndPersist_appends s t o w :
  mongo_reliable svc -> chatsCollection w = true ->
  user_texts (snd (bufferAndPersist svc s t o w)) (uid s)
    = user_texts w (uid s) ++ [t] /\
  chatsCollection (snd (bufferAndPersist svc s t o w)) = true.
Proof.
  intros Hrel Hc.
  unfold bufferAndPersist, bufferPush, bind, gets, modify, try_catch, when.
  simpl. rewrite Hc. unfold Mongo.chats_upsertOne, bind.
  rewrite driver_ok by done. unfold modify. simpl. split; [|done].
  unfold user_texts, conv. simpl. rewrite lookup_insert_eq. simpl.
  rewrite texts_of_snoc. simpl. by destruct (chats w !! uid s).
Qed.

Lemma step_user_message_appends s p w :
  mongo_reliable svc -> chatsCollection w = true ->
  user_texts (step svc w (UserMessage s p)) (uid s)
    = user_texts w (uid s) ++ [payloadText p] /\
  chatsCollection (step svc w (UserMessage s p)) = true.
Proof.
  intros Hrel Hc. destruct (on_user_message_run svc s p w) as (o & _ & ->).
  set (w1 := snd (determineOwner svc s w)).
  set (w2 := snd (forwardToOwner svc s (payloadText p) o w1)).
  set (w3 := snd (bufferAndPersist svc s (payloadText p) o w2)).
  assert (user_texts_kept (uid s) w w1) as [Ht1 Hc1]
    by apply determineOwner_user_texts_kept.
  assert (user_texts_kept (uid s) w1 w2) as [Ht2 Hc2]
    by apply forwardToOwner_user_texts_kept.
  assert (user_texts w3 (uid s) = user_texts w2 (uid s) ++ [payloadText p] /\
          chatsCollection w3 = true) as [Ht3 Hc3]
    by (apply bufferAndPersist_appends; congruence).
  assert (user_texts_kept (uid s) w3
            (snd (aiIntegration svc s (payloadText p) o w3))) as [Ht4 Hc4]
    by apply aiIntegration_user_texts_kept.
  split; congruence.
Qed.



(** The owner resolution issues a request, the lookup of the stored
    document, exactly when [awaitsStoredOwner] says so; otherwise it
    resolves the owner from memory and leaves the state as it is. *)
Lemma determineOwner_awaits s w :
  snd (determineOwner svc s w)
  = if awaitsStoredOwner s w then set_clock S w else w.
Proof.
  unfold determineOwner, awaitsStoredOwner, buffered_owner, bufferedMeta,
    bind, gets, ret.
  destruct (ownerUserId s); [done|]. cbv beta iota.
  destruct (truthy (meta_ownerId _)); [done|]. cbv beta iota.
  destruct (chatsCollection w); [|done].
  unfold try_catch, Mongo.chats_findOne, bind, Mongo.driver, call, gets.
  destruct (mongo_fault svc (clock w)); [done|]. cbv beta iota.
  by destruct (chats (set_clock S w) !! uid s).
Qed.





End OrderFacts.



(** ** Routing of a user's message *)

#[global] Instance routed_only_to_preorder a u : PreOrder (routed_only_to a u).
Proof.
  split.
  - intros w. repeat split. reflexivity.
  - intros w1 w2 w3 (Ho1 & Hu1 & n1 & H1 & F1) (Ho2 & Hu2 & n2 & H2 & F2).
    split; [congruence|]. split; [congruence|].
    exists (n1 ++ n2). split; [by rewrite H2, H1, <- app_assoc|].
    apply Forall_app. split; [done|].
    eapply Forall_impl; [exact F2|].
    intros e. unfold routed. by rewrite Ho1, Hu1.
Qed.

Ltac routed_side :=
  intros ?; split; [done | split; [done | by apply outbox_grows_unchanged]].

#[global] Instance replies_only_preorder a u : PreOrder (replies_only a u).
Proof.
  split.
  - intros w. repeat split. reflexivity.
  - intros w1 w2 w3 (Ho1 & Hu1 & n1 & H1 & F1) (Ho2 & Hu2 & n2 & H2 & F2).
    split; [congruence|]. split; [congruence|].
    exists (n1 ++ n2). split; [by rewrite H2, H1, <- app_assoc|].
    apply Forall_app. split; [done|].
    eapply Forall_impl; [exact F2|].
    intros e. unfold ai_reply_for. by rewrite Ho1, Hu1.
Qed.

#[global] Instance silent_preorder : PreOrder silent.
Proof.
  split.
  - intros w. by repeat split.
  - intros w1 w2 w3 (?&?&?) (?&?&?). repeat split; congruence.
Qed.

Lemma only_clock_silent w w' : only_clock w w' -> silent w w'.
Proof. intros (?&?&?&?&?&?&?&?&?). by repeat split. Qed.

Lemma silent_replies_only a u w w' : silent w w' -> replies_only a u w w'.
Proof.
  intros (?&?&?). split; [done|]. split; [done|].
  by apply outbox_grows_unchanged.
Qed.

Ltac silent_side := intros ?; by repeat split.

Ltac replies_side :=
  intros ?; split; [done | split; [done | by apply outbox_grows_unchanged]].

Section RoutingFacts.
Context (svc : Services).

Lemma only_clock_routed a u w w' : only_clock w w' -> routed_only_to a u w w'.
Proof.
  intros (?&?&?&?&?&?&?&?&?).
  split; [done|]. split; [done|]. by apply outbox_grows_unchanged.
Qed.

Lemma emitted_since_grows w w' new :
  outbox w' = outbox w ++ new -> emitted_since w w' = new.
Proof. intros H. unfold emitted_since. by rewrite H, drop_app_length. Qed.

(** What [sendToOwnerOrBroadcast] does: one emit to the channel registered
    for the owner, none when no channel is registered for it. *)
Lemma sendToOwnerOrBroadcast_eval o ev p w :
  sendToOwnerOrBroadcast o ev p w
  = (Ok tt,
     match truthy o with
     | Some a =>
         match owners w !! a with
         | Some sid => set_outbox (fun ob => ob ++ [mkEmit sid ev p]) w
         | None => w
         end
     | None => w
     end).
Proof.
  unfold sendToOwnerOrBroadcast, try_catch, bind, gets, emit, modify, ret.
  destruct (truthy o) as [a|]; [|done]. by destruct (owners w !! a).
Qed.

Lemma truthy_Some_inv o a : truthy o = Some a -> o = Some a.
Proof. destruct o as [[|]|]; simpl; congruence. Qed.

Lemma sendToOwnerOrBroadcast_routed a u ev p :
  preserves (routed_only_to a u) (sendToOwnerOrBroadcast (Some a) ev p).
Proof.
  intros w. rewrite sendToOwnerOrBroadcast_eval. cbn [snd].
  destruct (truthy (Some a)) as [a'|] eqn:Ha; [|reflexivity].
  apply truthy_Some_inv in Ha. injection Ha as <-.
  destruct (owners w !! a) as [sid|] eqn:Hsid; [|reflexivity].
  split; [done|]. split; [done|].
  apply outbox_grows_emit. by left.
Qed.

Lemma sendToUser_routed a u r :
  ai_authored r = true ->
  preserves (routed_only_to a u) (sendToUser u (ChatPayload r)).
Proof.
  intros Hr w. unfold sendToUser, bind, gets, emit, modify, ret.
  destruct (truthy (users w !! u)) as [sid|] eqn:Hsid; [|reflexivity].
  apply truthy_Some_inv in Hsid.
  split; [done|]. split; [done|].
  apply outbox_grows_emit. right. split; [done|]. by exists r.
Qed.

Lemma chats_upsertOne_routed a u u' upd :
  preserves (routed_only_to a u) (Mongo.chats_upsertOne svc u' upd).
Proof.
  unfold Mongo.chats_upsertOne.
  frame_with ltac:(clock_frame (only_clock_routed a u)) routed_side.
Qed.

Lemma chats_updateOne_routed a u u' upd :
  preserves (routed_only_to a u) (Mongo.chats_updateOne svc u' upd).
Proof.
  unfold Mongo.chats_updateOne.
  frame_with ltac:(clock_frame (only_clock_routed a u)) routed_side.
Qed.

Ltac routed_known a u :=
  idtac;
  lazymatch goal with
  | |- preserves _ (Mongo.chats_upsertOne _ _ _) => apply chats_upsertOne_routed
  | |- preserves _ (Mongo.chats_updateOne _ _ _) => apply chats_updateOne_routed
  | |- preserves _ (sendToOwnerOrBroadcast (Some a) _ _) =>
      apply sendToOwnerOrBroadcast_routed
  | |- preserves _ (sendToUser u (ChatPayload _)) =>
      apply sendToUser_routed; assumption
  | |- _ => clock_frame (only_clock_routed a u)
  end.

Ltac unfold_message_blocks :=
  unfold forwardToOwner, bufferAndPersist, aiIntegration, bufferPush,
    bufferedMeta, processUserMessage.

Lemma determineOwner_routed a u s :
  preserves (routed_only_to a u) (determineOwner svc s).
Proof.
  unfold determineOwner, bufferedMeta.
  frame_with ltac:(routed_known a u) routed_side.
Qed.

Lemma forwardToOwner_routed a s t :
  preserves (routed_only_to a (uid s)) (forwardToOwner svc s t (Some a)).
Proof.
  unfold_message_blocks. frame_with ltac:(routed_known a (uid s)) routed_side.
Qed.

Lemma bufferAndPersist_routed a u s t o :
  preserves (routed_only_to a u) (bufferAndPersist svc s t o).
Proof.
  unfold_message_blocks. frame_with ltac:(routed_known a u) routed_side.
Qed.

Lemma processUserMessage_routed a u u' t o :
  preserves (routed_only_to a u) (processUserMessage svc u' t o).
Proof.
  unfold_message_blocks. frame_with ltac:(routed_known a u) routed_side.
Qed.

Lemma aiIntegration_routed a s t :
  preserves (routed_only_to a (uid s)) (aiIntegration svc s t (Some a)).
Proof.
  unfold aiIntegration.
  apply preserves_try_catch; [exact _ | | intros; apply preserves_ret; exact _].
  eapply preserves_bind_returns;
    [exact _ | apply processUserMessage_routed
    | apply processUserMessage_returns_ai |].
  intros [r|] Hr; [|apply preserves_ret; exact _].
  specialize (Hr r eq_refl).
  unfold_message_blocks. frame_with ltac:(routed_known a (uid s)) routed_side.
Qed.

Lemma truthy_idem o : truthy (truthy o) = truthy o.
Proof. by destruct o as [[|]|]. Qed.

Lemma ownerUserId_truthy s : truthy (ownerUserId s) = ownerUserId s.
Proof.
  unfold ownerUserId, or_else.
  destruct (truthy (query_ownerId s)) as [x|] eqn:Hq.
  - rewrite <- Hq. apply truthy_idem.
  - apply truthy_idem.
Qed.

(** The owner a socket resolves to is never the empty string. *)
Lemma determineOwner_truthy s : returns (fun o => truthy o = o) (determineOwner svc s).
Proof.
  intros w o. unfold determineOwner, bufferedMeta, bind, gets, ret, try_catch.
  pose proof (ownerUserId_truthy s) as Hq.
  destruct (ownerUserId s) as [q|]; simpl.
  - by intros [= <-].
  - destruct (truthy (meta_ownerId _)) as [m|] eqn:Hm; simpl.
    + intros [= <-]. rewrite <- Hm. apply truthy_idem.
    + destruct (chatsCollection w); simpl; [|by intros [= <-]].
      destruct (Mongo.chats_findOne svc (uid s) w) as [[[d|]|e] w1]; simpl;
        intros [= <-]; [apply truthy_idem | done | done].
Qed.

Lemma on_user_message_routed a s p w :
  fst (determineOwner svc s w) = Ok (Some a) ->
  routed_only_to a (uid s) w (step svc w (UserMessage s p)).
Proof.
  intros Hres. destruct (on_user_message_run svc s p w) as (o & Ho & ->).
  rewrite Hres in Ho. injection Ho as <-.
  etransitivity; [apply determineOwner_routed|].
  etransitivity; [apply forwardToOwner_routed|].
  etransitivity; [apply bufferAndPersist_routed|].
  apply aiIntegration_routed.
Qed.

(** What the forwarding block emits for a message resolved to owner [a]:
    the user's message, once, to the channel registered for [a]; nothing
    when no channel is registered for [a]. *)
Lemma forwardToOwner_delivers s t a w :
  truthy (Some a) = Some a ->
  exists now un ue up,
    owners (snd (forwardToOwner svc s t (Some a) w)) = owners w /\
    users (snd (forwardToOwner svc s t (Some a) w)) = users w /\
    outbox (snd (forwardToOwner svc s t (Some a) w))
    = outbox w ++
      match owners w !! a with
      | Some sid =>
          [mkEmit sid "message"
             (ForwardedPayload
                {| from := FromUser; text := t; ts := now;
                   msg_userId := Some (uid s); msg_ownerId := None;
                   contextUsed := None; sources := []; error := false |}
                un ue up)]
      | None => []
      end.
Proof.
  intros Ha.
  assert (exists meta w1,
    snd (forwardToOwner svc s t (Some a) w)
    = snd ((let! now := gets clock in
           sendToOwnerOrBroadcast (Some a) "message"
             (ForwardedPayload
                {| from := FromUser; text := t; ts := now;
                   msg_userId := Some (uid s); msg_ownerId := None;
                   contextUsed := None; sources := []; error := false |}
                (truthy (username meta)) (truthy (useremail meta))
                (truthy (userphone meta)))) w1) /\
    owners w1 = owners w /\ users w1 = users w /\ outbox w1 = outbox w)
    as (meta & w1 & -> & Ho & Hu & Hout).
  { unfold forwardToOwner, bufferedMeta, try_catch at 1, bind at 1, gets at 1.
    cbv beta iota. unfold bind at 1, gets at 1. cbv beta iota.
    set (meta := default no_meta (metadataBuffer w !! uid s)).
    assert (forall m w1, exists x,
      (let! now := gets clock in
       sendToOwnerOrBroadcast (Some a) "message"
         (ForwardedPayload
            {| from := FromUser; text := t; ts := now;
               msg_userId := Some (uid s); msg_ownerId := None;
               contextUsed := None; sources := []; error := false |}
            (truthy (username m)) (truthy (useremail m))
            (truthy (userphone m)))) w1 = (Ok tt, x)) as Hok.
    { intros m w1. unfold bind, gets. cbv beta iota.
      rewrite sendToOwnerOrBroadcast_eval. by eexists. }
    assert (exists m w1,
      match truthy (username meta), truthy (useremail meta),
            truthy (userphone meta), chatsCollection w with
      | None, None, None, true =>
          try!
            (let! doc := Mongo.chats_findOne svc (uid s) in
             match doc with
             | Some d =>
                 let loaded :=
                   mkMeta (truthy (doc_username d)) (truthy (doc_useremail d))
                          (truthy (doc_userphone d)) (truthy (doc_ownerId d)) in
                 modify (set_metadataBuffer <[uid s := loaded]>) ;;
                 ret loaded
             | None => ret meta
             end)
          catch! dbError => ret meta
      | _, _, _, _ => ret meta
      end w = (Ok m, w1) /\
      owners w1 = owners w /\ users w1 = users w /\ outbox w1 = outbox w)
      as (m & w1 & Hload & Hq).
    { destruct (truthy (username meta)); [by eexists _, _|].
      destruct (truthy (useremail meta)); [by eexists _, _|].
      destruct (truthy (userphone meta)); [by eexists _, _|].
      destruct (chatsCollection w); [|by eexists _, _].
      unfold try_catch, Mongo.chats_findOne, bind, Mongo.driver, call, gets.
      destruct (mongo_fault svc (clock w)); [by eexists _, _|].
      cbv beta iota. change (chats (set_clock S w)) with (chats w).
      destruct (chats w !! uid s); by eexists _, _. }
    exists m, w1. split; [|exact Hq].
    unfold bind at 1. cbv zeta in Hload. rewrite Hload.
    by destruct (Hok m w1) as [x ->]. }
  exists (clock w1). do 3 eexists.
  unfold bind, gets. cbv beta iota.
  rewrite sendToOwnerOrBroadcast_eval, Ha. cbn [snd]. rewrite Ho.
  destruct (owners w !! a); simpl; rewrite ?Ho, ?Hu, ?Hout, ?app_nil_r; done.
Qed.

Lemma only_clock_replies a u w w' : only_clock w w' -> replies_only a u w w'.
Proof. intros H. by apply silent_replies_only, only_clock_silent. Qed.

Lemma chats_upsertOne_silent u upd :
  preserves silent (Mongo.chats_upsertOne svc u upd).
Proof.
  unfold Mongo.chats_upsertOne.
  frame_with ltac:(clock_frame only_clock_silent) silent_side.
Qed.

(** Resolving the owner and storing the message emit nothing. *)
Lemma determineOwner_silent s : preserves silent (determineOwner svc s).
Proof.
  unfold determineOwner, bufferedMeta.
  frame_with ltac:(clock_frame only_clock_silent) silent_side.
Qed.

Lemma bufferAndPersist_silent s t o :
  preserves silent (bufferAndPersist svc s t o).
Proof.
  unfold bufferAndPersist, bufferPush.
  frame_with ltac:(first [ apply chats_upsertOne_silent
                         | clock_frame only_clock_silent ]) silent_side.
Qed.

Lemma sendToOwnerOrBroadcast_replies a u ev r :
  ai_authored r = true ->
  preserves (replies_only a u) (sendToOwnerOrBroadcast (Some a) ev (ChatPayload r)).
Proof.
  intros Hr w. rewrite sendToOwnerOrBroadcast_eval. cbn [snd].
  destruct (truthy (Some a)) as [a'|] eqn:Ha; [|reflexivity].
  apply truthy_Some_inv in Ha. injection Ha as <-.
  destruct (owners w !! a) as [sid|] eqn:Hsid; [|reflexivity].
  split; [done|]. split; [done|].
  apply outbox_grows_emit. split; [by left | by exists r].
Qed.

Lemma sendToUser_replies a u r :
  ai_authored r = true ->
  preserves (replies_only a u) (sendToUser u (ChatPayload r)).
Proof.
  intros Hr w. unfold sendToUser, bind, gets, emit, modify, ret.
  destruct (truthy (users w !! u)) as [sid|] eqn:Hsid; [|reflexivity].
  apply truthy_Some_inv in Hsid.
  split; [done|]. split; [done|].
  apply outbox_grows_emit. split; [by right | by exists r].
Qed.

Lemma chats_upsertOne_replies a u u' upd :
  preserves (replies_only a u) (Mongo.chats_upsertOne svc u' upd).
Proof.
  intros w. apply silent_replies_only, chats_upsertOne_silent.
Qed.

Lemma chats_updateOne_replies a u u' upd :
  preserves (replies_only a u) (Mongo.chats_updateOne svc u' upd).
Proof.
  unfold Mongo.chats_updateOne.
  frame_with ltac:(clock_frame (only_clock_replies a u)) replies_side.
Qed.

Ltac replies_known a u :=
  idtac;
  lazymatch goal with
  | |- preserves _ (Mongo.chats_upsertOne _ _ _) => apply chats_upsertOne_replies
  | |- preserves _ (Mongo.chats_updateOne _ _ _) => apply chats_updateOne_replies
  | |- preserves _ (sendToOwnerOrBroadcast (Some a) _ (ChatPayload _)) =>
      apply sendToOwnerOrBroadcast_replies; assumption
  | |- preserves _ (sendToUser u (ChatPayload _)) =>
      apply sendToUser_replies; assumption
  | |- _ => clock_frame (only_clock_replies a u)
  end.

Lemma processUserMessage_replies_only a u u' t o :
  preserves (replies_only a u) (processUserMessage svc u' t o).
Proof.
  unfold processUserMessage.
  frame_with ltac:(replies_known a u) replies_side.
Qed.

(** The AI block emits nothing but the reply, to the sender and to the
    owner. *)
Lemma aiIntegration_replies_only a s t :
  preserves (replies_only a (uid s)) (aiIntegration svc s t (Some a)).
Proof.
  unfold aiIntegration.
  apply preserves_try_catch; [exact _ | | intros; apply preserves_ret; exact _].
  eapply preserves_bind_returns;
    [exact _ | apply processUserMessage_replies_only
    | apply processUserMessage_returns_ai |].
  intros [r|] Hr; [|apply preserves_ret; exact _].
  specialize (Hr r eq_refl).
  unfold bufferPush. frame_with ltac:(replies_known a (uid s)) replies_side.
Qed.

(** What handling a user's message emits, the message being resolved to
    owner [a]: the message itself to the channel registered for [a], if
    there is one, and after it nothing but AI replies. *)
Lemma on_user_message_emits a s p w :
  fst (determineOwner svc s w) = Ok (Some a) ->
  exists now un ue up replies,
    emitted_since w (step svc w (UserMessage s p))
    = match owners w !! a with
      | Some sid =>
          [mkEmit sid "message"
             (ForwardedPayload
                {| from := FromUser; text := payloadText p; ts := now;
                   msg_userId := Some (uid s); msg_ownerId := None;
                   contextUsed := None; sources := []; error := false |}
                un ue up)]
      | None => []
      end ++ replies /\
    Forall (ai_reply_for a (uid s) w) replies.
Proof.
  intros Hres. destruct (on_user_message_run svc s p w) as (o & Ho & ->).
  rewrite Hres in Ho. injection Ho as <-.
  assert (truthy (Some a) = Some a) as Ha
    by exact (determineOwner_truthy s w (Some a) Hres).
  pose proof (determineOwner_silent s w) as (Ho1 & Hu1 & Hout1).
  set (w1 := snd (determineOwner svc s w)) in *.
  destruct (forwardToOwner_delivers s (payloadText p) a w1 Ha)
    as (now & un & ue & up & Ho2 & Hu2 & Hout2).
  set (w2 := snd (forwardToOwner svc s (payloadText p) (Some a) w1)) in *.
  pose proof (bufferAndPersist_silent s (payloadText p) (Some a) w2)
    as (Ho3 & Hu3 & Hout3).
  set (w3 := snd (bufferAndPersist svc s (payloadText p) (Some a) w2)) in *.
  destruct (aiIntegration_replies_only a s (payloadText p) w3)
    as (_ & _ & replies & Hout4 & Hall).
  exists now, un, ue, up, replies. split.
  - apply emitted_since_grows.
    rewrite Hout4, Hout3, Hout2, Hout1, Ho1. by rewrite <- app_assoc.
  - eapply Forall_impl; [exact Hall|]. intros e. unfold ai_reply_for.
    by rewrite Ho3, Ho2, Ho1, Hu3, Hu2, Hu1.
Qed.

(** C3.  For a user's message whose destination resolves to owner [a]:
    when a channel is registered for [a], the message is emitted to it,
    once and first, as a [message] event carrying the sender's text and
    user id, and whatever is emitted after it is an AI-authored reply going
    to that channel or to the sender's own; when no channel is registered
    for [a], the message is emitted to nobody, the only emits being such
    replies to the sender.  So every emit goes to the channel registered
    for [a] or is the AI reply to the sender, and a channel registered
    under another owner id, not being one of those two, receives nothing,
    even if it is the only owner channel there is.  With the store
    connected and reliable the message is appended to the sender's stored
    conversation whatever the registrations. *)
Theorem user_message_reaches_only_its_owner s p w a :
  fst (determineOwner svc s w) = Ok (Some a) ->
  (exists now un ue up replies,
     emitted_since w (step svc w (UserMessage s p))
     = match owners w !! a with
       | Some sid =>
           [mkEmit sid "message"
              (ForwardedPayload
                 {| from := FromUser; text := payloadText p; ts := now;
                    msg_userId := Some (uid s); msg_ownerId := None;
                    contextUsed := None; sources := []; error := false |}
                 un ue up)]
       | None => []
       end ++ replies /\
     Forall (ai_reply_for a (uid s) w) replies) /\
  Forall (routed a (uid s) w) (emitted_since w (step svc w (UserMessage s p))) /\
  (forall b sb,
     owners w !! b = Some sb -> owners w !! a <> Some sb ->
     users w !! uid s <> Some sb ->
     Forall (fun e => target e <> sb)
       (emitted_since w (step svc w (UserMessage s p)))) /\
  (forall ev pl,
     outbox (snd (sendToOwnerOrBroadcast (Some a) ev pl w))
     = outbox w ++ match owners w !! a with
                   | Some sid => [mkEmit sid ev pl]
                   | None => []
                   end) /\
  (owners w !! a = None ->
   Forall (ai_reply_to (users w !! uid s))
     (emitted_since w (step svc w (UserMessage s p)))) /\
  (mongo_reliable svc -> chatsCollection w = true ->
   user_texts (step svc w (UserMessage s p)) (uid s)
   = user_texts w (uid s) ++ [payloadText p]).
Proof.
  intros Hres.
  split; [by apply on_user_message_emits|].
  destruct (on_user_message_routed a s p w Hres) as (_ & _ & new & Hnew & Hall).
  rewrite (emitted_since_grows _ _ _ Hnew).
  assert (truthy (Some a) = Some a) as Ha.
  { pose proof (determineOwner_truthy s w (Some a) Hres) as Ht. exact Ht. }
  split; [done|]. split; [|split; [|split]].
  - intros b sb Hb Hna Hnu. eapply Forall_impl; [exact Hall|].
    intros e [He|[He _]] Heq; rewrite Heq in He; congruence.
  - intros ev pl. rewrite sendToOwnerOrBroadcast_eval, Ha. cbn [snd].
    destruct (owners w !! a); [done | by rewrite app_nil_r].
  - intros Hnone. eapply Forall_impl; [exact Hall|].
    intros e [He|He]; [congruence | done].
  - intros Hrel Hc. by apply step_user_message_appends.
Qed.

End RoutingFacts.

Lemma user_message_reaches_only_its_owner_witness :
  (exists now un ue up replies,
     emitted_since Demo.both_owners_connected
       (step Demo.no_namespace Demo.both_owners_connected
          (UserMessage Demo.visitor (Some "hello")))
     = [mkEmit "sock-acme" "message"
          (ForwardedPayload
             {| from := FromUser; text := "hello"; ts := now;
                msg_userId := Some "u1"; msg_ownerId := None;
                contextUsed := None; sources := []; error := false |}
             un ue up)] ++ replies /\
     Forall (ai_reply_for "acme" "u1" Demo.both_owners_connected) replies) /\
  Forall (fun e => target e <> "sock-globex")
    (emitted_since Demo.both_owners_connected
       (step Demo.no_namespace Demo.both_owners_connected
          (UserMessage Demo.visitor (Some "hello")))) /\
  Forall (fun e => target e <> "sock-globex")
    (emitted_since Demo.only_globex_connected
       (step Demo.no_namespace Demo.only_globex_connected
          (UserMessage Demo.visitor (Some "hello")))) /\
  user_texts
    (step Demo.no_namespace Demo.only_globex_connected
       (UserMessage Demo.visitor (Some "hello"))) "u1" = ["hello"].
Proof.
  destruct (user_message_reaches_only_its_owner Demo.no_namespace Demo.visitor
              (Some "hello") Demo.both_owners_connected "acme" eq_refl)
    as (Hsent & _ & Hother & _).
  destruct (user_message_reaches_only_its_owner Demo.no_namespace Demo.visitor
              (Some "hello") Demo.only_globex_connected "acme" eq_refl)
    as (_ & _ & Hother' & _ & _ & Hstored).
  split; [exact Hsent|]. split; [|split].
  - apply (Hother "globex" "sock-globex"); [reflexivity | discriminate | discriminate].
  - apply (Hother' "globex" "sock-globex"); [reflexivity | discriminate | discriminate].
  - apply Hstored; [intros t; reflexivity | reflexivity].
Defined.

Lemma takeover_suppresses_ai_reply_witness :
  isAiAuthoritative Demo.no_namespace
    (snd (forwardAndPersist Demo.no_namespace Demo.visitor (Some "hello")
            Demo.taken_over)) "u1" = Ok false /\
  only_clock
    (snd (forwardAndPersist Demo.no_namespace Demo.visitor (Some "hello")
            Demo.taken_over))
    (step Demo.no_namespace Demo.taken_over
       (UserMessage Demo.visitor (Some "hello"))) /\
  ai_free Demo.taken_over
    (step Demo.no_namespace Demo.taken_over
       (UserMessage Demo.visitor (Some "hello"))).
Proof.
  destruct (takeover_suppresses_ai_reply Demo.no_namespace Demo.visitor
              (Some "hello") Demo.taken_over) as [Hstate Hquiet].
  assert (isAiAuthoritative Demo.no_namespace
            (snd (forwardAndPersist Demo.no_namespace Demo.visitor (Some "hello")
                    Demo.taken_over)) "u1" = Ok false) as Hq.
  { apply Hstate; [intros t; reflexivity | reflexivity | reflexivity]. }
  split; [exact Hq|]. apply Hquiet in Hq as (_ & Hclock & Hfree). by split.
Defined.

(** ** The stored owner of a user *)

#[global] Instance owner_stays_preorder u t : PreOrder (owner_stays u t).
Proof.
  split.
  - intros w H. exact H.
  - intros w1 w2 w3 H12 H23 H. by apply H23, H12.
Qed.

Ltac owner_side := intros ? ?; assumption.

Ltac owner_update_side :=
  first [ by left
        | right; intros ? ?; simpl; first [ reflexivity | assumption ] ].

Section OwnerFacts.
Context (svc : Services).

Lemma only_clock_owner_stays u t w w' : only_clock w w' -> owner_stays u t w w'.
Proof.
  intros (Hc&_) Hs. unfold stored_owner in *. by rewrite Hc.
Qed.

Lemma chats_upsertOne_owner_stays u t u' upd :
  u' <> u \/ (forall d, doc_ownerId d = t -> doc_ownerId (upd d) = t) ->
  preserves (owner_stays u t) (Mongo.chats_upsertOne svc u' upd).
Proof.
  intros Hupd. unfold Mongo.chats_upsertOne.
  frame_with ltac:(clock_frame (only_clock_owner_stays u t)) idtac.
  intros w. unfold owner_stays, stored_owner. simpl.
  destruct (decide (u' = u)) as [->|Hne].
  - rewrite lookup_insert_eq. destruct Hupd as [?|Hupd]; [done|].
    intros H. apply Hupd. by destruct (chats w !! u).
  - by rewrite lookup_insert_ne.
Qed.

Lemma chats_updateOne_owner_stays u t u' upd :
  u' <> u \/ (forall d, doc_ownerId d = t -> doc_ownerId (upd d) = t) ->
  preserves (owner_stays u t) (Mongo.chats_updateOne svc u' upd).
Proof.
  intros Hupd. unfold Mongo.chats_updateOne.
  frame_with ltac:(clock_frame (only_clock_owner_stays u t)) idtac.
  intros w. unfold owner_stays, stored_owner. simpl.
  destruct (decide (u' = u)) as [->|Hne].
  - rewrite lookup_alter_eq. destruct Hupd as [?|Hupd]; [done|].
    destruct (chats w !! u); simpl; [apply Hupd | done].
  - by rewrite lookup_alter_ne.
Qed.

Ltac owner_known u t :=
  idtac;
  lazymatch goal with
  | |- preserves _ (Mongo.chats_upsertOne _ _ _) =>
      apply chats_upsertOne_owner_stays; owner_update_side
  | |- preserves _ (Mongo.chats_updateOne _ _ _) =>
      apply chats_updateOne_owner_stays; owner_update_side
  | |- _ => clock_frame (only_clock_owner_stays u t)
  end.

Ltac owner_frame u t := frame_with ltac:(owner_known u t) owner_side.

(** The AI integration block writes the resolved owner again, or nothing. *)
Lemma aiIntegration_owner_stays s x t :
  preserves (owner_stays (uid s) t) (aiIntegration svc s x t).
Proof. unfold_router. owner_frame (uid s) t. Qed.

(** Events of another user's socket leave the stored owner alone. *)
Lemma other_user_owner_stays u t s e :
  uid s <> u -> is_owner s = false ->
  e = Connect s \/ e = Disconnect s \/ (exists p, e = UserMessage s p) ->
  preserves (owner_stays u t) (handle svc e).
Proof.
  intros Hne Hrole [->|[->|[p ->]]]; unfold handle, on_connection, on_disconnect;
    rewrite ?Hrole; unfold_router; owner_frame u t.
Qed.

(** What [determineOwner] answers with the store connected and reliable. *)
Lemma determineOwner_eval s w :
  mongo_reliable svc -> chatsCollection w = true ->
  fst (determineOwner svc s w)
  = Ok (match ownerUserId s with
        | Some q => Some q
        | None =>
            match buffered_owner w (uid s) with
            | Some m => Some m
            | None => truthy (stored_owner w (uid s))
            end
        end).
Proof.
  intros Hrel Hc.
  unfold determineOwner, bufferedMeta, bind, gets, ret, try_catch, buffered_owner.
  destruct (ownerUserId s) as [q|]; simpl; [done|].
  destruct (truthy (meta_ownerId _)) as [m|]; simpl; [done|].
  rewrite Hc. unfold Mongo.chats_findOne, bind. rewrite driver_ok by done.
  unfold gets, stored_owner. simpl. by destruct (chats w !! uid s).
Qed.

Lemma determineOwner_resolved s w o :
  mongo_reliable svc -> chatsCollection w = true ->
  stored_owner w (uid s) = Some o -> o <> "" ->
  fst (determineOwner svc s w) = Ok (Some (resolved_owner s w o)).
Proof.
  intros Hrel Hc Ho Hne. rewrite determineOwner_eval by done.
  unfold resolved_owner. destruct (ownerUserId s); [done|].
  destruct (buffered_owner w (uid s)); [done|].
  rewrite Ho. by destruct o.
Qed.

Lemma bufferAndPersist_stores_owner s x t w :
  mongo_reliable svc -> chatsCollection w = true ->
  stored_owner (snd (bufferAndPersist svc s x t w)) (uid s) = t.
Proof.
  intros Hrel Hc.
  unfold bufferAndPersist, bufferPush, bind, gets, modify, try_catch, when.
  simpl. rewrite Hc. unfold Mongo.chats_upsertOne, bind.
  rewrite driver_ok by done. unfold modify, stored_owner. simpl.
  by rewrite lookup_insert_eq.
Qed.

Lemma user_message_stores_resolved_owner s p w o :
  mongo_reliable svc -> chatsCollection w = true ->
  stored_owner w (uid s) = Some o -> o <> "" ->
  stored_owner (step svc w (UserMessage s p)) (uid s)
  = Some (resolved_owner s w o).
Proof.
  intros Hrel Hc Ho Hne.
  destruct (on_user_message_run svc s p w) as (t & Ht & ->).
  rewrite (determineOwner_resolved s w o) in Ht by done. injection Ht as <-.
  apply aiIntegration_owner_stays.
  apply bufferAndPersist_stores_owner; [done|].
  destruct (forwardToOwner_user_texts_kept svc "" s (payloadText p)
              (Some (resolved_owner s w o)) (snd (determineOwner svc s w)))
    as [_ ->].
  destruct (determineOwner_user_texts_kept svc "" s w) as [_ ->]. done.
Qed.

Lemma user_connection_stores_resolved_owner s w o :
  mongo_reliable svc -> chatsCollection w = true -> is_owner s = false ->
  stored_owner w (uid s) = Some o -> o <> "" ->
  stored_owner (step svc w (Connect s)) (uid s) = Some (resolved_owner s w o).
Proof.
  intros Hrel Hc Hrole Ho Hne.
  unfold step, handle, on_connection. rewrite Hrole.
  unfold on_user_connection, bind at 1 2, modify. cbn [fst snd].
  set (w0 := set_messagesBuffer _ (set_users _ w)).
  assert (chatsCollection w0 = true) as Hc0 by done.
  assert (stored_owner w0 (uid s) = Some o) as Ho0 by done.
  assert (resolved_owner s w0 o = resolved_owner s w o) as Hres by done.
  pose proof (determineOwner_resolved s w0 o Hrel Hc0 Ho0 Hne) as Ht.
  pose proof (determineOwner_user_texts_kept svc "" s w0) as [_ Hc1].
  unfold bind at 1.
  destruct (determineOwner svc s w0) as [[t|e] w1]; simpl in Ht, Hc1; [|done].
  injection Ht as ->. rewrite Hres.
  unfold bind at 1, gets. cbn [fst snd]. rewrite Hc1, Hc. unfold when.
  unfold bind, try_catch, Mongo.chats_upsertOne, bind.
  rewrite driver_ok by done. unfold modify.
  rewrite sendToOwnerOrBroadcast_eval.
  unfold stored_owner.
  destruct (truthy (Some (resolved_owner s w o))) as [a|]; cbn [snd];
    [destruct (owners _ !! a)|]; simpl; by rewrite lookup_insert_eq.
Qed.

(** C4 (amended).  For a user whose stored document names a non-empty
    owner [o], with the store connected and reliable: a connect and a
    message of that user's socket store the owner the socket resolves to,
    which is the owner the connection declares if it declares one, else the
    owner buffered in memory for the user if there is one, else [o]; hence
    the stored owner stays [o] when neither names another owner, and is
    overwritten when one does.  Connects, messages and disconnects of other
    users' sockets leave it as it is. *)
Theorem stored_owner_follows_resolution s w o :
  mongo_reliable svc -> chatsCollection w = true -> is_owner s = false ->
  stored_owner w (uid s) = Some o -> o <> "" ->
  stored_owner (step svc w (Connect s)) (uid s) = Some (resolved_owner s w o) /\
  (forall p,
     stored_owner (step svc w (UserMessage s p)) (uid s)
     = Some (resolved_owner s w o)) /\
  ((ownerUserId s = None \/ ownerUserId s = Some o) ->
   (buffered_owner w (uid s) = None \/ buffered_owner w (uid s) = Some o) ->
   resolved_owner s w o = o) /\
  (forall s' e,
     uid s' <> uid s -> is_owner s' = false ->
     e = Connect s' \/ e = Disconnect s' \/ (exists p, e = UserMessage s' p) ->
     stored_owner (step svc w e) (uid s) = Some o).
Proof.
  intros Hrel Hc Hrole Ho Hne.
  split; [by apply user_connection_stores_resolved_owner|].
  split; [intros p; by apply user_message_stores_resolved_owner|].
  split.
  - intros [Hq|Hq] [Hb|Hb]; unfold resolved_owner; rewrite Hq, ?Hb; done.
  - intros s' e Hs' Hrole' He.
    by apply (other_user_owner_stays (uid s) (Some o) s' e Hs' Hrole' He w).
Qed.

End OwnerFacts.

Lemma stored_owner_follows_resolution_witness :
  stored_owner
    (step Demo.no_namespace Demo.visitor_connected
       (UserMessage Demo.visitor (Some "hello"))) "u1" = Some "acme" /\
  stored_owner
    (step Demo.no_namespace Demo.visitor_connected (Disconnect Demo.anonymous))
    "u1" = Some "acme".
Proof.
  destruct (stored_owner_follows_resolution Demo.no_namespace Demo.visitor
              Demo.visitor_connected "acme")
    as (_ & Hmsg & _ & Hother);
    [intros t; reflexivity | reflexivity | reflexivity | reflexivity
    | discriminate |].
  split.
  - apply (Hmsg (Some "hello"%string)).
  - apply (Hother Demo.anonymous); [discriminate | reflexivity | by right; left].
Defined.

(** C4 as stated does not hold.  After the visitor connected naming owner
    [acme] and a metadata update reassigned them to [globex], a message of
    the visitor puts [acme] back in the stored document; and a visitor who
    connects and disconnects without anything else happening is left with
    no stored owner at all. *)
Lemma stored_owner_changes_on_message_and_disconnect :
  stored_owner
    (run Demo.no_namespace Demo.started
       [Connect Demo.visitor; SetMetadata (Some "u1") Demo.to_globex]) "u1"
    = Some "globex" /\
  stored_owner
    (run Demo.no_namespace Demo.started
       [Connect Demo.visitor; SetMetadata (Some "u1") Demo.to_globex;
        UserMessage Demo.visitor (Some "hello")]) "u1"
    = Some "acme" /\
  stored_owner (run Demo.no_namespace Demo.started [Connect Demo.visitor]) "u1"
    = Some "acme" /\
  stored_owner
    (run Demo.no_namespace Demo.started
       [Connect Demo.visitor; Disconnect Demo.visitor]) "u1"
    = None.
Proof. repeat split; reflexivity. Qed.

(** * Further properties *)

(** ** Chunking with any window *)

Section AnyWindow.
Context {char : Type}.
Implicit Types (text : list char) (cs ov : Z).

Lemma window_chunk text cs ov (k : nat) c :
  0 <= ov < cs ->
  map (fun r => slice text r.1 r.2)
      (ranges_from (iterations text cs ov 0) text cs ov 0) !! k = Some c ->
  c = take (Z.to_nat cs) (drop (k * Z.to_nat (cs - ov)) text) /\
  (k * Z.to_nat (cs - ov) < length text)%nat.
Proof.
  intros Hw Hk. change map with (@fmap list _) in Hk.
  rewrite list_lookup_fmap in Hk.
  destruct (ranges_from _ _ _ _ _ !! k) as [r|] eqn:Hr; [|done].
  pose proof (lookup_lt_Some _ _ _ Hr) as Hlen.
  rewrite ranges_from_length in Hlen.
  pose proof (iterations_start_lt text cs ov k ltac:(lia) Hlen) as Hlt.
  apply ranges_from_lookup in Hr. subst r. simpl in Hk. injection Hk as <-.
  unfold len in Hlt.
  assert (Z.of_nat (k * Z.to_nat (cs - ov)) = Z.of_nat k * (cs - ov)) as Hmul.
  { rewrite Nat2Z.inj_mul, Z2Nat.id by lia. done. }
  split; [|lia].
  replace (0 + Z.of_nat k * (cs - ov)) with (Z.of_nat k * (cs - ov)) by lia.
  rewrite slice_window by (unfold len; lia).
  by rewrite <- Hmul, Nat2Z.id.
Qed.

(** X1.  For every window with [0 <= overlap < chunkSize] the chunker
    returns [ceil (L / (chunkSize - overlap))] chunks on a text of length
    [L]; chunk [k] holds the (at most) [chunkSize] characters from index
    [k * (chunkSize - overlap)] on and is not empty; and the text is read
    back by concatenating the first [chunkSize - overlap] characters of
    each chunk, so no character is lost between two chunks. *)
Theorem splitTextIntoChunks_covers_for_any_window text cs ov :
  0 <= ov < cs ->
  exists chunks,
    (forall fuel, (length text < fuel)%nat ->
       splitTextIntoChunks_fuel fuel text cs ov = Some chunks) /\
    Z.of_nat (length chunks) = (len text + (cs - ov) - 1) / (cs - ov) /\
    (forall (k : nat) c, chunks !! k = Some c ->
       c = take (Z.to_nat cs) (drop (k * Z.to_nat (cs - ov)) text) /\
       (0 < length c <= Z.to_nat cs)%nat) /\
    concat (take (Z.to_nat (cs - ov)) <$> chunks) = text.
Proof.
  intros Hw. assert (0 < cs - ov) as Hstep by lia.
  set (n := iterations text cs ov 0).
  set (ranges := ranges_from n text cs ov 0).
  exists (map (fun r => slice text r.1 r.2) ranges).
  pose proof (len_nonneg text) as Hlen0.
  assert (0 <= (len text + (cs - ov) - 1) / (cs - ov)) as Hdiv0.
  { apply Z.div_pos; lia. }
  assert (Z.of_nat n = (len text + (cs - ov) - 1) / (cs - ov)) as Hn.
  { unfold n, iterations.
    replace (len text - 0 + (cs - ov) - 1) with (len text + (cs - ov) - 1) by lia.
    lia. }
  split; [|split; [|split]].
  - intros fuel Hfuel.
    pose proof (iterations_bound text cs ov 0 Hstep) as Hb. unfold len in Hb.
    destruct (split_fuel_closed text cs ov fuel Hstep) as [_ Hc]; [lia|].
    exact Hc.
  - rewrite length_map. unfold ranges. rewrite ranges_from_length. exact Hn.
  - intros k c Hk. apply window_chunk in Hk as [-> Hlt]; [|done].
    split; [done|]. rewrite length_take, length_drop. lia.
  - set (stride := Z.to_nat (cs - ov)).
    transitivity
      (concat (map (fun k : nat => take stride (drop (stride * k) text)) (seq 0 n))).
    + f_equal. apply list_eq. intros k.
      change map with (@fmap list _). rewrite !list_lookup_fmap.
      destruct (decide (k < n)%nat) as [Hk|Hk].
      * rewrite lookup_seq_lt by lia.
        assert (is_Some ((fun r => slice text r.1 r.2) <$> ranges !! k)) as [c Hc].
        { rewrite <- list_lookup_fmap. apply lookup_lt_is_Some.
          rewrite length_fmap. unfold ranges. rewrite ranges_from_length. lia. }
        rewrite Hc. rewrite <- list_lookup_fmap in Hc.
        apply window_chunk in Hc as [-> _]; [|done].
        cbn -[Nat.mul Z.mul Z.of_nat Z.to_nat take drop].
        rewrite take_take. f_equal. f_equal.
        -- unfold stride. lia.
        -- f_equal. unfold stride. lia.
      * rewrite lookup_seq_ge by lia.
        rewrite (lookup_ge_None_2 ranges); [done|].
        unfold ranges. rewrite ranges_from_length. lia.
    + apply concat_strides. unfold len in *.
      apply Nat2Z.inj_le. rewrite Nat2Z.inj_mul. unfold stride.
      rewrite Z2Nat.id by lia. rewrite Hn.
      pose proof (Z.mod_pos_bound (Z.of_nat (length text) + (cs - ov) - 1) (cs - ov) Hstep).
      pose proof (Z.div_mod (Z.of_nat (length text) + (cs - ov) - 1) (cs - ov) ltac:(lia)).
      nia.
Qed.

End AnyWindow.

Lemma splitTextIntoChunks_covers_for_any_window_witness :
  exists chunks,
    splitTextIntoChunks_fuel 8 [1%nat; 2%nat; 3%nat; 4%nat; 5%nat; 6%nat; 7%nat] 3 1
      = Some chunks /\
    Z.of_nat (length chunks) = 4 /\
    concat (take 2 <$> chunks) = [1%nat; 2%nat; 3%nat; 4%nat; 5%nat; 6%nat; 7%nat].
Proof.
  destruct (splitTextIntoChunks_covers_for_any_window
              [1%nat; 2%nat; 3%nat; 4%nat; 5%nat; 6%nat; 7%nat] 3 1)
    as (chunks & Hf & Hn & _ & Hcat); [lia|].
  exists chunks. split; [apply Hf; simpl; lia|]. split; [exact Hn | exact Hcat].
Defined.

(** ** Namespaces, retrieval and generation: outcomes *)

Section ResponderOutcomes.
Context (svc : Services).

(** X2.  [getOwnerResourceStats] hides a missing collection and nothing
    else: it throws exactly when the vector store fails with an error that
    is not a not-found one, and then throws that error; a not-found error
    becomes the zero statistics with the ["No resources stored yet"]
    note; and statistics without the note are the counts the store
    reported.  Every result names the owner and the collection
    [owner_<ownerId>_knowledge]. *)
Theorem getOwnerResourceStats_hides_only_missing_collection ownerId w :
  let answer := qdrant_getCollection svc (clock w) (collectionName ownerId) in
  let outcome := fst (getOwnerResourceStats svc ownerId w) in
  (forall e, outcome = Throw e <-> answer = Throw e /\ not_found e = false) /\
  (forall e, answer = Throw e -> not_found e = true ->
     outcome = Ok (mkResourceStats ownerId (collectionName ownerId) 0 0
                     (Some "No resources stored yet"))) /\
  (forall r, outcome = Ok r ->
     stats_ownerId r = ownerId /\
     stats_collectionName r = collectionName ownerId /\
     (stats_message r = None ->
      exists info, answer = Ok info /\ pointsCount r = points_count info /\
                   vectorsCount r = vectors_count info)).
Proof.
  intros answer outcome. subst answer outcome.
  unfold getOwnerResourceStats, try_catch, bind, call, ret, throw, not_found.
  destruct (qdrant_getCollection svc (clock w) (collectionName ownerId))
    as [info|e0]; simpl.
  - split; [|split].
    + intros e. split; [done | by intros [? _]].
    + done.
    + intros r [= <-]. simpl. repeat split. intros _. by exists info.
  - destruct (includes (message e0) "Not found") eqn:Hnf; simpl.
    + split; [|split].
      * intros e. split; [done|]. intros [[= <-] ?]. congruence.
      * done.
      * intros r [= <-]. simpl. repeat split. done.
    + split; [|split].
      * intros e. split; [by intros [= <-] | by intros [[= <-] _]].
      * intros e [= <-]. congruence.
      * done.
Qed.

Lemma generateEmbedding_no_key q w :
  truthy (OPENAI_API_KEY svc) = None ->
  generateEmbedding svc q w
  = (Throw (mkError "OPENAI_API_KEY not set in environment variables"), w).
Proof. intros Hk. unfold generateEmbedding. by rewrite Hk. Qed.

Lemma searchOwnerKnowledge_no_key ownerId q limit w :
  truthy (OPENAI_API_KEY svc) = None ->
  searchOwnerKnowledge svc ownerId q limit w
  = (Throw (mkError "OPENAI_API_KEY not set in environment variables"), w).
Proof.
  intros Hk. unfold searchOwnerKnowledge, try_catch, bind.
  by rewrite generateEmbedding_no_key.
Qed.

Lemma getAiResponseWithContext_no_key ownerId msg hist w :
  truthy (OPENAI_API_KEY svc) = None ->
  getAiResponseWithContext svc ownerId msg hist w
  = (Throw (mkError "Failed to generate AI response"), set_clock S (set_clock S w)).
Proof.
  intros Hk. unfold getAiResponseWithContext, try_catch at 1, bind at 1.
  rewrite getOwnerWebsite_eval. unfold bind at 1.
  rewrite searchOwnerKnowledge_no_key by done.
  unfold try_catch, bind. rewrite getOwnerWebsite_eval.
  by rewrite generateAiResponse_no_key.
Qed.

(** X3.  Without an API key nothing is requested from the embedding or the
    completion service: [generateEmbedding] and [generateAiResponse] throw
    the configuration error at once, the state untouched;
    [searchOwnerKnowledge] lets that error through (it is not a not-found
    one); and [getAiResponseWithContext], after its two website lookups,
    throws ["Failed to generate AI response"]. *)
Theorem missing_api_key_fails_before_any_request ownerId q limit hist w :
  truthy (OPENAI_API_KEY svc) = None ->
  let no_key := mkError "OPENAI_API_KEY not set in environment variables" in
  generateEmbedding svc q w = (Throw no_key, w) /\
  (forall ctx site, generateAiResponse svc q ctx hist site w = (Throw no_key, w)) /\
  searchOwnerKnowledge svc ownerId q limit w = (Throw no_key, w) /\
  not_found no_key = false /\
  getAiResponseWithContext svc ownerId q hist w
  = (Throw (mkError "Failed to generate AI response"), set_clock S (set_clock S w)).
Proof.
  intros Hk no_key.
  split; [by apply generateEmbedding_no_key|].
  split; [intros; by apply generateAiResponse_no_key|].
  split; [by apply searchOwnerKnowledge_no_key|].
  split; [reflexivity|].
  by apply getAiResponseWithContext_no_key.
Qed.

(** X4.  Whatever the services do, [getAiResponseWithContext] throws no
    error other than ["Failed to generate AI response"], and what it
    returns is consistent: either it carries no error note and
    [contextUsed] tells whether there are sources, or it carries the
    fallback note, [contextUsed = false] and no sources. *)
Theorem getAiResponseWithContext_outcomes ownerId msg hist w :
  let outcome := fst (getAiResponseWithContext svc ownerId msg hist w) in
  (forall e, outcome = Throw e -> e = mkError "Failed to generate AI response") /\
  (forall r, outcome = Ok r ->
     (res_error r = None /\
      res_contextUsed r = negb (Nat.eqb (length (res_sources r)) 0)) \/
     (res_error r = Some fallback_flag /\
      res_contextUsed r = false /\ res_sources r = [])).
Proof.
  intros outcome.
  assert (match outcome with
          | Throw e => e = mkError "Failed to generate AI response"
          | Ok r =>
              (res_error r = None /\
               res_contextUsed r = negb (Nat.eqb (length (res_sources r)) 0)) \/
              (res_error r = Some fallback_flag /\
               res_contextUsed r = false /\ res_sources r = [])
          end) as H.
  { subst outcome.
    unfold getAiResponseWithContext, try_catch at 1, bind at 1.
    rewrite getOwnerWebsite_eval. unfold bind at 1.
    assert (forall w1,
      match fst ((try!
            (let! websiteUrl := getOwnerWebsite svc ownerId in
             let! fallbackResponse :=
               generateAiResponse svc msg [] hist websiteUrl in
             ret {| response := fallbackResponse; res_contextUsed := false;
                    res_websiteUrl := websiteUrl; res_sources := [];
                    res_error :=
                      Some "Could not access knowledge base, using general AI knowledge" |})
           catch! fallbackError => throw (mkError "Failed to generate AI response")) w1)
      with
      | Throw e => e = mkError "Failed to generate AI response"
      | Ok r => res_error r = Some fallback_flag /\
                res_contextUsed r = false /\ res_sources r = []
      end) as Hfb.
    { intros w1. unfold try_catch, bind. rewrite getOwnerWebsite_eval.
      by destruct (generateAiResponse svc msg [] hist _ _) as [[text|e'] w2]. }
    destruct (searchOwnerKnowledge svc ownerId msg 3 (set_clock S w))
      as [[context|e1] w2].
    - unfold bind at 1.
      destruct (generateAiResponse svc msg context hist _ w2) as [[text|e2] w3].
      + simpl. left. split; [done|]. by rewrite length_map.
      + specialize (Hfb w3). destruct (fst _); [by right | done].
    - specialize (Hfb w2). destruct (fst _); [by right | done]. }
  destruct outcome as [r|e]; split.
  - done.
  - by intros r' [= <-].
  - by intros e' [= <-].
  - done.
Qed.

(** X5.  The regular path of [getAiResponseWithContext]: when the
    embedding, the vector search and the completion answer, the result
    carries the completion obtained for the prompt built from the hits,
    without error note; [contextUsed] is [true] exactly when the search
    returned a hit; and [sources] lists the hits in the order of the
    search, each with its file name, source type and score. *)
Theorem retrieved_context_is_reported ownerId msg hist w v hits reply :
  api_key_set svc ->
  let site := website_at svc ownerId (clock w) in
  openai_embeddings svc (1 + clock w) msg = Ok v ->
  qdrant_search svc (2 + clock w) (collectionName ownerId) v 3 = Ok hits ->
  openai_chat svc (3 + clock w)
    (buildMessages msg (map to_context hits) hist site) = Ok reply ->
  fst (getAiResponseWithContext svc ownerId msg hist w)
  = Ok {| response := reply;
          res_contextUsed := match hits with [] => false | _ => true end;
          res_websiteUrl := site;
          res_sources :=
            map (fun hit => mkSource (payload_fileName hit) (payload_sourceType hit)
                              (score hit)) hits;
          res_error := None |}.
Proof.
  intros Hkey site Hv Hhits Hreply.
  unfold getAiResponseWithContext, try_catch at 1, bind at 1.
  rewrite getOwnerWebsite_eval. unfold bind at 1.
  rewrite searchOwnerKnowledge_eval by assumption. simpl clock.
  change (S (clock w)) with (1 + clock w)%nat. rewrite Hv.
  change (S (1 + clock w)) with (2 + clock w)%nat. rewrite Hhits.
  unfold bind at 1. rewrite generateAiResponse_eval by assumption. simpl clock.
  change (S (S (S (clock w)))) with (3 + clock w)%nat.
  fold site. rewrite Hreply. simpl. f_equal. f_equal.
  - rewrite length_map. by destruct hits.
  - change map with (@fmap list _). by rewrite <- list_fmap_compose.
Qed.

(** X6.  The prompt sent to the completion service: the system message
    comes first and the user's message last; in between are the last ten
    messages of the history at most, in order, a user-authored one as a
    [user] turn and any other as an [assistant] turn, each with its text;
    no other turn has the role [system]. *)
Theorem buildMessages_prompt_shape msg ctx hist site :
  let turns := buildMessages msg ctx hist site in
  let kept := Nat.min 10 (length hist) in
  let skipped := (length hist - kept)%nat in
  length turns = (2 + kept)%nat /\
  turns !! 0%nat = Some (systemMessage ctx site) /\
  turns !! (1 + kept)%nat = Some {| role := user; content := msg |} /\
  (forall i : nat, (i < kept)%nat ->
     exists m, hist !! (skipped + i)%nat = Some m /\
       turns !! (1 + i)%nat
       = Some {| role := if user_authored m then user else assistant;
                 content := text m |}).
Proof.
  intros turns kept skipped. subst turns. unfold buildMessages, slice_last.
  replace (length hist - 10)%nat with skipped by (unfold skipped, kept; lia).
  assert (length (drop skipped hist) = kept) as Hlen.
  { rewrite length_drop. unfold skipped, kept. lia. }
  split; [|split; [|split]].
  - simpl. rewrite length_app, length_map, Hlen. simpl. lia.
  - done.
  - simpl. rewrite lookup_app_r by (rewrite length_map; lia).
    by rewrite length_map, Hlen, Nat.sub_diag.
  - intros i Hi.
    assert (is_Some (hist !! (skipped + i)%nat)) as [m Hm].
    { apply lookup_lt_is_Some. unfold skipped, kept in *. lia. }
    exists m. split; [done|]. simpl.
    rewrite lookup_app_l by (rewrite length_map; lia).
    change map with (@fmap list _). rewrite list_lookup_fmap, lookup_drop, Hm.
    simpl. unfold historyTurn, user_authored. by destruct (from m).
Qed.

End ResponderOutcomes.

Lemma missing_api_key_fails_before_any_request_witness :
  truthy (OPENAI_API_KEY Samples.no_key) = None /\
  fst (getAiResponseWithContext Samples.no_key "acme" "What are your prices?" []
         Demo.started)
  = Throw (mkError "Failed to generate AI response").
Proof.
  split; [reflexivity|].
  destruct (missing_api_key_fails_before_any_request Samples.no_key "acme"
              "What are your prices?" 3%nat [] Demo.started eq_refl)
    as (_ & _ & _ & _ & H).
  by rewrite H.
Defined.

Lemma retrieved_context_is_reported_witness :
  exists r,
    fst (getAiResponseWithContext Samples.with_knowledge "acme"
           "What are your prices?" [] Demo.started) = Ok r /\
    res_contextUsed r = true /\
    map fileName (res_sources r) = [Some "pricing.pdf"; Some "faq.txt"].
Proof.
  eexists. split.
  - apply (retrieved_context_is_reported Samples.with_knowledge "acme"
             "What are your prices?" [] Demo.started []
             [Samples.pricing; Samples.faq] "Plans start at 10 dollars.");
      [by eexists | reflexivity | reflexivity | reflexivity].
  - split; reflexivity.
Defined.

(** ** The AI takeover state under failures *)

Section HandlerOutcomes.
Context (svc : Services).

Lemma driver_fault w e :
  mongo_fault svc (clock w) = Some e ->
  Mongo.driver svc w = (Throw e, set_clock S w).
Proof. intros H. unfold Mongo.driver, call. by rewrite H. Qed.

(** X7.  The AI-authority query fails open: without the state collection
    handle, or when the lookup fails, it answers that the AI is active,
    whatever takeover has been recorded. *)
Theorem shouldAiRespond_fails_open u w :
  handlerCollections w = false \/ is_Some (mongo_fault svc (clock w)) ->
  fst (shouldAiRespond svc u w) = Ok true.
Proof.
  intros [Hc|[e He]].
  - by rewrite shouldAiRespond_uninitialised.
  - unfold shouldAiRespond, bind at 1, gets.
    destruct (handlerCollections w); [|done]. simpl.
    unfold try_catch, Mongo.aiState_findOne, bind.
    by rewrite (driver_fault w e).
Qed.

(** A write of the AI state that cannot be recorded: the call returns
    and the records are as before. *)
Lemma setAiState_unrecorded u b w :
  handlerCollections w = false \/ is_Some (mongo_fault svc (clock w)) ->
  exists w1, setAiState svc u b w = (Ok tt, w1) /\ ai_state_kept w w1.
Proof.
  intros Hfail. unfold setAiState, bind, gets, ret.
  destruct Hfail as [Hc|[e He]].
  - rewrite Hc. simpl. eexists. split; [done|]. by repeat split.
  - destruct (handlerCollections w); simpl;
      [|eexists; split; [done|]; by repeat split].
    unfold try_catch, Mongo.aiState_upsertOne, bind.
    rewrite (driver_fault w e) by done. simpl.
    eexists. split; [done|]. by repeat split.
Qed.

(** X8.  A takeover that cannot be written is lost without notice: when
    the state collection handle is missing, or the driver fails on the
    write, [setAiState] still returns normally and no record changes, and
    so the handler of the owner's message leaves every takeover record as
    it was. *)
Theorem takeover_is_lost_when_the_write_fails s p t u b w :
  handlerCollections w = false \/ is_Some (mongo_fault svc (clock w)) ->
  fst (setAiState svc u b w) = Ok tt /\
  ai_chat_state (snd (setAiState svc u b w)) = ai_chat_state w /\
  ai_chat_state (step svc w (OwnerMessage s p t)) = ai_chat_state w.
Proof.
  intros Hfail.
  assert (forall u b, exists w1,
            setAiState svc u b w = (Ok tt, w1) /\ ai_state_kept w w1) as Hset
    by (intros; by apply setAiState_unrecorded).
  destruct (Hset u b) as (w1 & Hw1 & Hai & _).
  split; [by rewrite Hw1|]. split; [by rewrite Hw1|].
  clear w1 Hw1 Hai.
  unfold step, handle, on_owner_message.
  destruct (truthy p) as [u'|]; [|done].
  unfold try_catch at 1, bind at 1, try_catch at 1.
  unfold handleAdminMessage, deactivateAiForUser.
  destruct (Hset u' false) as (w1 & -> & Hai & _).
  pose proof (deliverOwnerMessage_ai_state_kept svc s u' t w1) as (Hai' & _).
  destruct (deliverOwnerMessage svc s u' t w1) as [[[]|e] w2]; simpl in *;
    congruence.
Qed.

(** X9.  [getConversationHistory] never throws, and what it returns is an
    end piece of the stored conversation of the user.  With the collection
    handle there and the driver not failing it is the last [limit] messages
    for a positive [limit], so at most [limit] of them, and the whole
    conversation for [limit = 0], which is what [slice(-0)] gives; it is
    empty when the handle is missing or the lookup fails. *)
Theorem getConversationHistory_is_a_suffix u limit w :
  (exists history,
     fst (getConversationHistory svc u limit w) = Ok history /\
     history `suffix_of` conv w u /\
     ((0 < limit)%nat -> (length history <= limit)%nat)) /\
  (mongo_reliable svc -> handlerCollections w = true ->
   fst (getConversationHistory svc u limit w)
   = Ok (if Nat.eqb limit 0 then conv w u
         else drop (length (conv w u) - limit) (conv w u))) /\
  (handlerCollections w = false \/ is_Some (mongo_fault svc (clock w)) ->
   fst (getConversationHistory svc u limit w) = Ok []).
Proof.
  assert (forall l : list Message,
    slice_last limit l
    = if Nat.eqb limit 0 then l else drop (length l - limit) l) as Hdef.
  { intros l. by destruct limit. }
  assert (forall l : list Message,
    slice_last limit l `suffix_of` l /\
    ((0 < limit)%nat -> (length (slice_last limit l) <= limit)%nat))
    as Hslice.
  { intros l. rewrite Hdef. destruct limit as [|n]; simpl.
    - split; [done | lia].
    - split; [apply suffix_drop | rewrite length_drop; lia]. }
  assert (fst (getConversationHistory svc u limit w)
          = if handlerCollections w then
              match mongo_fault svc (clock w) with
              | Some _ => Ok []
              | None => Ok (slice_last limit (conv w u))
              end
            else Ok []) as ->.
  { unfold getConversationHistory, bind, gets, conv, ret.
    destruct (handlerCollections w); [|done]. simpl.
    unfold try_catch, Mongo.chats_findOne, bind, Mongo.driver, call, gets.
    destruct (mongo_fault svc (clock w)); [done|]. simpl.
    destruct (chats w !! u); [done|]. by destruct limit. }
  destruct (handlerCollections w) eqn:Hc.
  - destruct (mongo_fault svc (clock w)) as [e|] eqn:Hf.
    + split; [|split].
      * exists []. split; [done|]. split; [apply suffix_nil | simpl; lia].
      * intros Hr. by rewrite Hr in Hf.
      * done.
    + split; [|split].
      * eexists. split; [done|]. apply Hslice.
      * intros _ _. by rewrite Hdef.
      * intros [|[? ?]]; done.
  - split; [|split]; [|done|done].
    exists []. split; [done|]. split; [apply suffix_nil | simpl; lia].
Qed.

(** X10.  The state a client reads back through [getAiStateInfo] is the
    one last written for the user (state collection connected, driver
    reliable): after an owner's takeover it reports the AI inactive with
    status ["Admin has taken over"], after a reset active with status
    ["AI is responding"]; the takeover or reset of another user does not
    show. *)
Theorem getAiStateInfo_reads_back_last_write u w :
  mongo_reliable svc -> handlerCollections w = true ->
  fst (getAiStateInfo svc u (snd (handleAdminMessage svc u w)))
  = Ok (mkAiStateInfo u false "Admin has taken over") /\
  fst (getAiStateInfo svc u (snd (resetAiForUser svc u w)))
  = Ok (mkAiStateInfo u true "AI is responding") /\
  (forall u' b, u' <> u ->
     fst (getAiStateInfo svc u (snd (setAiState svc u' b w)))
     = fst (getAiStateInfo svc u w)).
Proof.
  intros Hrel Hc.
  assert (forall w0, handlerCollections w0 = true ->
    fst (getAiStateInfo svc u w0)
    = Ok (mkAiStateInfo u (ai_flag w0 u)
            (if ai_flag w0 u then "AI is responding" else "Admin has taken over")))
    as Hinfo.
  { intros w0 Hc0. unfold getAiStateInfo, bind.
    by rewrite shouldAiRespond_eval. }
  unfold handleAdminMessage, resetAiForUser, deactivateAiForUser, activateAiForUser.
  split; [|split].
  - rewrite setAiState_eval by done. rewrite Hinfo by done.
    unfold ai_flag. simpl. by rewrite lookup_insert_eq.
  - rewrite setAiState_eval by done. rewrite Hinfo by done.
    unfold ai_flag. simpl. by rewrite lookup_insert_eq.
  - intros u' b Hne. rewrite setAiState_eval by done.
    rewrite !Hinfo by done. unfold ai_flag. simpl.
    by rewrite lookup_insert_ne.
Qed.

(** The block of [processUserMessage] inside its [try]: when it throws,
    only the clock has moved; a message it returns is an AI reply to the
    user without error flag. *)
Lemma processUserMessage_block u t o w :
  match
    (let! aiShouldRespond := shouldAiRespond svc u in
     if negb aiShouldRespond then ret None
     else
       let! conversationHistory := getConversationHistory svc u 10 in
       let! aiResult :=
         match truthy o with
         | Some o =>
             getAiResponseWithContext svc o t conversationHistory
         | None =>
             let! response :=
               generateAiResponse svc t [] conversationHistory None in
             ret (mkAiResult response false None [] None)
         end in
       let! chatsCollection := gets handlerCollections in
       when chatsCollection
         (let! now := gets clock in
          Mongo.chats_updateOne svc u
            (Mongo.push
               {| from := FromAi; text := response aiResult; ts := now;
                  msg_userId := None; msg_ownerId := None;
                  contextUsed := Some (res_contextUsed aiResult);
                  sources := res_sources aiResult;
                  error := false |})) ;;
       let! now := gets clock in
       ret (Some {| from := FromAi; text := response aiResult; ts := now;
                    msg_userId := Some u; msg_ownerId := None;
                    contextUsed := Some (res_contextUsed aiResult);
                    sources := res_sources aiResult;
                    error := false |})) w
  with
  | (Throw _, w') => only_clock w w'
  | (Ok None, w') => only_clock w w'
  | (Ok (Some m), _) =>
      from m = FromAi /\ msg_userId m = Some u /\ msg_ownerId m = None /\
      error m = false /\ is_Some (contextUsed m)
  end.
Proof.
  unfold bind at 1.
  pose proof (shouldAiRespond_only_clock svc u w) as H1.
  destruct (shouldAiRespond svc u w) as [[b|e] w1]; simpl in H1; [|done].
  destruct b; simpl; [|done].
  unfold bind at 1.
  pose proof (getConversationHistory_only_clock svc u 10 w1) as H2.
  destruct (getConversationHistory svc u 10 w1) as [[hist|e] w2]; simpl in H2;
    [|by etransitivity].
  assert (only_clock w w2) as H12 by (by etransitivity).
  unfold bind at 1.
  set (gen := match truthy o with
              | Some o0 => getAiResponseWithContext svc o0 t hist
              | None => _
              end).
  assert (preserves only_clock gen) as Hgen.
  { subst gen. destruct (truthy o).
    - apply getAiResponseWithContext_only_clock.
    - apply preserves_bind; [exact _ | apply generateAiResponse_only_clock |].
      intros ?. apply preserves_ret. exact _. }
  specialize (Hgen w2).
  destruct (gen w2) as [[r|e] w3]; simpl in Hgen; [|by etransitivity].
  assert (only_clock w w3) as H13 by (by etransitivity).
  unfold bind at 1, gets at 1.
  destruct (handlerCollections w3); simpl.
  - unfold bind at 1, bind at 1, gets at 1, Mongo.chats_updateOne, bind at 1.
    unfold Mongo.driver, call.
    destruct (mongo_fault svc (clock w3)); simpl.
    + etransitivity; [exact H13 | by repeat split].
    + by repeat split.
  - by repeat split.
Qed.

(** X11.  [processUserMessage] never throws.  What it returns is [null]
    or an AI-authored message addressed to the user; a message flagged
    [error] is the apology, carries no sources, and then nothing but the
    clock has changed: no reply was stored. *)
Theorem processUserMessage_never_throws u t o w :
  exists r,
    fst (processUserMessage svc u t o w) = Ok r /\
    forall m, r = Some m ->
      from m = FromAi /\ msg_userId m = Some u /\ msg_ownerId m = None /\
      (error m = true ->
       text m = apology /\ sources m = [] /\ contextUsed m = None /\
       only_clock w (snd (processUserMessage svc u t o w))).
Proof.
  unfold processUserMessage, try_catch.
  pose proof (processUserMessage_block u t o w) as H.
  match goal with
  | H : match ?blk with _ => _ end |- _ => destruct blk as [[[m|]|e] w1]
  end; simpl.
  - exists (Some m). split; [done|]. intros m' [= <-].
    destruct H as (? & ? & ? & Herr & _). repeat split; try done; congruence.
  - exists None. split; [done|]. done.
  - eexists. split; [reflexivity|]. intros m [= <-]. simpl.
    do 3 (split; [done|]). intros _. do 3 (split; [done|]). exact H.
Qed.

(** X12.  Without an API key, whenever the AI is to answer, the reply of
    [processUserMessage] is the apology flagged [error], whether or not
    the message was resolved to an owner. *)
Theorem missing_api_key_yields_the_apology u t o w :
  truthy (OPENAI_API_KEY svc) = None ->
  fst (shouldAiRespond svc u w) = Ok true ->
  exists now,
    fst (processUserMessage svc u t o w)
    = Ok (Some {| from := FromAi; text := apology; ts := now;
                  msg_userId := Some u; msg_ownerId := None;
                  contextUsed := None; sources := []; error := true |}).
Proof.
  intros Hk Hai. unfold processUserMessage, try_catch, bind at 1.
  destruct (shouldAiRespond svc u w) as [[b|e] w1]; simpl in Hai; [|done].
  injection Hai as ->. simpl.
  unfold bind at 1.
  destruct (getConversationHistory svc u 10 w1) as [[hist|e] w2];
    [|by eexists].
  unfold bind at 1.
  destruct (truthy o) as [o'|].
  - rewrite getAiResponseWithContext_no_key by done. by eexists.
  - unfold bind at 1. rewrite generateAiResponse_no_key by done. by eexists.
Qed.

End HandlerOutcomes.

Lemma shouldAiRespond_fails_open_witness :
  ai_flag Demo.taken_over "u1" = false /\
  fst (shouldAiRespond Samples.mongo_down "u1" Demo.taken_over) = Ok true.
Proof.
  split; [reflexivity|].
  apply (shouldAiRespond_fails_open Samples.mongo_down "u1" Demo.taken_over).
  right. by eexists.
Defined.

Lemma takeover_is_lost_when_the_write_fails_witness :
  ai_chat_state
    (step Samples.mongo_down Demo.visitor_connected
       (OwnerMessage Demo.acme (Some "u1") "I am here"))
  = ai_chat_state Demo.visitor_connected.
Proof.
  apply (takeover_is_lost_when_the_write_fails Samples.mongo_down Demo.acme
           (Some "u1") "I am here" "u1" false Demo.visitor_connected).
  right. by eexists.
Defined.

Lemma getAiStateInfo_reads_back_last_write_witness :
  fst (getAiStateInfo Demo.no_namespace "u1"
         (snd (handleAdminMessage Demo.no_namespace "u1" Demo.started)))
  = Ok (mkAiStateInfo "u1" false "Admin has taken over").
Proof.
  apply (getAiStateInfo_reads_back_last_write Demo.no_namespace "u1" Demo.started);
    [by intros ? | reflexivity].
Defined.

Lemma missing_api_key_yields_the_apology_witness :
  exists m,
    fst (processUserMessage Samples.no_key "u1" "What are your prices?"
           (Some "acme") Demo.started) = Ok (Some m) /\
    text m = apology /\ error m = true.
Proof.
  destruct (missing_api_key_yields_the_apology Samples.no_key "u1"
              "What are your prices?" (Some "acme") Demo.started eq_refl eq_refl)
    as [now H].
  eexists. split; [exact H|]. split; reflexivity.
Defined.

(** ** The registries of connected owners and users *)

Import Registry.

#[global] Instance only_emits_preorder : PreOrder only_emits.
Proof.
  split.
  - intros w. by repeat split.
  - intros w1 w2 w3 (?&?&?&?&?&?&?&?) (?&?&?&?&?&?&?&?).
    repeat split; congruence.
Qed.

#[global] Instance messages_kept_preorder : PreOrder messages_kept.
Proof.
  split.
  - intros w. by repeat split.
  - intros w1 w2 w3 (?&?&?&?&?&?&?) (?&?&?&?&?&?&?).
    repeat split; congruence.
Qed.

#[global] Instance user_kept_preorder u : PreOrder (user_kept u).
Proof.
  split.
  - intros w. by repeat split.
  - intros w1 w2 w3 (?&?&?&?&?) (?&?&?&?&?). repeat split; congruence.
Qed.

Lemma only_clock_only_emits w w' : only_clock w w' -> only_emits w w'.
Proof. intros (?&?&?&?&?&?&?&?&?). by repeat split. Qed.

Lemma only_emits_messages_kept w w' : only_emits w w' -> messages_kept w w'.
Proof. intros (?&?&?&?&?&?&?&?). by repeat split. Qed.

Ltac emits_side := intros ?; by repeat split.

Section RegistryFacts.
Context (svc : Services).

Lemma determineOwner_only_clock s : preserves only_clock (determineOwner svc s).
Proof. unfold_handlers. frame ltac:(intros ?; by repeat split). Qed.

Lemma sendToOwnerOrBroadcast_only_emits o ev p :
  preserves only_emits (sendToOwnerOrBroadcast o ev p).
Proof. unfold_handlers. frame emits_side. Qed.

Lemma sendToUser_only_emits u p : preserves only_emits (sendToUser u p).
Proof. unfold_handlers. frame emits_side. Qed.

Lemma sendToUser_eval u p w :
  sendToUser u p w
  = (Ok tt,
     match truthy (users w !! u) with
     | Some sid => set_outbox (fun ob => ob ++ [mkEmit sid "message" p]) w
     | None => w
     end).
Proof.
  unfold sendToUser, bind, gets, emit, modify, ret.
  by destruct (truthy (users w !! u)).
Qed.

Lemma forwardToOwner_messages_kept s t o :
  preserves messages_kept (forwardToOwner svc s t o).
Proof. unfold_handlers. frame emits_side. Qed.

Lemma step_owner_connect s o w :
  is_owner s = true -> ownerUserId s = Some o ->
  step svc w (Connect s) = set_owners <[o := socket_id s]> w.
Proof.
  intros Hrole Ho. unfold step, handle, on_connection, on_owner_connection.
  by rewrite Hrole, Ho.
Qed.

Lemma step_owner_disconnect s o w :
  is_owner s = true -> ownerUserId s = Some o ->
  step svc w (Disconnect s)
  = match owners w !! o with
    | Some sid => if String.eqb sid (socket_id s) then set_owners (delete o) w else w
    | None => w
    end.
Proof.
  intros Hrole Ho. unfold step, handle, on_disconnect, on_owner_disconnect.
  rewrite Hrole, Ho. unfold bind, gets. simpl.
  destruct (owners w !! o) as [sid|]; [|done].
  by destruct (String.eqb sid (socket_id s)).
Qed.

(** X13.  The registry of owners keeps one channel per owner id, the one
    that connected last: a new connection of owner [o] takes the place of
    the registered one; when the superseded socket disconnects afterwards
    the newer registration stays; when the registered socket itself
    disconnects, the owner is unregistered; and the registrations of the
    other owners are never touched. *)
Theorem latest_owner_connection_wins s1 s2 o w :
  is_owner s1 = true -> is_owner s2 = true ->
  ownerUserId s1 = Some o -> ownerUserId s2 = Some o ->
  socket_id s1 <> socket_id s2 ->
  owners (step svc w (Connect s2)) !! o = Some (socket_id s2) /\
  owners (run svc w [Connect s2; Disconnect s1]) !! o = Some (socket_id s2) /\
  owners (run svc w [Connect s2; Disconnect s2]) !! o = None /\
  (forall o' trace, o' <> o ->
     Forall (fun e => e = Connect s1 \/ e = Connect s2 \/
                      e = Disconnect s1 \/ e = Disconnect s2) trace ->
     owners (run svc w trace) !! o' = owners w !! o').
Proof.
  intros Hr1 Hr2 Ho1 Ho2 Hne.
  split; [|split; [|split]].
  - rewrite (step_owner_connect s2 o) by done. simpl. by rewrite lookup_insert_eq.
  - simpl. rewrite (step_owner_connect s2 o) by done.
    rewrite (step_owner_disconnect s1 o) by done. simpl.
    rewrite lookup_insert_eq.
    destruct (String.eqb_spec (socket_id s2) (socket_id s1)) as [Heq|_]; [congruence|].
    simpl. by rewrite lookup_insert_eq.
  - simpl. rewrite (step_owner_connect s2 o) by done.
    rewrite (step_owner_disconnect s2 o) by done. simpl.
    rewrite lookup_insert_eq, String.eqb_refl. simpl. by rewrite lookup_delete_eq.
  - intros o' trace Hne'. revert w.
    induction trace as [|e trace IH]; intros w Htrace; [done|].
    apply Forall_cons in Htrace as [He Htrace]. simpl.
    rewrite IH by done.
    assert (forall s, is_owner s = true -> ownerUserId s = Some o ->
              owners (step svc w (Connect s)) !! o' = owners w !! o' /\
              owners (step svc w (Disconnect s)) !! o' = owners w !! o') as Hstep.
    { intros s Hr Ho. rewrite (step_owner_connect s o), (step_owner_disconnect s o)
        by done.
      split; [simpl; by rewrite lookup_insert_ne|].
      destruct (owners w !! o) as [sid|]; [|done].
      destruct (String.eqb sid (socket_id s)); [|done].
      simpl. by rewrite lookup_delete_ne. }
    destruct He as [-> | [-> | [-> | ->]]];
      first [ by apply (Hstep s1) | by apply (Hstep s2) ].
Qed.

(** The disconnect handler of a user socket, block by block: the user is
    unregistered, the owner notified (only emits), the buffered contact
    data persisted, and the two buffers of the user dropped. *)
Lemma user_disconnect_effect s w :
  is_owner s = false ->
  let u := uid s in
  let meta := default no_meta (metadataBuffer w !! u) in
  let ownerId :=
    match truthy (meta_ownerId meta) with
    | Some o => Some o
    | None => lastOwnerId (rev (buffered w u))
    end in
  exists w2,
    step svc w (Disconnect s)
    = set_metadataBuffer (delete u) (set_messagesBuffer (delete u) w2) /\
    users w2 = delete u (users w) /\
    (mongo_reliable svc -> chatsCollection w = true ->
     exists now created,
       chats w2 !! u
       = Some (Mongo.set_lastSeen now
                 (Mongo.set_meta
                    (mkMeta (truthy (username meta)) (truthy (useremail meta))
                            (truthy (userphone meta)) (truthy ownerId))
                    (default (Mongo.new_doc created) (chats w !! u))))).
Proof.
  intros Hrole u meta ownerId.
  unfold step, handle, on_disconnect. rewrite Hrole. unfold on_user_disconnect.
  unfold bind at 1, modify at 1. cbv beta iota.
  unfold bind at 1, gets at 1. cbv beta iota.
  set (w0 := set_users (delete (uid s)) w).
  change (chatsCollection w0) with (chatsCollection w).
  match goal with
  | |- context [bind ?B ?k w0] =>
      assert (never_throws B) as HBt by (unfold bufferedMeta; total);
      assert (preserves only_emits B) as HBe
        by (unfold_handlers; frame emits_side);
      destruct (bind_run B k w0 HBt) as ([] & _ & ->);
      specialize (HBe w0); set (w1 := snd (B w0)) in *
  end.
  destruct HBe as (Hchats & _ & Husers & _ & _ & Hbuf & Hmeta & _).
  match goal with
  | |- context [bind ?C ?k w1] =>
      assert (never_throws C) as HCt by (unfold bufferedMeta; total);
      assert (preserves (fun w w' => users w' = users w) C) as HCu;
      [|destruct (bind_run C k w1 HCt) as ([] & _ & ->);
        specialize (HCu w1); set (w2 := snd (C w1)) in *]
  end.
  { assert (PreOrder (fun w w' : World => users w' = users w)).
    { split; [by intros ? | intros ? ? ? ? ?; congruence]. }
    unfold_handlers. frame ltac:(by intros ?). }
  exists w2. split; [done|]. split; [by rewrite HCu, Husers|].
  intros Hrel Hc. subst w2.
  unfold try_catch, bind at 1, gets at 1. cbv beta iota.
  unfold bind at 1, bufferedMeta, gets at 1. cbv beta iota.
  rewrite Hc. unfold when, bind at 1, gets at 1. cbv beta iota.
  unfold Mongo.chats_upsertOne, bind. rewrite driver_ok by done.
  unfold modify. simpl. rewrite lookup_insert_eq.
  rewrite Hchats, Hbuf, Hmeta. simpl.
  by eexists _, _.
Qed.

(** X14.  When a user socket disconnects the user is unregistered and the
    message and metadata buffers of the user are dropped, whichever socket
    is registered for the user at that moment: after a second connection
    of the same user, the disconnect of either socket leaves the user
    without a registered channel. *)
Theorem user_disconnect_unregisters_the_user s w :
  is_owner s = false ->
  let w' := step svc w (Disconnect s) in
  users w' !! uid s = None /\
  messagesBuffer w' !! uid s = None /\
  metadataBuffer w' !! uid s = None /\
  (forall s2, is_owner s2 = false -> uid s2 = uid s ->
     users (run svc w [Connect s2; Disconnect s]) !! uid s = None).
Proof.
  intros Hrole.
  assert (forall w0, users (step svc w0 (Disconnect s)) !! uid s = None /\
            messagesBuffer (step svc w0 (Disconnect s)) !! uid s = None /\
            metadataBuffer (step svc w0 (Disconnect s)) !! uid s = None) as H.
  { intros w0. destruct (user_disconnect_effect s w0 Hrole) as (w2 & -> & Hu & _).
    simpl. rewrite Hu, !lookup_delete_eq. done. }
  intros w'. subst w'. destruct (H w) as (? & ? & ?).
  repeat split; try done.
  intros s2 _ _. simpl. apply H.
Qed.

(** X15.  When a user socket disconnects with the store connected and the
    driver reliable, the contact fields of the stored document are
    overwritten from the in-memory buffers alone: name, email and phone
    become the buffered ones ([null] where the buffer has none); the
    owner becomes the buffered owner, else the owner id of the last
    owner-authored message in the message buffer, else [null]; the stored
    conversation is untouched and [lastSeen] is set. *)
Theorem user_disconnect_persists_the_buffers s w :
  is_owner s = false -> mongo_reliable svc -> chatsCollection w = true ->
  let u := uid s in
  let meta := default no_meta (metadataBuffer w !! u) in
  exists d,
    chats (step svc w (Disconnect s)) !! u = Some d /\
    doc_username d = truthy (username meta) /\
    doc_useremail d = truthy (useremail meta) /\
    doc_userphone d = truthy (userphone meta) /\
    doc_ownerId d
    = match buffered_owner w u with
      | Some o => Some o
      | None => lastOwnerId (rev (buffered w u))
      end /\
    conversation d = conv w u /\
    is_Some (lastSeen d).
Proof.
  intros Hrole Hrel Hc u meta.
  destruct (user_disconnect_effect s w Hrole) as (w2 & -> & _ & Hdoc).
  destruct (Hdoc Hrel Hc) as (now & created & Hd).
  eexists. split; [exact Hd|]. simpl.
  split; [done|]. split; [done|]. split; [done|].
  split; [|split; [|by eexists]].
  - unfold buffered_owner. fold u. fold meta.
    destruct (truthy (meta_ownerId meta)) as [o|] eqn:Ho.
    + rewrite <- Ho. apply truthy_idem.
    + clear. induction (rev (buffered w u)) as [|m l IH]; [done|].
      simpl. destruct (from m); try exact IH.
      destruct (truthy (msg_ownerId m)) as [o|] eqn:Ho; [|exact IH].
      rewrite <- Ho. apply truthy_idem.
  - unfold conv. subst u. by destruct (chats w !! uid s).
Qed.

End RegistryFacts.

Lemma latest_owner_connection_wins_witness :
  owners (run Demo.no_namespace Demo.started
            [Connect Samples.acme_again; Disconnect Demo.acme]) !! "acme"
  = Some "sock-acme-2".
Proof.
  apply (latest_owner_connection_wins Demo.no_namespace Demo.acme
           Samples.acme_again "acme" Demo.started);
    [reflexivity | reflexivity | reflexivity | reflexivity | discriminate].
Defined.

Lemma user_disconnect_unregisters_the_user_witness :
  users (run Demo.no_namespace Demo.started
           [Connect Samples.visitor_again; Disconnect Demo.visitor]) !! "u1"
  = None.
Proof.
  destruct (user_disconnect_unregisters_the_user Demo.no_namespace Demo.visitor
              Demo.started eq_refl) as (_ & _ & _ & H).
  apply (H Samples.visitor_again); reflexivity.
Defined.

Lemma user_disconnect_persists_the_buffers_witness :
  exists d,
    chats (step Demo.no_namespace Demo.visitor_connected
             (Disconnect Demo.visitor)) !! "u1" = Some d /\
    doc_ownerId d = None /\ conversation d = [].
Proof.
  destruct (user_disconnect_persists_the_buffers Demo.no_namespace Demo.visitor
              Demo.visitor_connected)
    as (d & Hd & _ & _ & _ & Ho & Hc & _).
  - reflexivity.
  - by intros ?.
  - reflexivity.
  - exists d. split; [exact Hd|]. split; [exact Ho | exact Hc].
Defined.

#[global] Instance only_stores_preorder : PreOrder only_stores.
Proof.
  split.
  - intros w. by repeat split.
  - intros w1 w2 w3 (?&?&?&?&?&?&?) (?&?&?&?&?&?&?). repeat split; congruence.
Qed.

Lemma only_clock_only_stores w w' : only_clock w w' -> only_stores w w'.
Proof. intros (?&?&?&?&?&?&?&?&?). by repeat split. Qed.

Section ConnectionFacts.
Context (svc : Services).

(** The owner a socket resolves to does not depend on who is registered
    nor on the buffered messages. *)
Lemma determineOwner_registered s f g w :
  fst (determineOwner svc s (set_messagesBuffer g (set_users f w)))
  = fst (determineOwner svc s w).
Proof.
  unfold determineOwner, bufferedMeta, bind, gets, ret, try_catch. simpl.
  destruct (ownerUserId s); [done|].
  destruct (truthy (meta_ownerId _)); [done|]. simpl.
  destruct (chatsCollection w); [|done].
  unfold Mongo.chats_findOne, Mongo.driver, bind, call, gets. simpl.
  by destruct (mongo_fault svc (clock w)).
Qed.

(** X16.  When a user socket connects, the socket becomes the registered
    channel of the user; the messages already buffered for the user are
    kept (an empty buffer is created when there is none) and the metadata
    buffer is untouched; and the only emit is the [user:connected] notice
    to the channel of the owner the socket resolves to, none when it
    resolves to no owner or that owner is not connected. *)
Theorem user_connection_registers_and_notifies s w :
  is_owner s = false ->
  let w' := step svc w (Connect s) in
  users w' !! uid s = Some (socket_id s) /\
  is_Some (messagesBuffer w' !! uid s) /\
  buffered w' (uid s) = buffered w (uid s) /\
  metadataBuffer w' = metadataBuffer w /\
  exists o,
    fst (determineOwner svc s w) = Ok o /\
    emitted_since w w'
    = match o with
      | Some a =>
          match owners w !! a with
          | Some sid => [mkEmit sid "user:connected" (UserPayload (uid s))]
          | None => []
          end
      | None => []
      end.
Proof.
  intros Hrole w'.
  assert (w' = step svc w (Connect s)) as Hw' by reflexivity. clearbody w'.
  unfold step, handle, on_connection in Hw'. rewrite Hrole in Hw'.
  unfold on_user_connection in Hw'.
  unfold bind at 1, modify at 1 in Hw'. cbv beta iota in Hw'.
  unfold bind at 1, modify at 1 in Hw'. cbv beta iota in Hw'.
  set (g := fun b : gmap string (list Message) =>
              match b !! uid s with Some _ => b | None => <[uid s := []]> b end) in *.
  set (w0 := set_messagesBuffer g (set_users <[uid s := socket_id s]> w)) in *.
  destruct (bind_run (determineOwner svc s)
              (fun targetOwner =>
                 let! chatsCollection := gets chatsCollection in
                 match targetOwner with
                 | Some o =>
                     when chatsCollection
                       (try! Mongo.chats_upsertOne svc (uid s) (Mongo.set_ownerId (Some o))
                        catch! e => ret tt) ;;
                     try! sendToOwnerOrBroadcast (Some o) "user:connected"
                            (UserPayload (uid s))
                     catch! e => ret tt
                 | None => ret tt
                 end) w0 (determineOwner_total svc s)) as (o & Ho & Hrun).
  rewrite Hrun in Hw'. clear Hrun.
  pose proof (determineOwner_only_clock svc s w0) as H1.
  apply only_clock_only_stores in H1.
  set (w1 := snd (determineOwner svc s w0)) in *.
  assert (fst (determineOwner svc s w) = Ok o) as Ho'.
  { rewrite <- (determineOwner_registered s <[uid s := socket_id s]> g w).
    fold w0. by rewrite Ho. }
  assert (users w0 !! uid s = Some (socket_id s)) as Hu0
    by (simpl; by rewrite lookup_insert_eq).
  assert (is_Some (messagesBuffer w0 !! uid s) /\
          buffered w0 (uid s) = buffered w (uid s)) as [Hb0 Hb0'].
  { unfold buffered. simpl. unfold g.
    destruct (messagesBuffer w !! uid s) as [l|] eqn:Hl.
    - rewrite Hl. by split; [eexists|].
    - rewrite lookup_insert_eq. by split; [eexists|]. }
  assert (forall w2, only_stores w0 w2 ->
    users w2 !! uid s = Some (socket_id s) /\
    is_Some (messagesBuffer w2 !! uid s) /\
    buffered w2 (uid s) = buffered w (uid s) /\
    metadataBuffer w2 = metadataBuffer w /\ outbox w2 = outbox w /\
    owners w2 = owners w) as Hkeep.
  { intros w2 (Hu & Hown & Hb & Hm & Hout & _). unfold buffered in *.
    rewrite Hu, Hb, Hm, Hout, Hown. done. }
  unfold bind at 1, gets at 1 in Hw'. cbv beta iota in Hw'.
  destruct o as [a|].
  - set (persist := when (chatsCollection w1)
                      (try! Mongo.chats_upsertOne svc (uid s) (Mongo.set_ownerId (Some a))
                       catch! e => ret tt)) in *.
    assert (never_throws persist) as Hpt by (unfold persist; total).
    assert (preserves only_stores persist) as Hps.
    { unfold persist, Mongo.chats_upsertOne, Mongo.driver.
      frame ltac:(intros ?; by repeat split). }
    destruct (bind_run persist
                (fun _ => try! sendToOwnerOrBroadcast (Some a) "user:connected"
                                 (UserPayload (uid s))
                          catch! e => ret tt) w1 Hpt) as ([] & _ & Hrun).
    rewrite Hrun in Hw'. clear Hrun.
    specialize (Hps w1). set (w2 := snd (persist w1)) in *.
    assert (only_stores w0 w2) as H02 by (by etransitivity).
    destruct (Hkeep w2 H02) as (Hu & Hb & Hb' & Hm & Hout & Hown).
    unfold try_catch in Hw'. rewrite sendToOwnerOrBroadcast_eval in Hw'.
    assert (truthy (Some a) = Some a) as Ht.
    { pose proof (determineOwner_truthy svc s w0 (Some a)) as Ht.
      apply Ht. by rewrite Ho. }
    rewrite Ht, Hown in Hw'. simpl in Hw'.
    destruct (owners w !! a) as [sid|] eqn:Hsid; simpl in Hw'; subst w'.
    + do 4 (split; [done|]). exists (Some a). split; [done|]. rewrite Hsid.
      apply emitted_since_grows. simpl. by rewrite Hout.
    + do 4 (split; [done|]). exists (Some a). split; [done|]. rewrite Hsid.
      rewrite <- (app_nil_r (outbox w)) in Hout. by apply emitted_since_grows.
  - destruct (Hkeep w1 H1) as (Hu & Hb & Hb' & Hm & Hout & Hown).
    unfold ret in Hw'. simpl in Hw'. subst w'.
    do 4 (split; [done|]). exists None. split; [done|].
    rewrite <- (app_nil_r (outbox w)) in Hout. by apply emitted_since_grows.
Qed.

End ConnectionFacts.

Lemma user_connection_registers_and_notifies_witness :
  users (step Demo.no_namespace Demo.started (Connect Demo.visitor)) !! "u1"
  = Some "sock-u1".
Proof.
  apply (user_connection_registers_and_notifies Demo.no_namespace Demo.visitor
           Demo.started).
  reflexivity.
Defined.

(** ** What an owner's message does *)

Section OwnerMessageFacts.
Context (svc : Services).

Lemma deliverOwnerMessage_effect s u t w :
  mongo_reliable svc -> chatsCollection w = true ->
  let w' := snd (deliverOwnerMessage svc s u t w) in
  let m := {| from := FromOwner; text := t; ts := clock w;
              msg_userId := None; msg_ownerId := Some (signingOwner s);
              contextUsed := None; sources := []; error := false |} in
  conv w' u = conv w u ++ [m] /\
  buffered w' u = buffered w u ++ [m] /\
  stored_owner w' u = Some (signingOwner s).
Proof.
  intros Hrel Hc w' m.
  assert (w' = snd (deliverOwnerMessage svc s u t w)) as Hw' by reflexivity.
  clearbody w'.
  unfold deliverOwnerMessage in Hw'.
  unfold bind at 1, gets at 1 in Hw'. cbv beta iota zeta in Hw'.
  unfold bind at 1 in Hw'. rewrite sendToUser_eval in Hw'. cbv beta iota in Hw'.
  set (w1 := match truthy (users w !! u) with
             | Some sid => _
             | None => w
             end) in *.
  assert (only_emits w w1) as (Hch1 & _ & _ & _ & Hc1 & Hb1 & _).
  { subst w1. destruct (truthy (users w !! u)); by repeat split. }
  unfold bind at 1, bufferPush, modify at 1 in Hw'. cbv beta iota in Hw'.
  unfold bind at 1, gets at 1 in Hw'. cbv beta iota in Hw'.
  change (chatsCollection (set_messagesBuffer _ w1)) with (chatsCollection w1) in Hw'.
  rewrite Hc1, Hc in Hw'.
  unfold bind at 1, try_catch at 1, when, Mongo.chats_upsertOne, bind at 1 in Hw'.
  rewrite driver_ok in Hw' by done. unfold modify at 1 in Hw'.
  cbv beta iota in Hw'.
  match type of Hw' with
  | _ = snd (?E ?w3) =>
      assert (preserves only_emits E) as HE
        by (unfold_handlers; frame ltac:(intros ?; by repeat split));
      specialize (HE w3); rewrite <- Hw' in HE; clear Hw'
  end.
  destruct HE as (Hch & _ & _ & _ & _ & Hb & _).
  unfold conv, buffered, stored_owner. rewrite Hch, Hb. simpl.
  rewrite !lookup_insert_eq, Hch1, Hb1. simpl.
  split; [|done]. by destruct (chats w !! u).
Qed.

(** X17.  An owner's message without a user id does nothing at all.  One
    addressed to user [u] (store connected, driver reliable) makes the
    sending owner the stored owner of [u], whoever owned the conversation
    before, and appends the message, authored by the owner, both to the
    stored conversation and to the message buffer of [u]. *)
Theorem owner_message_assigns_the_conversation s p t w :
  (truthy p = None -> step svc w (OwnerMessage s p t) = w) /\
  (forall u, truthy p = Some u ->
     mongo_reliable svc -> chatsCollection w = true ->
     let w' := step svc w (OwnerMessage s p t) in
     stored_owner w' u = Some (signingOwner s) /\
     exists m,
       conv w' u = conv w u ++ [m] /\
       buffered w' u = buffered w u ++ [m] /\
       from m = FromOwner /\ text m = t /\
       msg_ownerId m = Some (signingOwner s)).
Proof.
  split.
  { intros Hp. unfold step, handle, on_owner_message. by rewrite Hp. }
  intros u Hp Hrel Hc w'.
  assert (w' = step svc w (OwnerMessage s p t)) as Hw' by reflexivity.
  clearbody w'.
  unfold step, handle, on_owner_message in Hw'. rewrite Hp in Hw'.
  unfold try_catch at 1, bind at 1, try_catch at 1 in Hw'.
  assert (exists w1, handleAdminMessage svc u w = (Ok tt, w1) /\
            chats w1 = chats w /\ messagesBuffer w1 = messagesBuffer w /\
            chatsCollection w1 = chatsCollection w) as (w1 & Hw1 & Hch & Hb & Hc1).
  { unfold handleAdminMessage, deactivateAiForUser.
    destruct (handlerCollections w) eqn:Hh.
    - rewrite setAiState_eval by done. by eexists.
    - unfold setAiState, bind, gets. rewrite Hh. by eexists. }
  rewrite Hw1 in Hw'.
  destruct (deliverOwnerMessage_effect s u t w1 Hrel ltac:(congruence))
    as (Hconv & Hbuf & Hown).
  assert (conv w1 u = conv w u) as Hconv1 by (unfold conv; by rewrite Hch).
  assert (buffered w1 u = buffered w u) as Hbuf1 by (unfold buffered; by rewrite Hb).
  rewrite Hconv1 in Hconv. rewrite Hbuf1 in Hbuf.
  destruct (deliverOwnerMessage svc s u t w1) as [[[]|e] w2]; simpl in *; subst w';
    (split; [done|]; eexists; split; [exact Hconv|]; split; [exact Hbuf|]; done).
Qed.

End OwnerMessageFacts.

(** ** Where the AI reply is stored *)

Section ReplyFacts.
Context (svc : Services).

Lemma getAiResponseWithContext_answers o msg hist w :
  completion_available svc ->
  exists r, fst (getAiResponseWithContext svc o msg hist w) = Ok r.
Proof.
  intros [Hkey Hchat].
  unfold getAiResponseWithContext, try_catch at 1, bind at 1.
  rewrite getOwnerWebsite_eval. unfold bind at 1.
  assert (forall w1, exists r,
    fst ((try!
          (let! websiteUrl := getOwnerWebsite svc o in
           let! fallbackResponse :=
             generateAiResponse svc msg [] hist websiteUrl in
           ret {| response := fallbackResponse; res_contextUsed := false;
                  res_websiteUrl := websiteUrl; res_sources := [];
                  res_error :=
                    Some "Could not access knowledge base, using general AI knowledge" |})
         catch! fallbackError => throw (mkError "Failed to generate AI response")) w1)
    = Ok r) as Hfb.
  { intros w1. unfold try_catch, bind. rewrite getOwnerWebsite_eval.
    rewrite generateAiResponse_eval by done.
    destruct (Hchat (clock (set_clock S w1))
                (buildMessages msg [] hist (website_at svc o (clock w1)))) as [x ->].
    by eexists. }
  destruct (searchOwnerKnowledge svc o msg 3 (set_clock S w)) as [[context|e1] w2].
  - unfold bind at 1. rewrite generateAiResponse_eval by done.
    destruct (Hchat (clock w2)
                (buildMessages msg context hist (website_at svc o (clock w))))
      as [x ->].
    by eexists.
  - apply Hfb.
Qed.

Lemma getConversationHistory_total u n :
  never_throws (getConversationHistory svc u n).
Proof. unfold getConversationHistory. total. Qed.

Lemma getConversationHistory_eval u n w :
  mongo_reliable svc -> handlerCollections w = true ->
  getConversationHistory svc u n w = (Ok (slice_last n (conv w u)), set_clock S w).
Proof.
  intros Hrel Hh. unfold getConversationHistory, bind at 1, gets at 1.
  rewrite Hh. cbv beta iota. change (negb true) with false. cbv beta iota.
  unfold try_catch, Mongo.chats_findOne, bind. rewrite driver_ok by done.
  unfold gets, ret, conv. cbv beta iota.
  change (chats (set_clock S w)) with (chats w).
  destruct (chats w !! u); [done|]. by destruct n.
Qed.

Lemma generateAiResponse_inv msg ctx hist site w x w' :
  generateAiResponse svc msg ctx hist site w = (Ok x, w') ->
  openai_chat svc (clock w) (buildMessages msg ctx hist site) = Ok x.
Proof.
  unfold generateAiResponse, try_catch, call, throw.
  destruct (truthy (OPENAI_API_KEY svc)); [|done].
  destruct (openai_chat svc (clock w) _); [|done]. by intros [= <- _].
Qed.

(** A text that [getAiResponseWithContext] returns is the answer of the
    completion service to a prompt built for the message and the
    history. *)
Lemma getAiResponseWithContext_prompt o msg hist w r :
  fst (getAiResponseWithContext svc o msg hist w) = Ok r ->
  exists clk ctx site,
    openai_chat svc clk (buildMessages msg ctx hist site) = Ok (response r).
Proof.
  unfold getAiResponseWithContext, try_catch at 1, bind at 1.
  rewrite getOwnerWebsite_eval. unfold bind at 1.
  assert (forall w1,
    fst ((try!
          (let! websiteUrl := getOwnerWebsite svc o in
           let! fallbackResponse :=
             generateAiResponse svc msg [] hist websiteUrl in
           ret {| response := fallbackResponse; res_contextUsed := false;
                  res_websiteUrl := websiteUrl; res_sources := [];
                  res_error :=
                    Some "Could not access knowledge base, using general AI knowledge" |})
         catch! fallbackError => throw (mkError "Failed to generate AI response")) w1)
    = Ok r ->
    exists clk ctx site,
      openai_chat svc clk (buildMessages msg ctx hist site) = Ok (response r)) as Hfb.
  { intros w1. unfold try_catch, bind. rewrite getOwnerWebsite_eval.
    destruct (generateAiResponse svc msg [] hist _ _) as [[x|e'] w2] eqn:Hgen; [|done].
    apply generateAiResponse_inv in Hgen. unfold ret. cbn [fst].
    intros [= <-]. by eexists _, _, _. }
  destruct (searchOwnerKnowledge svc o msg 3 (set_clock S w)) as [[context|e1] w2].
  - unfold bind at 1.
    destruct (generateAiResponse svc msg context hist _ w2) as [[x|e2] w3] eqn:Hgen.
    + apply generateAiResponse_inv in Hgen. unfold ret. cbn [fst].
      intros [= <-]. by eexists _, _, _.
    + apply Hfb.
  - apply Hfb.
Qed.

(** With the state collection connected, the driver reliable, the
    completion service answering and the AI active for the user,
    [processUserMessage] stores a copy of its reply and returns the
    reply. *)
Lemma processUserMessage_replies u t o w :
  mongo_reliable svc -> completion_available svc ->
  handlerCollections w = true -> ai_flag w u = true ->
  exists reply stored w1,
    processUserMessage svc u t o w = (Ok (Some reply), w1) /\
    chats w1 = alter (Mongo.push stored) u (chats w) /\
    only_stores w w1 /\
    from reply = FromAi /\ from stored = FromAi /\
    text stored = text reply /\ error reply = false /\
    msg_userId reply = Some u /\
    exists clk ctx site,
      openai_chat svc clk (buildMessages t ctx (slice_last 10 (conv w u)) site)
      = Ok (text reply).
Proof.
  intros Hrel Hcomp Hh Hflag.
  unfold processUserMessage, try_catch, bind at 1.
  rewrite shouldAiRespond_eval by done. rewrite Hflag. cbv beta iota.
  change (negb true) with false. cbv beta iota.
  set (w1 := set_clock S w).
  unfold bind at 1.
  rewrite (getConversationHistory_eval u 10 w1) by done.
  change (conv w1 u) with (conv w u).
  set (hist := slice_last 10 (conv w u)).
  set (w2 := set_clock S w1).
  assert (only_clock w w2) as H02 by (by repeat split).
  unfold bind at 1.
  set (gen := match truthy o with
              | Some o0 => getAiResponseWithContext svc o0 t hist
              | None => _
              end).
  assert (preserves only_clock gen /\
          exists r, fst (gen w2) = Ok r /\
            exists clk ctx site,
              openai_chat svc clk (buildMessages t ctx hist site) = Ok (response r))
    as [Hgen (r & Hr & Hprompt)].
  { subst gen. destruct (truthy o) as [o'|].
    - split; [apply getAiResponseWithContext_only_clock|].
      destruct (getAiResponseWithContext_answers o' t hist w2 Hcomp) as [r Hr].
      exists r. split; [done|]. by apply (getAiResponseWithContext_prompt o' t hist w2).
    - split.
      + apply preserves_bind; [exact _ | apply generateAiResponse_only_clock |].
        intros ?. apply preserves_ret. exact _.
      + unfold bind. destruct Hcomp as [Hkey Hchat].
        rewrite generateAiResponse_eval by done.
        destruct (Hchat (clock w2) (buildMessages t [] hist None)) as [x Hx].
        rewrite Hx. eexists. split; [reflexivity|]. by eexists _, _, _. }
  specialize (Hgen w2).
  destruct (gen w2) as [[r'|e] w3]; simpl in Hr, Hgen; [|done].
  injection Hr as ->.
  assert (only_clock w w3) as H03 by (by etransitivity).
  destruct H03 as (Hch & Hai & Hu & Ho & Hcc & Hmb & Hmeta & Hout & Hh3).
  unfold bind at 1, gets at 1. cbv beta iota. rewrite Hh3, Hh.
  unfold when, bind at 1, bind at 1, gets at 1. cbv beta iota.
  unfold Mongo.chats_updateOne, bind at 1. rewrite driver_ok by done.
  unfold modify. cbv beta iota.
  unfold bind, gets, ret. cbv beta iota.
  eexists _, _, _. split; [reflexivity|].
  split; [simpl; by rewrite Hch|].
  split; [by repeat split|]. do 5 (split; [done|]). exact Hprompt.
Qed.

Lemma bufferAndPersist_effect s t o w :
  mongo_reliable svc -> chatsCollection w = true ->
  let w' := snd (bufferAndPersist svc s t o w) in
  let m := {| from := FromUser; text := t; ts := clock w;
              msg_userId := None; msg_ownerId := None;
              contextUsed := None; sources := []; error := false |} in
  conv w' (uid s) = conv w (uid s) ++ [m] /\
  buffered w' (uid s) = buffered w (uid s) ++ [m] /\
  is_Some (chats w' !! uid s) /\
  ai_chat_state w' = ai_chat_state w /\
  handlerCollections w' = handlerCollections w /\
  chatsCollection w' = true.
Proof.
  intros Hrel Hc w' m. subst w'.
  unfold bufferAndPersist, bufferPush, bind, gets, modify, try_catch, when.
  simpl. rewrite Hc. unfold Mongo.chats_upsertOne, bind.
  rewrite driver_ok by done. unfold modify, conv, buffered. simpl.
  rewrite !lookup_insert_eq. simpl.
  repeat split; try done. by destruct (chats w !! uid s).
Qed.

Lemma aiIntegration_effect s t o w :
  mongo_reliable svc -> completion_available svc ->
  chatsCollection w = true -> handlerCollections w = true ->
  ai_flag w (uid s) = true -> is_Some (chats w !! uid s) ->
  let w' := snd (aiIntegration svc s t o w) in
  exists stored reply,
    conv w' (uid s) = conv w (uid s) ++ [stored; reply] /\
    buffered w' (uid s) = buffered w (uid s) ++ [reply] /\
    from stored = FromAi /\ from reply = FromAi /\
    text stored = text reply /\ error reply = false /\
    exists clk ctx site,
      openai_chat svc clk
        (buildMessages t ctx (slice_last 10 (conv w (uid s))) site)
      = Ok (text reply).
Proof.
  intros Hrel Hcomp Hc Hh Hflag [d Hd] w'.
  assert (w' = snd (aiIntegration svc s t o w)) as Hw' by reflexivity.
  clearbody w'.
  unfold aiIntegration, try_catch at 1, bind at 1 in Hw'.
  destruct (processUserMessage_replies (uid s) t o w Hrel Hcomp Hh Hflag)
    as (reply & stored & w1 & Hrun & Hch1 & Hs1 & Hfr & Hfs & Htext & Herr & _
        & Hprompt).
  rewrite Hrun in Hw'. clear Hrun.
  destruct Hs1 as (_ & _ & Hb1 & _ & _ & Hc1 & _).
  assert (never_throws (sendToUser (uid s) (ChatPayload reply))) as Hst
    by (unfold sendToUser, emit; total).
  destruct (bind_run (sendToUser (uid s) (ChatPayload reply))
              (fun _ =>
                 match o with
                 | Some o0 => sendToOwnerOrBroadcast (Some o0) "message" (ChatPayload reply)
                 | None => ret tt
                 end ;;
                 bufferPush (uid s) reply ;;
                 let! chatsCollection := gets chatsCollection in
                 try!
                   when chatsCollection
                     (Mongo.chats_upsertOne svc (uid s)
                        (fun d => Mongo.push reply (Mongo.set_ownerId o d)))
                 catch! e => ret tt) w1 Hst) as ([] & _ & Hrun).
  rewrite Hrun in Hw'. clear Hrun.
  pose proof (sendToUser_only_emits (uid s) (ChatPayload reply) w1) as H12.
  set (w2 := snd (sendToUser (uid s) (ChatPayload reply) w1)) in *.
  set (echo := match o with
               | Some o0 => sendToOwnerOrBroadcast (Some o0) "message" (ChatPayload reply)
               | None => ret tt
               end) in *.
  assert (never_throws echo /\ preserves only_emits echo) as [Het Hee].
  { subst echo. destruct o.
    - split; [unfold sendToOwnerOrBroadcast; total
             | apply sendToOwnerOrBroadcast_only_emits].
    - split; [apply never_throws_ret | apply preserves_ret; exact _]. }
  destruct (bind_run echo
              (fun _ =>
                 bufferPush (uid s) reply ;;
                 let! chatsCollection := gets chatsCollection in
                 try!
                   when chatsCollection
                     (Mongo.chats_upsertOne svc (uid s)
                        (fun d => Mongo.push reply (Mongo.set_ownerId o d)))
                 catch! e => ret tt) w2 Het) as ([] & _ & Hrun).
  rewrite Hrun in Hw'. clear Hrun.
  specialize (Hee w2). set (w3 := snd (echo w2)) in *.
  assert (only_emits w1 w3) as (Hch3 & _ & _ & _ & Hc3 & Hb3 & _)
    by (by etransitivity).
  unfold bind at 1, bufferPush, modify at 1 in Hw'. cbv beta iota in Hw'.
  unfold bind at 1, gets at 1 in Hw'. cbv beta iota in Hw'.
  change (chatsCollection (set_messagesBuffer _ w3)) with (chatsCollection w3) in Hw'.
  rewrite Hc3, Hc1, Hc in Hw'.
  unfold try_catch, when, Mongo.chats_upsertOne, bind in Hw'.
  rewrite driver_ok in Hw' by done. unfold modify in Hw'. simpl in Hw'.
  subst w'. exists stored, reply.
  unfold conv, buffered. simpl. rewrite !lookup_insert_eq.
  rewrite Hch3, Hb3, Hch1, Hb1, lookup_alter_eq, Hd. simpl.
  split; [by rewrite <- app_assoc|]. do 5 (split; [done|]).
  unfold conv in Hprompt. rewrite Hd in Hprompt. exact Hprompt.
Qed.

(** X18.  A user's message that the AI answers (both collection handles
    connected, driver reliable, completion service answering, AI active
    for the user) leaves the reply twice in the stored conversation: after
    the user's message come the copy that [processUserMessage] stores and
    the reply that the message handler of index.js stores again, both
    AI-authored with the same text; the message buffer holds the reply
    once. *)
Theorem ai_reply_is_stored_twice s p w :
  mongo_reliable svc -> completion_available svc ->
  chatsCollection w = true -> handlerCollections w = true ->
  ai_flag w (uid s) = true ->
  let w' := step svc w (UserMessage s p) in
  exists sent stored reply,
    conv w' (uid s) = conv w (uid s) ++ [sent; stored; reply] /\
    buffered w' (uid s) = buffered w (uid s) ++ [sent; reply] /\
    from sent = FromUser /\ text sent = payloadText p /\
    from stored = FromAi /\ from reply = FromAi /\
    text stored = text reply /\ error reply = false.
Proof.
  intros Hrel Hcomp Hc Hh Hflag w'. subst w'.
  destruct (on_user_message_run svc s p w) as (o & _ & ->).
  set (w1 := snd (determineOwner svc s w)).
  set (w2 := snd (forwardToOwner svc s (payloadText p) o w1)).
  set (w3 := snd (bufferAndPersist svc s (payloadText p) o w2)).
  assert (only_clock w w1) as (Hch1 & Hai1 & _ & _ & Hc1 & Hb1 & _ & _ & Hh1)
    by apply determineOwner_only_clock.
  assert (messages_kept w1 w2) as (Hch2 & Hai2 & _ & _ & Hc2 & Hb2 & Hh2)
    by apply forwardToOwner_messages_kept.
  destruct (bufferAndPersist_effect s (payloadText p) o w2 Hrel ltac:(congruence))
    as (Hconv3 & Hbuf3 & Hdoc3 & Hai3 & Hh3 & Hc3).
  fold w3 in Hconv3, Hbuf3, Hdoc3, Hai3, Hh3, Hc3.
  destruct (aiIntegration_effect s (payloadText p) o w3 Hrel Hcomp Hc3
              ltac:(congruence)
              ltac:(unfold ai_flag in *; by rewrite Hai3, Hai2, Hai1) Hdoc3)
    as (stored & reply & Hconv & Hbuf & ? & ? & ? & ? & _).
  eexists _, stored, reply.
  split; [|split].
  - rewrite Hconv, Hconv3. unfold conv. rewrite Hch2, Hch1.
    rewrite <- app_assoc. reflexivity.
  - rewrite Hbuf, Hbuf3. unfold buffered. rewrite Hb2, Hb1.
    rewrite <- app_assoc. reflexivity.
  - done.
Qed.

Lemma buildMessages_after_history msg ctx site l m :
  exists front,
    buildMessages msg ctx (l ++ [m]) site
    = front ++ [historyTurn m; {| role := user; content := msg |}].
Proof.
  unfold buildMessages, slice_last.
  exists (systemMessage ctx site
            :: map historyTurn (drop (length (l ++ [m]) - 10) l)).
  rewrite drop_app_le by (rewrite length_app; simpl; lia).
  rewrite map_app. simpl. by rewrite <- app_assoc.
Qed.

(** X19.  The prompt repeats the user's current message.  The message
    handler stores the inbound message before it calls
    [processUserMessage], which reads the history back from the store:
    with both collection handles connected, the driver reliable, the
    completion service answering and the AI active for the user, the
    reply stored last is the completion obtained for a prompt whose last
    two turns are both the [user] turn carrying the current message, once
    as the end of the history and once as the message itself. *)
Theorem prompt_repeats_the_current_message s p w :
  mongo_reliable svc -> completion_available svc ->
  chatsCollection w = true -> handlerCollections w = true ->
  ai_flag w (uid s) = true ->
  let w' := step svc w (UserMessage s p) in
  let current := {| role := user; content := payloadText p |} in
  exists sent reply clk ctx site front,
    from sent = FromUser /\ text sent = payloadText p /\
    last (conv w' (uid s)) = Some reply /\
    let prompt :=
      buildMessages (payloadText p) ctx
        (slice_last 10 (conv w (uid s) ++ [sent])) site in
    openai_chat svc clk prompt = Ok (text reply) /\
    prompt = front ++ [current; current].
Proof.
  intros Hrel Hcomp Hc Hh Hflag w' current. subst w'.
  destruct (on_user_message_run svc s p w) as (o & _ & ->).
  set (w1 := snd (determineOwner svc s w)).
  set (w2 := snd (forwardToOwner svc s (payloadText p) o w1)).
  set (w3 := snd (bufferAndPersist svc s (payloadText p) o w2)).
  assert (only_clock w w1) as (Hch1 & Hai1 & _ & _ & Hc1 & Hb1 & _ & _ & Hh1)
    by apply determineOwner_only_clock.
  assert (messages_kept w1 w2) as (Hch2 & Hai2 & _ & _ & Hc2 & Hb2 & Hh2)
    by apply forwardToOwner_messages_kept.
  destruct (bufferAndPersist_effect s (payloadText p) o w2 Hrel ltac:(congruence))
    as (Hconv3 & Hbuf3 & Hdoc3 & Hai3 & Hh3 & Hc3).
  fold w3 in Hconv3, Hbuf3, Hdoc3, Hai3, Hh3, Hc3.
  destruct (aiIntegration_effect s (payloadText p) o w3 Hrel Hcomp Hc3
              ltac:(congruence)
              ltac:(unfold ai_flag in *; by rewrite Hai3, Hai2, Hai1) Hdoc3)
    as (stored & reply & Hconv & _ & _ & _ & _ & _ & clk & ctx & site & Hprompt).
  assert (conv w2 (uid s) = conv w (uid s)) as Hconv2
    by (unfold conv; by rewrite Hch2, Hch1).
  rewrite Hconv3, Hconv2 in Hprompt.
  set (sent := {| from := FromUser; text := payloadText p; ts := clock w2;
                  msg_userId := None; msg_ownerId := None;
                  contextUsed := None; sources := []; error := false |}) in *.
  assert (slice_last 10 (conv w (uid s) ++ [sent])
          = drop (length (conv w (uid s) ++ [sent]) - 10) (conv w (uid s)) ++ [sent])
    as Hslice.
  { unfold slice_last. apply drop_app_le. rewrite length_app. simpl. lia. }
  destruct (buildMessages_after_history (payloadText p) ctx site
              (drop (length (conv w (uid s) ++ [sent]) - 10) (conv w (uid s))) sent)
    as [front Hfront].
  rewrite <- Hslice in Hfront.
  exists sent, reply, clk, ctx, site, front.
  split; [done|]. split; [done|].
  split; [|split; [exact Hprompt | exact Hfront]].
  rewrite Hconv. rewrite (app_assoc _ [stored] [reply]). apply last_snoc.
Qed.

End ReplyFacts.

Lemma ai_reply_is_stored_twice_witness :
  map from (conv (step Demo.no_namespace Demo.started
                    (UserMessage Demo.visitor (Some "Hello")))
              "u1")
  = [FromUser; FromAi; FromAi].
Proof.
  destruct (ai_reply_is_stored_twice Demo.no_namespace Demo.visitor (Some "Hello")
              Demo.started)
    as (sent & stored & reply & Hconv & _ & Hs & _ & Hst & Hr & _).
  - by intros ?.
  - split; [by eexists | intros; by eexists].
  - reflexivity.
  - reflexivity.
  - reflexivity.
  - change (uid Demo.visitor) with "u1" in Hconv. rewrite Hconv.
    change (conv Demo.started "u1") with (@nil Message). simpl.
    by rewrite Hs, Hst, Hr.
Defined.

Lemma prompt_repeats_the_current_message_witness :
  exists sent reply clk ctx site front,
    from sent = FromUser /\ text sent = "Hello" /\
    last (conv (step Demo.no_namespace Demo.started
                  (UserMessage Demo.visitor (Some "Hello"))) "u1") = Some reply /\
    openai_chat Demo.no_namespace clk
      (buildMessages "Hello" ctx (slice_last 10 ([] ++ [sent])) site)
    = Ok (text reply) /\
    buildMessages "Hello" ctx (slice_last 10 ([] ++ [sent])) site
    = front ++ [ {| role := user; content := "Hello" |};
                 {| role := user; content := "Hello" |} ].
Proof.
  apply (prompt_repeats_the_current_message Demo.no_namespace Demo.visitor
           (Some "Hello") Demo.started).
  - by intros ?.
  - split; [by eexists | intros; by eexists].
  - reflexivity.
  - reflexivity.
  - reflexivity.
Defined.

(** ** Metadata updates *)

Lemma truthy_Some_truthy o a : truthy o = Some a -> truthy (Some a) = Some a.
Proof. intros H. pose proof (truthy_idem o) as Hi. by rewrite H in Hi. Qed.

Section MetadataFacts.
Context (svc : Services).

(** X20.  A [setMetadata] event without a user id does nothing.  One for
    user [u] puts the normalised metadata (empty strings as [null]) in the
    metadata buffer, whether or not it can be persisted; when the write
    does not fail (no collection handle, or the driver answers) the stored
    document of [u], if the handle is there, gets the same four fields
    with its conversation untouched, and the update is announced to the
    channel of the owner named in the metadata only: to no one when no
    owner is named or that owner is not connected. *)
Theorem setMetadata_updates_buffer_and_store p m w :
  let meta := metaOfPayload (username m) (useremail m) (userphone m)
                (meta_ownerId m) in
  let w' := step svc w (SetMetadata p m) in
  (truthy p = None -> w' = w) /\
  (forall u, truthy p = Some u ->
     metadataBuffer w' !! u = Some meta /\
     ((chatsCollection w = true -> mongo_fault svc (clock w) = None) ->
      (chatsCollection w = true ->
       exists d, chats w' !! u = Some d /\
         doc_username d = username meta /\ doc_useremail d = useremail meta /\
         doc_userphone d = userphone meta /\ doc_ownerId d = meta_ownerId meta /\
         conversation d = conv w u) /\
      emitted_since w w'
      = match meta_ownerId meta with
        | Some o =>
            match owners w !! o with
            | Some sid => [mkEmit sid "metadata:updated" (MetadataPayload u meta)]
            | None => []
            end
        | None => []
        end)).
Proof.
  intros meta w'.
  assert (w' = step svc w (SetMetadata p m)) as Hw' by reflexivity. clearbody w'.
  unfold step, handle, on_setMetadata in Hw'.
  destruct (truthy p) as [u|] eqn:Hp.
  2:{ split; [done|]. intros ? [=]. }
  split; [done|]. intros ? [= <-].
  fold meta in Hw'.
  assert (match meta_ownerId meta with
          | Some o => truthy (Some o) = Some o
          | None => True
          end) as Htruthy.
  { unfold meta, metaOfPayload. simpl.
    destruct (truthy (meta_ownerId m)) as [o|] eqn:Ho; [|done].
    by apply (truthy_Some_truthy (meta_ownerId m)). }
  set (notify := try!
                   match truthy (meta_ownerId m) with
                   | Some o => sendToOwnerOrBroadcast (Some o) "metadata:updated"
                                 (MetadataPayload u meta)
                   | None => ret tt
                   end
                 catch! e => ret tt) in *.
  assert (forall w0, notify w0
    = (Ok tt,
       match meta_ownerId meta with
       | Some o =>
           match owners w0 !! o with
           | Some sid =>
               set_outbox (fun ob => ob ++
                 [mkEmit sid "metadata:updated" (MetadataPayload u meta)]) w0
           | None => w0
           end
       | None => w0
       end)) as Hnotify.
  { intros w0. unfold notify, try_catch.
    change (meta_ownerId meta) with (truthy (meta_ownerId m)) in *.
    destruct (truthy (meta_ownerId m)) as [o|]; [|done].
    rewrite sendToOwnerOrBroadcast_eval, Htruthy. by destruct (owners w0 !! o). }
  unfold try_catch at 1, bind at 1, modify at 1 in Hw'. cbv beta iota in Hw'.
  unfold bind at 1, gets at 1 in Hw'. cbv beta iota in Hw'.
  change (chatsCollection (set_metadataBuffer _ w)) with (chatsCollection w) in Hw'.
  destruct (chatsCollection w) eqn:Hc.
  - unfold when, bind at 1, Mongo.chats_upsertOne, bind at 1, Mongo.driver, call
      in Hw'.
    change (clock (set_metadataBuffer _ w)) with (clock w) in Hw'.
    destruct (mongo_fault svc (clock w)) as [e|] eqn:Hf.
    + simpl in Hw'. subst w'. simpl. rewrite lookup_insert_eq.
      split; [done|]. intros Hok. by specialize (Hok eq_refl).
    + unfold modify in Hw'. cbv beta iota in Hw'. rewrite Hnotify in Hw'.
      split.
      * subst w'. destruct (meta_ownerId meta) as [o|]; simpl;
          [destruct (owners w !! o); simpl|]; by rewrite lookup_insert_eq.
      * intros _. split.
        -- intros _. subst w'. eexists. split.
           ++ destruct (meta_ownerId meta) as [o|]; simpl;
                [destruct (owners w !! o); simpl|]; by rewrite lookup_insert_eq.
           ++ simpl. repeat split. unfold conv. by destruct (chats w !! u).
        -- subst w'. destruct (meta_ownerId meta) as [o|]; simpl.
           ++ destruct (owners w !! o) as [sid|]; simpl.
              ** by apply emitted_since_grows.
              ** apply emitted_since_grows. simpl. by rewrite app_nil_r.
           ++ apply emitted_since_grows. simpl. by rewrite app_nil_r.
  - unfold when, bind at 1, ret at 1 in Hw'. cbv beta iota in Hw'.
    rewrite Hnotify in Hw'. split.
    + subst w'. destruct (meta_ownerId meta) as [o|]; simpl;
        [destruct (owners w !! o); simpl|]; by rewrite lookup_insert_eq.
    + intros _. split; [done|].
      subst w'. destruct (meta_ownerId meta) as [o|]; simpl.
      * destruct (owners w !! o) as [sid|]; simpl.
        -- by apply emitted_since_grows.
        -- apply emitted_since_grows. simpl. by rewrite app_nil_r.
      * apply emitted_since_grows. simpl. by rewrite app_nil_r.
Qed.

(** X21.  The HTTP route for metadata puts the normalised metadata in the
    buffer like the socket event, but announces the update to the room
    [owners], whatever owner the metadata names; and when the write to the
    store fails, the announcement is skipped while the buffer keeps the
    update. *)
Theorem http_setMetadata_announces_to_the_owners_room u m w :
  let meta := metaOfPayload (username m) (useremail m) (userphone m)
                (meta_ownerId m) in
  let w' := step svc w (HttpSetMetadata u m) in
  metadataBuffer w' !! u = Some meta /\
  emitted_since w w'
  = if chatsCollection w then
      match mongo_fault svc (clock w) with
      | Some _ => []
      | None => [mkEmit "owners" "metadata:updated" (MetadataPayload u meta)]
      end
    else [mkEmit "owners" "metadata:updated" (MetadataPayload u meta)].
Proof.
  intros meta w'.
  assert (w' = step svc w (HttpSetMetadata u m)) as Hw' by reflexivity.
  clearbody w'.
  unfold step, handle, http_setMetadata in Hw'. fold meta in Hw'.
  unfold try_catch at 1, bind at 1, modify at 1 in Hw'. cbv beta iota in Hw'.
  unfold bind at 1, gets at 1 in Hw'. cbv beta iota in Hw'.
  change (chatsCollection (set_metadataBuffer _ w)) with (chatsCollection w) in Hw'.
  destruct (chatsCollection w) eqn:Hc.
  - unfold when, bind at 1, Mongo.chats_upsertOne, bind at 1, Mongo.driver, call
      in Hw'.
    change (clock (set_metadataBuffer _ w)) with (clock w) in Hw'.
    destruct (mongo_fault svc (clock w)) as [e|] eqn:Hf.
    + simpl in Hw'. subst w'. simpl. rewrite lookup_insert_eq.
      split; [done|].
      apply emitted_since_grows. simpl. by rewrite app_nil_r.
    + unfold modify, emit in Hw'. simpl in Hw'. subst w'. simpl.
      rewrite lookup_insert_eq. split; [done|].
      by apply emitted_since_grows.
  - unfold when, bind, ret, emit, modify in Hw'. simpl in Hw'. subst w'. simpl.
    rewrite lookup_insert_eq. split; [done|]. by apply emitted_since_grows.
Qed.

End MetadataFacts.

Lemma setMetadata_updates_buffer_and_store_witness :
  emitted_since Demo.only_globex_connected
    (step Demo.no_namespace Demo.only_globex_connected
       (SetMetadata (Some "u1") Demo.to_globex))
  = [mkEmit "sock-globex" "metadata:updated"
       (MetadataPayload "u1" Demo.to_globex)].
Proof.
  destruct (setMetadata_updates_buffer_and_store Demo.no_namespace (Some "u1")
              Demo.to_globex Demo.only_globex_connected) as [_ H].
  destruct (H "u1" eq_refl) as [_ H'].
  destruct H' as [_ Hemit]; [done|]. exact Hemit.
Defined.

(** ** Robustness and isolation of the handlers *)

Section HandlerFacts.
Context (svc : Services).

(** X22.  No handler of the router lets an error escape: whatever the
    database, the vector store and OpenAI answer, and whatever the event
    carries, handling the event returns normally. *)
Theorem handlers_never_throw e : never_throws (handle svc e).
Proof.
  destruct e; unfold_router; total.
Qed.

(** Side conditions of the isolation proof: an update at another key. *)
Ltac other_key :=
  first [ done
        | by rewrite lookup_insert_ne
        | by rewrite lookup_delete_ne
        | by rewrite lookup_alter_ne
        | by (case_match; [done | rewrite lookup_insert_ne]) ].

Ltac user_side := intros ?; repeat split; cbn; other_key.

Ltac unfold_all :=
  unfold_router; unfold getConversationHistory, shouldAiRespond,
    getAiResponseWithContext, getOwnerWebsite, searchOwnerKnowledge,
    generateAiResponse, generateEmbedding,
    Mongo.chats_findOne, Mongo.chats_upsertOne, Mongo.chats_updateOne,
    Mongo.aiState_findOne, Mongo.aiState_upsertOne, Mongo.driver.

(** X23.  Users are isolated from one another: an event that acts on
    another user (a connection, disconnection or message of another
    user's socket, an owner's message or a metadata update addressed to
    another user), on an owner's own connection, or a reset, leaves the
    stored document of [u], the buffered messages and metadata of [u] and
    the registered channel of [u] exactly as they were. *)
Theorem other_users_are_untouched u e w :
  subject e <> Some u -> user_kept u w (step svc w e).
Proof.
  intros Hsub. unfold step.
  assert (preserves (user_kept u) (handle svc e)) as H; [|apply H].
  destruct e as [s|s|s p|s p t|p m|u' m|u']; simpl in Hsub.
  - unfold handle, on_connection. destruct (is_owner s).
    + unfold_all. frame user_side.
    + assert (uid s <> u) as Hne by congruence. unfold_all. frame user_side.
  - unfold handle, on_disconnect. destruct (is_owner s).
    + unfold_all. frame user_side.
    + assert (uid s <> u) as Hne by congruence. unfold_all. frame user_side.
  - assert (uid s <> u) as Hne by congruence. unfold_all. frame user_side.
  - unfold handle, on_owner_message.
    destruct (truthy p) as [u''|]; [|frame user_side].
    assert (u'' <> u) as Hne by congruence. unfold_all. frame user_side.
  - unfold handle, on_setMetadata.
    destruct (truthy p) as [u''|]; [|frame user_side].
    assert (u'' <> u) as Hne by congruence. unfold_all. frame user_side.
  - assert (u' <> u) as Hne by congruence. unfold_all. frame user_side.
  - unfold_all. frame user_side.
Qed.

End HandlerFacts.

Lemma other_users_are_untouched_witness :
  chats (step Demo.no_namespace Demo.visitor_connected
           (UserMessage Demo.anonymous (Some "Hello"))) !! "u1"
  = chats Demo.visitor_connected !! "u1".
Proof.
  apply (other_users_are_untouched Demo.no_namespace "u1"
           (UserMessage Demo.anonymous (Some "Hello")) Demo.visitor_connected).
  discriminate.
Defined.

(** ** Ingestion of a text *)

Import Ingestion.

Lemma length_list_ascii_of_string (s : string) :
  length (list_ascii_of_string s) = String.length s.
Proof. induction s as [|a s IH]; simpl; congruence. Qed.

(** The chunks of a text, by the closed form of the loop. *)
Lemma chunksOf_closed (text : string) :
  Z.of_nat (length (chunksOf text)) = (Z.of_nat (String.length text) + 799) / 800 /\
  forall (k : nat) chunk, chunksOf text !! k = Some chunk ->
    chunk = string_of_list_ascii
              (take 1000 (drop (800 * k) (list_ascii_of_string text))).
Proof.
  unfold chunksOf.
  destruct (default_total (list_ascii_of_string text)) as [_ ->].
  split.
  - rewrite !length_map, ranges_from_length, default_iterations.
    unfold len. rewrite length_list_ascii_of_string.
    rewrite Z2Nat.id; [done|]. apply Z.div_pos; lia.
  - intros k chunk Hk. change map with (@fmap list _) in Hk.
    rewrite list_lookup_fmap in Hk.
    destruct (_ !! k) as [c|] eqn:Hc; [|done].
    change (@fmap list _) with map in Hc.
    apply default_chunk in Hc as [-> _]. simpl in Hk. by injection Hk as <-.
Qed.

Section IngestionFacts.
Context (svc : Services) (store : VectorStore).

Lemma generateEmbedding_inv q w v w1 :
  generateEmbedding svc q w = (Ok v, w1) ->
  openai_embeddings svc (clock w) q = Ok v /\ w1 = set_clock S w.
Proof.
  unfold generateEmbedding, try_catch, call, throw.
  destruct (truthy (OPENAI_API_KEY svc)); [|done].
  destruct (openai_embeddings svc (clock w) q); [|done].
  by intros [= <- <-].
Qed.

(** What the loop over the chunks has pushed when it completes. *)
Lemma embedChunks_completes o md total chunks :
  forall i points w pts w',
    embedChunks svc o md total chunks i points w = (Ok pts, w') ->
    exists news,
      pts = points ++ news /\ length news = length chunks /\
      forall (j : nat) chunk, chunks !! j = Some chunk ->
        exists p t now,
          news !! j = Some p /\
          openai_embeddings svc t chunk = Ok (vector p) /\
          point_id p = (now + (i + j))%nat /\
          point_payload p = chunkPayload o md chunk (i + j) total now.
Proof.
  induction chunks as [|c rest IH]; intros i points w pts w' Hrun.
  - injection Hrun as <- <-. exists []. split; [by rewrite app_nil_r|].
    split; [done|]. intros j chunk Hj. done.
  - simpl in Hrun. unfold bind at 1 in Hrun.
    destruct (generateEmbedding svc c w) as [[v|e] w1] eqn:Hemb; [|done].
    apply generateEmbedding_inv in Hemb as [Hv ->].
    unfold bind at 1, gets at 1 in Hrun. cbv beta iota in Hrun.
    apply IH in Hrun as (news & -> & Hlen & Hnews).
    eexists (_ :: news). split; [by rewrite <- app_assoc|].
    split; [simpl; congruence|].
    intros [|j] chunk Hj.
    + injection Hj as <-. eexists _, (clock w), (S (clock w)).
      split; [reflexivity|]. cbn [vector point_id point_payload].
      split; [exact Hv|]. rewrite Nat.add_0_r. split; reflexivity.
    + destruct (Hnews j chunk Hj) as (p & t & now & Hp & Ht & Hid & Hpay).
      exists p, t, now. split; [done|]. split; [done|].
      replace (i + S j)%nat with (S i + j)%nat by lia. done.
Qed.

(** The loop when the embedding of chunk [k] fails after the chunks before
    it were embedded: it throws that error, and the failing request was
    the last one. *)
Lemma embedChunks_fails o md total e :
  api_key_set svc ->
  forall (k : nat) chunks chunk i points w,
    chunks !! k = Some chunk ->
    (forall (j : nat) c, (j < k)%nat -> chunks !! j = Some c ->
       exists v, openai_embeddings svc (clock w + j) c = Ok v) ->
    openai_embeddings svc (clock w + k) chunk = Throw e ->
    embedChunks svc o md total chunks i points w
    = (Throw e, Nat.iter (S k) (set_clock S) w).
Proof.
  intros Hkey k. induction k as [|k IH]; intros chunks chunk i points w Hk Hbefore Hfail.
  - destruct chunks as [|c rest]; [done|]. injection Hk as ->.
    simpl. unfold bind at 1. rewrite generateEmbedding_eval by done.
    rewrite Nat.add_0_r in Hfail. by rewrite Hfail.
  - destruct chunks as [|c rest]; [done|]. simpl in Hk.
    destruct (Hbefore O c ltac:(lia) eq_refl) as [v Hv].
    rewrite Nat.add_0_r in Hv.
    cbn [embedChunks]. unfold bind at 1. rewrite generateEmbedding_eval by done.
    rewrite Hv. unfold bind at 1, gets at 1. cbv beta iota.
    rewrite (IH rest chunk (S i) _ (set_clock S w) Hk).
    + by rewrite <- Nat.iter_succ_r.
    + intros j c' Hj Hc'. simpl clock.
      replace (S (clock w) + j)%nat with (clock w + S j)%nat by lia.
      apply Hbefore; [lia | done].
    + simpl clock. by replace (S (clock w) + k)%nat with (clock w + S k)%nat by lia.
Qed.

Lemma ensureOwnerCollection_returns o :
  returns (fun name => name = collectionName o) (ensureOwnerCollection store o).
Proof.
  unfold ensureOwnerCollection.
  repeat (first [ apply returns_ret; done | returns_step ]; cbv zeta).
Qed.

(** X24.  [ensureOwnerCollection] creates the collection only when the
    store does not list it.  When [hasKnowledgeBase] would answer [true]
    it makes the one listing request and returns the collection name;
    when the listing lacks the name it requests the creation (1536
    dimensions, cosine distance) and returns the name if that succeeds,
    the store's error if not; a failing listing is thrown on, where
    [hasKnowledgeBase] answers [false].  [hasKnowledgeBase] itself never
    throws. *)
Theorem ensureOwnerCollection_creates_only_when_absent o w :
  (exists b, fst (hasKnowledgeBase store o w) = Ok b) /\
  (fst (hasKnowledgeBase store o w) = Ok true ->
   ensureOwnerCollection store o w = (Ok (collectionName o), set_clock S w)) /\
  (forall names,
     qdrant_getCollections store (clock w) = Ok names ->
     listed (collectionName o) names = false ->
     fst (hasKnowledgeBase store o w) = Ok false /\
     ensureOwnerCollection store o w
     = (match qdrant_createCollection store (S (clock w)) (collectionName o)
                (mkVectorParams 1536 "Cosine") with
        | Ok _ => Ok (collectionName o)
        | Throw e => Throw e
        end, set_clock S (set_clock S w))) /\
  (forall e,
     qdrant_getCollections store (clock w) = Throw e ->
     fst (hasKnowledgeBase store o w) = Ok false /\
     ensureOwnerCollection store o w = (Throw e, set_clock S w)).
Proof.
  unfold hasKnowledgeBase, ensureOwnerCollection, try_catch, bind, call, ret, throw.
  destruct (qdrant_getCollections store (clock w)) as [names|e0]; simpl.
  - destruct (listed (collectionName o) names) eqn:Hl; simpl.
    + split; [by eexists|]. split; [done|]. split; [|done].
      intros names' [= <-]. congruence.
    + split; [by eexists|]. split; [done|]. split; [|done].
      intros names' [= <-] _. split; [done|].
      by destruct (qdrant_createCollection store (S (clock w)) _ _).
  - split; [by eexists|]. split; [done|]. split; [done|].
    by intros e [= <-].
Qed.

(** X25.  When [storeTextResource] returns, it reports the collection
    [owner_<ownerId>_knowledge] and [ceil (L / 800)] stored chunks for a
    text of length [L], and the store has accepted one upsert into that
    collection holding one point per chunk, in order: point [k] carries
    an embedding obtained for chunk [k] (the 1000 characters of the text
    from index [800 k] on), and its payload gives that chunk as [text], [k]
    as [chunkIndex], the number of chunks as [totalChunks] and the owner
    as [ownerId], except where the caller's metadata has a key of the same
    name, every metadata key being copied as it is. *)
Theorem storeTextResource_stores_every_chunk o text md w r :
  fst (storeTextResource svc store o text md w) = Ok r ->
  store_success r = true /\
  store_collectionName r = collectionName o /\
  store_ownerId r = o /\ store_metadata r = md /\
  Z.of_nat (chunksStored r) = (Z.of_nat (String.length text) + 799) / 800 /\
  exists t points,
    qdrant_upsert store t (collectionName o) points = Ok tt /\
    length points = chunksStored r /\
    forall (k : nat) p, points !! k = Some p ->
      let chunk :=
        string_of_list_ascii
          (take 1000 (drop (800 * k) (list_ascii_of_string text))) in
      (exists t', openai_embeddings svc t' chunk = Ok (vector p)) /\
      (forall key v, md !! key = Some v -> point_payload p !! key = Some v) /\
      (md !! "text" = None -> point_payload p !! "text" = Some (JString chunk)) /\
      (md !! "chunkIndex" = None ->
       point_payload p !! "chunkIndex" = Some (JNumber k)) /\
      (md !! "totalChunks" = None ->
       point_payload p !! "totalChunks" = Some (JNumber (chunksStored r))) /\
      (md !! "ownerId" = None -> point_payload p !! "ownerId" = Some (JString o)).
Proof.
  intros Hr. unfold storeTextResource, try_catch, bind at 1 in Hr.
  pose proof (ensureOwnerCollection_returns o w) as Hname.
  destruct (ensureOwnerCollection store o w) as [[name|e] w1]; [|done].
  specialize (Hname name eq_refl). subst name. cbv zeta in Hr.
  unfold bind at 1 in Hr.
  destruct (embedChunks svc o md (length (chunksOf text)) (chunksOf text) 0 [] w1)
    as [[points|e] w2] eqn:Hloop; [|done].
  apply embedChunks_completes in Hloop as (news & -> & Hlen & Hnews).
  change ([] ++ news) with news in Hr. unfold bind, call, ret in Hr.
  destruct (qdrant_upsert store (clock w2) (collectionName o) news) as [[]|e] eqn:Hup;
    [|done].
  cbn [fst] in Hr. injection Hr as <-.
  cbn [store_success store_collectionName store_ownerId store_metadata chunksStored].
  destruct (chunksOf_closed text) as [Hcount Hchunk].
  do 4 (split; [done|]). split; [by rewrite Hlen|].
  exists (clock w2), news. split; [done|]. split; [done|].
  intros k p Hp.
  set (chunk := string_of_list_ascii
                  (take 1000 (drop (800 * k) (list_ascii_of_string text)))).
  assert (is_Some (chunksOf text !! k)) as [c Hc].
  { apply lookup_lt_is_Some. rewrite <- Hlen. by apply lookup_lt_Some in Hp. }
  destruct (Hnews k c Hc) as (p' & t' & now & Hp' & Hvec & _ & Hpay).
  rewrite Hp in Hp'. injection Hp' as <-.
  apply Hchunk in Hc. fold chunk in Hc. subst c.
  split; [by exists t'|]. rewrite Hpay. unfold chunkPayload.
  split; [|split; [|split; [|split]]].
  - intros key v Hkey. by apply lookup_union_Some_l.
  - intros Hno. rewrite lookup_union_r by done. by rewrite lookup_insert_eq.
  - intros Hno. rewrite lookup_union_r by done.
    rewrite lookup_insert_ne by done. by rewrite lookup_insert_eq.
  - intros Hno. rewrite lookup_union_r by done.
    rewrite !lookup_insert_ne by done. rewrite lookup_insert_eq. by rewrite Hlen.
  - intros Hno. rewrite lookup_union_r by done.
    rewrite !lookup_insert_ne by done. by rewrite lookup_insert_eq.
Qed.

(** X26.  Ingestion writes all chunks or none.  When the embedding of
    chunk [k] fails after the chunks before it were embedded (API key
    set, collection listed), [storeTextResource] throws that error, and
    the failing request is the last one it issues: after the listing and
    the [k + 1] embedding requests nothing is asked of the store, so no
    point of the text is written, whatever the upsert would have
    answered. *)
Theorem storeTextResource_writes_nothing_when_an_embedding_fails
    o text md w names (k : nat) chunk e :
  api_key_set svc ->
  qdrant_getCollections store (clock w) = Ok names ->
  listed (collectionName o) names = true ->
  chunksOf text !! k = Some chunk ->
  (forall (j : nat) c, (j < k)%nat -> chunksOf text !! j = Some c ->
     exists v, openai_embeddings svc (1 + clock w + j) c = Ok v) ->
  openai_embeddings svc (1 + clock w + k) chunk = Throw e ->
  storeTextResource svc store o text md w
  = (Throw e, Nat.iter (2 + k) (set_clock S) w).
Proof.
  intros Hkey Hnames Hlisted Hk Hbefore Hfail.
  unfold storeTextResource, try_catch, bind at 1.
  assert (ensureOwnerCollection store o w = (Ok (collectionName o), set_clock S w))
    as ->.
  { unfold ensureOwnerCollection, try_catch, bind, call, ret.
    rewrite Hnames. simpl. by rewrite Hlisted. }
  cbv zeta. unfold bind at 1.
  rewrite (embedChunks_fails o md _ e Hkey k (chunksOf text) chunk 0 []
             (set_clock S w) Hk Hbefore Hfail).
  simpl. by rewrite <- Nat.iter_succ_r.
Qed.

End IngestionFacts.

Lemma storeTextResource_stores_every_chunk_witness :
  exists r,
    fst (storeTextResource Demo.no_namespace Samples.store_ready "acme"
           "Plans start at 10 dollars." ∅ Demo.started) = Ok r /\
    chunksStored r = 1%nat /\ store_collectionName r = "owner_acme_knowledge".
Proof.
  assert (exists r,
    fst (storeTextResource Demo.no_namespace Samples.store_ready "acme"
           "Plans start at 10 dollars." ∅ Demo.started) = Ok r) as [r Hr].
  { eexists. vm_compute. reflexivity. }
  exists r. split; [exact Hr|].
  destruct (storeTextResource_stores_every_chunk Demo.no_namespace
              Samples.store_ready "acme" "Plans start at 10 dollars." ∅
              Demo.started r Hr) as (_ & Hname & _ & _ & Hcount & _).
  split; [|exact Hname]. apply Nat2Z.inj. rewrite Hcount. reflexivity.
Defined.

Lemma storeTextResource_writes_nothing_when_an_embedding_fails_witness :
  let text := string_of_list_ascii (replicate 2000 "x"%char) in
  storeTextResource Samples.embeddings_give_out Samples.store_ready "acme"
    text ∅ Demo.started
  = (Throw Samples.rate_limited, Nat.iter 4 (set_clock S) Demo.started).
Proof.
  intros text.
  assert (chunksOf text !! 2%nat
          = Some (string_of_list_ascii (replicate 400 "x"%char))) as Hk
    by (vm_compute; reflexivity).
  apply (storeTextResource_writes_nothing_when_an_embedding_fails
           Samples.embeddings_give_out Samples.store_ready "acme" text ∅
           Demo.started ["owner_acme_knowledge"] 2
           (string_of_list_ascii (replicate 400 "x"%char)) Samples.rate_limited).
  - by eexists.
  - reflexivity.
  - reflexivity.
  - exact Hk.
  - intros j c Hj _. exists []. simpl.
    destruct j as [|[|j]]; [reflexivity | reflexivity | lia].
  - reflexivity.
Defined.

(** ** The HTTP routes *)

Import Http.

Section RouteFacts.
Context (svc : Services).

(** X27.  The reset route answers 200 with ["AI reactivated for user"]
    in every case, with the state the reset handler leaves; in particular
    it does so when the reset could not be recorded (no state collection
    handle, or the driver fails on the write), the takeover records being
    then as before.  The state route answers 200 as well, in every case,
    with a status text that matches the flag it reports. *)
Theorem reset_route_always_reports_success u w :
  post_reset svc u w
  = (Ok (mkResponse 200 (JsonSuccess "AI reactivated for user")),
     step svc w (HttpResetAi u)) /\
  (handlerCollections w = false \/ is_Some (mongo_fault svc (clock w)) ->
   ai_chat_state (step svc w (HttpResetAi u)) = ai_chat_state w) /\
  exists active,
    fst (get_state svc u w)
    = Ok (mkResponse 200
            (JsonAiState
               (mkAiStateInfo u active
                  (if active then "AI is responding" else "Admin has taken over")))).
Proof.
  assert (exists w1, setAiState svc u true w = (Ok tt, w1)) as [w1 Hw1].
  { unfold setAiState, bind, gets, ret.
    destruct (handlerCollections w); simpl; [|by eexists].
    unfold try_catch. destruct (Mongo.aiState_upsertOne svc u true w) as [[[]|e] w1];
      by eexists. }
  split; [|split].
  - unfold post_reset, step, handle, http_resetAi, resetAiForUser, activateAiForUser,
      try_catch, bind.
    by rewrite Hw1.
  - intros Hfail. unfold step, handle, http_resetAi, resetAiForUser,
      activateAiForUser, try_catch.
    destruct (setAiState_unrecorded svc u true w Hfail) as (w2 & Hw2 & Hkept & _).
    rewrite Hw2. done.
  - unfold get_state, try_catch, bind at 1, getAiStateInfo, bind.
    pose proof (shouldAiRespond_only_clock svc u w) as _.
    assert (exists b w2, shouldAiRespond svc u w = (Ok b, w2)) as (b & w2 & ->).
    { unfold shouldAiRespond, bind, gets, ret.
      destruct (handlerCollections w); simpl; [|by eexists _, _].
      unfold try_catch.
      destruct (Mongo.aiState_findOne svc u w) as [[[st|]|e] w2]; by eexists _, _. }
    by exists b.
Qed.

(** X28.  The statistics route always answers, with 200 or 500: 500
    exactly when the vector store fails with an error that is not a
    not-found one, the body then carrying the message of that error; a
    collection the store reports as missing is answered with 200, zero
    counts and the note ["No resources stored yet"]. *)
Theorem stats_route_treats_a_missing_collection_as_empty o w :
  let answer := qdrant_getCollection svc (clock w) (collectionName o) in
  exists r,
    fst (get_stats svc o w) = Ok r /\
    (status r = 200%nat \/ status r = 500%nat) /\
    (status r = 500%nat <->
     exists e, answer = Throw e /\ not_found e = false /\
               body r = JsonError (message e)) /\
    (forall e, answer = Throw e -> not_found e = true ->
       r = mkResponse 200
             (JsonStats (mkResourceStats o (collectionName o) 0 0
                           (Some "No resources stored yet")))).
Proof.
  intros answer. subst answer.
  unfold get_stats, getOwnerResourceStats, try_catch, bind, call, ret, throw,
    not_found.
  destruct (qdrant_getCollection svc (clock w) (collectionName o)) as [info|e];
    cbn [fst].
  - eexists. split; [reflexivity|]. cbn [status body]. split; [by left|].
    split; [|done]. split; [done | by intros (? & ? & _)].
  - destruct (includes (message e) "Not found") eqn:Hnf; cbn [fst].
    + eexists. split; [reflexivity|]. cbn [status body]. split; [by left|].
      split; [|done]. split; [done|].
      intros (e' & [= <-] & Hnf' & _). congruence.
    + eexists. split; [reflexivity|]. cbn [status body]. split; [by right|].
      split.
      * split; [|done]. intros _. by exists e.
      * intros e' [= <-]. congruence.
Qed.

(** X29.  The route that reads one stored chat never throws and never
    writes: only the clock can move, and it does not even call the driver
    without the collection handle, answering 500 ["db not connected"].  It
    answers 200 exactly when the handle is there and the lookup does not
    fail, then with the stored document of the user (or the empty object
    when there is none), and 500 ["failed"] when the lookup fails. *)
Theorem chat_route_reads_the_stored_document u w :
  exists r w',
    get_chat svc u w = (Ok r, w') /\
    only_clock w w' /\
    (status r = 200%nat <->
     chatsCollection w = true /\ mongo_fault svc (clock w) = None) /\
    (status r = 200%nat -> body r = JsonChat (chats w !! u)) /\
    (chatsCollection w = false ->
     w' = w /\ r = mkResponse 500 (JsonError "db not connected")) /\
    (chatsCollection w = true -> is_Some (mongo_fault svc (clock w)) ->
     r = mkResponse 500 (JsonError "failed")).
Proof.
  unfold get_chat, try_catch, bind, gets, ret.
  destruct (chatsCollection w) eqn:Hc; cbn [negb].
  - unfold Mongo.chats_findOne, Mongo.driver, bind, call, gets.
    destruct (mongo_fault svc (clock w)) as [e|] eqn:Hf.
    + eexists _, _. split; [reflexivity|]. split; [by repeat split|].
      cbn [status body]. split; [split; [done | by intros [_ ?]]|].
      split; [done|]. split; [done|]. done.
    + eexists _, _. split; [reflexivity|]. split; [by repeat split|].
      cbn [status body]. split; [done|]. split; [done|]. split; [done|].
      by intros _ [? ?].
  - eexists _, _. split; [reflexivity|]. split; [by repeat split|].
    cbn [status body]. split; [split; [done | by intros [? _]]|].
    split; [done|]. split; [done|]. done.
Qed.

End RouteFacts.

(** ** Routing of an owner's message *)

Section OwnerRoutingFacts.
Context (svc : Services).

Lemma deliverOwnerMessage_emits s u t w :
  mongo_reliable svc -> chatsCollection w = true -> signingOwner s <> "" ->
  exists now now',
    outbox (snd (deliverOwnerMessage svc s u t w))
    = outbox w
      ++ match truthy (users w !! u) with
         | Some sid =>
             [mkEmit sid "message"
                (ChatPayload
                   {| from := FromOwner; text := t; ts := now;
                      msg_userId := Some u; msg_ownerId := Some (signingOwner s);
                      contextUsed := None; sources := []; error := false |})]
         | None => []
         end
      ++ match owners w !! signingOwner s with
         | Some sid =>
             [mkEmit sid "message"
                (ChatPayload
                   {| from := FromOwner; text := t; ts := now';
                      msg_userId := Some u; msg_ownerId := Some (signingOwner s);
                      contextUsed := None; sources := []; error := false |})]
         | None => []
         end.
Proof.
  intros Hrel Hc Hne.
  assert (truthy (Some (signingOwner s)) = Some (signingOwner s)) as Hsign.
  { destruct (signingOwner s); [done | reflexivity]. }
  remember (snd (deliverOwnerMessage svc s u t w)) as w' eqn:Hw'.
  unfold deliverOwnerMessage in Hw'.
  unfold bind at 1, gets at 1 in Hw'. cbv beta iota zeta in Hw'.
  unfold bind at 1 in Hw'. rewrite sendToUser_eval in Hw'. cbv beta iota in Hw'.
  set (w1 := match truthy (users w !! u) with
             | Some sid => _
             | None => w
             end) in *.
  assert (only_emits w w1) as (_ & _ & _ & Ho1 & Hc1 & _).
  { subst w1. destruct (truthy (users w !! u)); by repeat split. }
  unfold bind at 1, bufferPush, modify at 1 in Hw'. cbv beta iota in Hw'.
  unfold bind at 1, gets at 1 in Hw'. cbv beta iota in Hw'.
  change (chatsCollection (set_messagesBuffer _ w1)) with (chatsCollection w1) in Hw'.
  rewrite Hc1, Hc in Hw'.
  unfold bind at 1, try_catch at 1, when, Mongo.chats_upsertOne, bind at 1 in Hw'.
  rewrite driver_ok in Hw' by done. unfold modify at 1 in Hw'.
  cbv beta iota in Hw'.
  unfold try_catch, bind at 1 in Hw'.
  assert (forall w3,
    chats w3 !! u = Some (Mongo.push
       {| from := FromOwner; text := t; ts := clock w;
          msg_userId := None; msg_ownerId := Some (signingOwner s);
          contextUsed := None; sources := []; error := false |}
       (Mongo.set_ownerId (Some (signingOwner s))
          (default (Mongo.new_doc (S (clock w1))) (chats w1 !! u)))) ->
    exists w4, only_clock w3 w4 /\
      match ownerUserId s with
      | Some o => ret (Some o)
      | None =>
          let! doc := Mongo.chats_findOne svc u in
          ret (match doc with
               | Some d => truthy (doc_ownerId d)
               | None => None
               end)
      end w3 = (Ok (Some (signingOwner s)), w4)) as Htarget.
  { intros w3 Hdoc. unfold signingOwner in *.
    destruct (ownerUserId s) as [o|].
    - exists w3. split; [reflexivity | done].
    - unfold Mongo.chats_findOne, bind. rewrite driver_ok by done.
      unfold gets, ret. cbv beta iota.
      change (chats (set_clock S w3)) with (chats w3). rewrite Hdoc.
      cbn [doc_ownerId Mongo.push Mongo.set_ownerId]. rewrite Hsign.
      eexists. split; [|reflexivity]. by repeat split. }
  match type of Hw' with
  | context [match ?tgt ?w3 with _ => _ end] =>
      destruct (Htarget w3) as (w4 & H34 & Htgt);
      [ simpl; by rewrite lookup_insert_eq | rewrite Htgt in Hw'; clear Htgt ]
  end.
  unfold bind, gets in Hw'. cbv beta iota in Hw'.
  rewrite sendToOwnerOrBroadcast_eval, Hsign in Hw'.
  destruct H34 as (_ & _ & _ & Ho4 & _ & _ & _ & Hout4 & _).
  simpl in Ho4, Hout4. rewrite Ho4, Ho1 in Hw'.
  exists (clock w), (clock w4).
  subst w'.
  destruct (owners w !! signingOwner s) as [sid|]; simpl; rewrite Hout4;
    subst w1; destruct (truthy (users w !! u)); simpl;
    by rewrite ?app_nil_r, <- ?app_assoc.
Qed.

(** X30.  The rooms an owner's message addressed to user [u] is emitted
    to (store connected, driver reliable, the sender signing with a
    non-empty id): the room named by the socket id registered for [u], if
    there is one, then the room named by the socket id registered for the
    sending owner, if there is one, and no other room; both emits are
    [message] events carrying the owner's text for [u].  The statement is
    about the rooms addressed, not about the sockets that have joined
    them. *)
Theorem owner_message_addresses_only_its_user s p t u w :
  truthy p = Some u ->
  mongo_reliable svc -> chatsCollection w = true -> signingOwner s <> "" ->
  let sent := emitted_since w (step svc w (OwnerMessage s p t)) in
  map target sent
  = option_list (truthy (users w !! u))
    ++ option_list (owners w !! signingOwner s) /\
  Forall (fun e => event e = "message" /\
                   exists m, payload e = ChatPayload m /\ from m = FromOwner /\
                             text m = t /\ msg_userId m = Some u) sent.
Proof.
  intros Hp Hrel Hc Hne sent.
  assert (exists w1, handleAdminMessage svc u w = (Ok tt, w1) /\
            users w1 = users w /\ owners w1 = owners w /\
            outbox w1 = outbox w /\ chatsCollection w1 = chatsCollection w)
    as (w1 & Hw1 & Hu1 & Ho1 & Hout1 & Hc1).
  { unfold handleAdminMessage, deactivateAiForUser.
    destruct (handlerCollections w) eqn:Hh.
    - rewrite setAiState_eval by done. by eexists.
    - unfold setAiState, bind, gets. rewrite Hh. by eexists. }
  destruct (deliverOwnerMessage_emits s u t w1 Hrel ltac:(congruence) Hne)
    as (now & now' & Hout).
  rewrite Hu1, Ho1, Hout1 in Hout.
  assert (outbox (step svc w (OwnerMessage s p t))
          = outbox (snd (deliverOwnerMessage svc s u t w1))) as Hstep.
  { unfold step, handle, on_owner_message. rewrite Hp.
    unfold try_catch at 1, bind at 1, try_catch at 1. rewrite Hw1.
    by destruct (deliverOwnerMessage svc s u t w1) as [[[]|e] w2]. }
  rewrite <- Hstep in Hout. apply emitted_since_grows in Hout.
  subst sent. rewrite Hout. split.
  - rewrite map_app.
    destruct (truthy (users w !! u)), (owners w !! signingOwner s); reflexivity.
  - apply Forall_app. split.
    + destruct (truthy (users w !! u)); repeat constructor. by eexists.
    + destruct (owners w !! signingOwner s); repeat constructor. by eexists.
Qed.

End OwnerRoutingFacts.

Lemma owner_message_addresses_only_its_user_witness :
  map target
    (emitted_since Demo.only_globex_connected
       (step Demo.no_namespace Demo.only_globex_connected
          (OwnerMessage Demo.globex (Some "u1") "Hello from globex")))
  = ["sock-u1"; "sock-globex"].
Proof.
  apply (owner_message_addresses_only_its_user Demo.no_namespace Demo.globex
           (Some "u1") "Hello from globex" "u1" Demo.only_globex_connected);
    [reflexivity | by intros ? | reflexivity | discriminate].
Defined.
